(** * Excel-SQL manager: the relational bridge, the query builder and the
      analytics queries, embedded and verified.

    The development follows the two source modules:
    - [excel_sql_manager.py]: class [ExcelSQLManager] (module [Bridge] below,
      with the name sanitizer in module [TableName]);
    - [sql_utils.py]: [SQLQueryBuilder] (module [QueryBuilder]),
      [generate_data_quality_report] (module [Quality]) and
      [DataAnalysisQueries] (modules [Pareto] and [Outlier]).

    Python values are modelled as follows.  A [str] is its sequence of Unicode
    code points.  A [dict] is an association list without duplicate keys, in
    insertion order.  The tables of the SQLite database form a finite map from
    table name to table content.  pandas, openpyxl, SQLAlchemy and SQLite are
    libraries outside the repository: where a function calls them, the call is
    modelled by its documented effect, and a call that can fail takes its
    outcome from the environment. *)

From Stdlib Require Import Floats.
From Stdlib Require Import ZArith NArith QArith Qround Reals Lqa Lra Lia.
From Stdlib Require Import List String Ascii Bool Permutation Sorted DecimalString.
From stdpp Require Import gmap strings list fin_maps.

Set Default Proof Using "Type".

(* ===================================================================== *)
(** * Python strings *)
(* ===================================================================== *)

(** A Python [str] is a sequence of code points. *)
Abbreviation pystr := (list N).

(** The code points of an ASCII literal. *)
Definition py (s : string) : pystr :=
  List.map N_of_ascii (list_ascii_of_string s).

(** Code point of the underscore. *)
Definition underscore : N := 95%N.

(* ===================================================================== *)
(** * [ExcelSQLManager._clean_table_name] *)
(* ===================================================================== *)

Module TableName.

Section Unicode.

(** The Unicode character database is not part of the repository.  Its
    answers on the ASCII range are written out; beyond ASCII they are the
    two tables below: [uni_isalpha c] is [chr(c).isalpha()], and
    [uni_isnumeric c] says that [chr(c)] is a decimal, a digit or a numeric
    character. *)
Variable uni_isalpha : N -> bool.
Variable uni_isnumeric : N -> bool.

Definition ascii_isalpha (c : N) : bool :=
  ((65 <=? c) && (c <=? 90) || (97 <=? c) && (c <=? 122))%N.

Definition ascii_isdigit (c : N) : bool :=
  ((48 <=? c) && (c <=? 57))%N.

(** [str.isalpha] on one character. *)
Definition isalpha (c : N) : bool :=
  if (c <? 128)%N then ascii_isalpha c else uni_isalpha c.

(** [str.isalnum] on one character: alphabetic, decimal, digit or
    numeric. *)
Definition isalnum (c : N) : bool :=
  isalpha c || (if (c <? 128)%N then ascii_isdigit c else uni_isnumeric c).

(** The class [\w] of [re] on [str] patterns: alphanumeric or underscore. *)
Definition is_word (c : N) : bool :=
  isalnum c || (c =? underscore)%N.

(** [re.sub(r'[^\w]', '_', name)]: every character outside [\w] is
    replaced, one for one, by an underscore. *)
Definition sub_char (c : N) : N :=
  if is_word c then c else underscore.

Definition re_sub_nonword (name : pystr) : pystr :=
  List.map sub_char name.

(** The default name of the last line of the function. *)
Definition unnamed_table : pystr := py "unnamed_table".

(** [_clean_table_name(name)]:
<<
    cleaned = re.sub(r'[^\w]', '_', name)
    if cleaned and not cleaned[0].isalpha() and cleaned[0] != '_':
        cleaned = '_' + cleaned
    return cleaned or 'unnamed_table'
>> *)
Definition _clean_table_name (name : pystr) : pystr :=
  let cleaned := re_sub_nonword name in
  let cleaned :=
    match cleaned with
    | c :: _ =>
        if negb (isalpha c) && negb (c =? underscore)%N
        then underscore :: cleaned
        else cleaned
    | [] => cleaned
    end in
  match cleaned with
  | [] => unnamed_table
  | _ :: _ => cleaned
  end.

(** The output starts with a letter or an underscore. *)
Definition starts_with_letter_or_underscore (s : pystr) : Prop :=
  match s with
  | c :: _ => isalpha c = true \/ c = underscore
  | [] => False
  end.

(** ** Helper lemmas *)

Lemma is_word_underscore : is_word underscore = true.
Proof. unfold is_word. rewrite N.eqb_refl. apply orb_true_r. Qed.

Lemma sub_char_word c : is_word (sub_char c) = true.
Proof.
  unfold sub_char. destruct (is_word c) eqn:E; [exact E|].
  apply is_word_underscore.
Qed.

Lemma sub_char_id c : is_word c = true -> sub_char c = c.
Proof. unfold sub_char. intros ->. reflexivity. Qed.

Lemma sub_char_nonword c : is_word c = false -> sub_char c = underscore.
Proof. unfold sub_char. intros ->. reflexivity. Qed.

Lemma re_sub_nonword_word name : Forall (fun c => is_word c = true) (re_sub_nonword name).
Proof.
  unfold re_sub_nonword. induction name as [|c name IH]; cbn.
  - constructor.
  - constructor; [apply sub_char_word | exact IH].
Qed.

Lemma unnamed_table_word : Forall (fun c => is_word c = true) unnamed_table.
Proof. repeat constructor. Qed.

(** The function either returns the substituted text, or that text behind
    one more underscore, or (on the empty input only) the default name. *)
Lemma _clean_table_name_shape name :
  name <> [] ->
  exists pre, (pre = [] \/ pre = [underscore]) /\
              _clean_table_name name = pre ++ re_sub_nonword name.
Proof.
  intros Hne. destruct name as [|c name]; [congruence|].
  unfold _clean_table_name. cbn [re_sub_nonword List.map].
  destruct (negb (isalpha (sub_char c)) && negb (sub_char c =? underscore)%N).
  - exists [underscore]. split; [now right | reflexivity].
  - exists []. split; [now left | reflexivity].
Qed.

(** ** The sanitized name *)

Lemma _clean_table_name_empty : _clean_table_name [] = unnamed_table.
Proof. reflexivity. Qed.

Lemma _clean_table_name_nonempty name : _clean_table_name name <> [].
Proof.
  destruct name as [|c name]; [discriminate|].
  destruct (_clean_table_name_shape (c :: name) ltac:(discriminate))
    as (pre & [-> | ->] & ->); discriminate.
Qed.

Lemma _clean_table_name_word name :
  Forall (fun c => is_word c = true) (_clean_table_name name).
Proof.
  destruct name as [|c name]; [apply unnamed_table_word|].
  destruct (_clean_table_name_shape (c :: name) ltac:(discriminate))
    as (pre & Hpre & ->).
  apply Forall_app. split; [|apply re_sub_nonword_word].
  destruct Hpre as [-> | ->]; [constructor|].
  constructor; [apply is_word_underscore | constructor].
Qed.

Lemma _clean_table_name_head name :
  starts_with_letter_or_underscore (_clean_table_name name).
Proof.
  destruct name as [|c name].
  - cbn. left. reflexivity.
  - unfold _clean_table_name. cbn [re_sub_nonword List.map].
    destruct (isalpha (sub_char c)) eqn:Ea; cbn.
    + now left.
    + destruct (N.eqb_spec (sub_char c) underscore) as [Eu | Eu]; cbn.
      * now right.
      * now right.
Qed.

(** C3. Name sanitization: for every input string, [_clean_table_name]
    returns a string that is not empty, holds only word characters ([\w]:
    alphanumeric or underscore) and starts with a letter or an underscore.
    The result is a function of the input alone: on the empty input it is
    the fixed default name [unnamed_table]; on any other input it is the
    input with every non-word character replaced by an underscore and every
    word character kept, behind at most one added underscore. *)
Theorem clean_table_name_sanitized (name : pystr) :
  let out := _clean_table_name name in
  out <> [] /\
  Forall (fun c => is_word c = true) out /\
  starts_with_letter_or_underscore out /\
  _clean_table_name [] = unnamed_table /\
  (name = [] /\ out = unnamed_table \/
   name <> [] /\
   exists pre, (pre = [] \/ pre = [underscore]) /\
     out = pre ++ List.map (fun c => if is_word c then c else underscore) name).
Proof.
  cbv zeta. split; [apply _clean_table_name_nonempty|].
  split; [apply _clean_table_name_word|].
  split; [apply _clean_table_name_head|].
  split; [apply _clean_table_name_empty|].
  destruct name as [|c name].
  - left. split; reflexivity.
  - right. split; [discriminate|].
    destruct (_clean_table_name_shape (c :: name) ltac:(discriminate))
      as (pre & Hpre & E).
    exists pre. split; [exact Hpre | exact E].
Qed.

End Unicode.

End TableName.

(** Two runs of the sanitizer, with no alphabetic or numeric character
    beyond ASCII. *)
Example _clean_table_name_year :
  TableName._clean_table_name (fun _ => false) (fun _ => false) (py "2024 Sales (EU)")
  = py "_2024_Sales__EU_".
Proof. vm_compute. reflexivity. Qed.

Example _clean_table_name_kept :
  TableName._clean_table_name (fun _ => false) (fun _ => false) (py "Ventes_2024")
  = py "Ventes_2024".
Proof. vm_compute. reflexivity. Qed.

(* ===================================================================== *)
(** * [SQLQueryBuilder]: the filters *)
(* ===================================================================== *)

Module QueryBuilder.

(** The values a caller passes as [Any]: a [str], an [int], a [bool] or
    [None].  ([float] is left out: its [str] is not modelled.) *)
Inductive pyval :=
| PyStr (s : pystr)
| PyInt (z : Z)
| PyBool (b : bool)
| PyNone.

(** [isinstance(v, str)] *)
Definition is_str (v : pyval) : bool :=
  match v with PyStr _ => true | _ => false end.

(** [str(z)] for an [int]. *)
Definition str_of_int (z : Z) : pystr :=
  py (DecimalString.NilZero.string_of_int (Z.to_int z)).

(** [str(v)], which is also how an f-string renders [{v}]. *)
Definition str (v : pyval) : pystr :=
  match v with
  | PyStr s => s
  | PyInt z => str_of_int z
  | PyBool true => py "True"
  | PyBool false => py "False"
  | PyNone => py "None"
  end.

(** [sep.join(parts)] *)
Fixpoint join (sep : pystr) (parts : list pystr) : pystr :=
  match parts with
  | [] => []
  | [p] => p
  | p :: rest => p ++ sep ++ join sep rest
  end.

(** [f"'{v}'"] *)
Definition quoted (s : pystr) : pystr := py "'" ++ s ++ py "'".

(** [select_all(table_name)] *)
Definition select_all (table_name : pystr) : pystr :=
  py "SELECT * FROM " ++ table_name.

(** [filter_by_value(table_name, column, value, operator)]:
<<
    if isinstance(value, str):
        value = f"'{value}'"
    return f"SELECT * FROM {table_name} WHERE {column} {operator} {value}"
>> *)
Definition filter_by_value (table_name column : pystr) (value : pyval)
    (operator : pystr) : pystr :=
  let value := if is_str value then PyStr (quoted (str value)) else value in
  py "SELECT * FROM " ++ table_name ++ py " WHERE " ++ column ++ py " "
    ++ operator ++ py " " ++ str value.

(** The default operator. *)
Definition default_operator : pystr := py "=".

(** [filter_by_multiple_values(table_name, column, values)]:
<<
    if all(isinstance(v, str) for v in values):
        values_str = ", ".join([f"'{v}'" for v in values])
    else:
        values_str = ", ".join([str(v) for v in values])
    return f"SELECT * FROM {table_name} WHERE {column} IN ({values_str})"
>> *)
Definition filter_by_multiple_values (table_name column : pystr)
    (values : list pyval) : pystr :=
  let values_str :=
    if forallb is_str values
    then join (py ", ") (List.map (fun v => quoted (str v)) values)
    else join (py ", ") (List.map str values) in
  py "SELECT * FROM " ++ table_name ++ py " WHERE " ++ column ++ py " IN ("
    ++ values_str ++ py ")".

(** What the contract asks of the membership filter: every string of the
    list single-quoted, every other value rendered by [str]. *)
Definition literal (v : pyval) : pystr :=
  if is_str v then quoted (str v) else str v.

Definition in_clause_per_value (table_name column : pystr)
    (values : list pyval) : pystr :=
  py "SELECT * FROM " ++ table_name ++ py " WHERE " ++ column ++ py " IN ("
    ++ join (py ", ") (List.map literal values) ++ py ")".

(** ** The equality filter quotes a string, and only a string *)

Lemma filter_by_value_str table_name column s operator :
  filter_by_value table_name column (PyStr s) operator =
  py "SELECT * FROM " ++ table_name ++ py " WHERE " ++ column ++ py " "
    ++ operator ++ py " " ++ py "'" ++ s ++ py "'".
Proof. reflexivity. Qed.

Lemma filter_by_value_int table_name column z operator :
  filter_by_value table_name column (PyInt z) operator =
  py "SELECT * FROM " ++ table_name ++ py " WHERE " ++ column ++ py " "
    ++ operator ++ py " " ++ str_of_int z.
Proof. reflexivity. Qed.

(** ** The membership filter *)

Lemma map_literal_all_str values :
  forallb is_str values = true ->
  List.map literal values = List.map (fun v => quoted (str v)) values.
Proof.
  induction values as [|v values IH]; cbn; [reflexivity|].
  intros H. apply andb_true_iff in H as [Hv Hrest].
  unfold literal at 1. rewrite Hv. f_equal. apply IH, Hrest.
Qed.

(** On a list of strings only, every element is single-quoted. *)
Lemma filter_by_multiple_values_all_str table_name column values :
  forallb is_str values = true ->
  filter_by_multiple_values table_name column values =
  in_clause_per_value table_name column values.
Proof.
  intros H. unfold filter_by_multiple_values, in_clause_per_value.
  rewrite H, (map_literal_all_str values H). reflexivity.
Qed.

(** C9. Literal interpolation.  A string is single-quoted, without
    escaping, by the equality filter ([filter_by_value_str]) and by the
    membership filter on a list of strings only
    ([filter_by_multiple_values_all_str]); identifiers are copied as they
    are.  On a mixed list the membership filter does not quote: as soon as
    one element of [values] is not a string, it renders every element with
    [str], so the strings of the list enter the IN clause without quotes. *)
Theorem filter_by_multiple_values_mixed table_name column values :
  forallb is_str values = false ->
  filter_by_multiple_values table_name column values =
  py "SELECT * FROM " ++ table_name ++ py " WHERE " ++ column ++ py " IN ("
    ++ join (py ", ") (List.map str values) ++ py ")".
Proof.
  intros H. unfold filter_by_multiple_values. rewrite H. reflexivity.
Qed.

(** The failing input of C9: [values = ['a', 1]].  The query text is
    [... IN (a, 1)], where the contract asks for [... IN ('a', 1)]. *)
Lemma filter_by_multiple_values_mixed_witness :
  forallb is_str [PyStr (py "a"); PyInt 1] = false /\
  filter_by_multiple_values (py "t") (py "c") [PyStr (py "a"); PyInt 1]
    = py "SELECT * FROM t WHERE c IN (a, 1)" /\
  in_clause_per_value (py "t") (py "c") [PyStr (py "a"); PyInt 1]
    = py "SELECT * FROM t WHERE c IN ('a', 1)".
Proof.
  split; [reflexivity|]. split; [|vm_compute; reflexivity].
  rewrite (filter_by_multiple_values_mixed (py "t") (py "c")
             [PyStr (py "a"); PyInt 1] eq_refl).
  vm_compute. reflexivity.
Defined.

End QueryBuilder.

(* ===================================================================== *)
(** * Datasets, dictionaries and the world outside the manager *)
(* ===================================================================== *)

(** A cell of a sheet or of a table: empty, a number or a text. *)
Inductive cell :=
| NULL
| Int (z : Z)
| Text (s : pystr).

#[global] Instance cell_eq_dec : EqDecision cell.
Proof. solve_decision. Defined.

(** A [pandas.DataFrame] without index: ordered columns, ordered rows. *)
Record DataFrame := mkDataFrame {
  columns : list pystr;
  rows : list (list cell)
}.

(** [len(df)] *)
Definition len (df : DataFrame) : nat := length (rows df).

(** A Python [dict] with string keys: the items in insertion order. *)
Definition dict (V : Type) : Type := list (pystr * V).

(** [d.get(k)], [None] standing for a missing key. *)
Fixpoint dict_get {V} (k : pystr) (d : dict V) : option V :=
  match d with
  | [] => None
  | (k', v) :: d' => if decide (k = k') then Some v else dict_get k d'
  end.

(** [d[k] = v]: the value of an existing key is replaced where it stands, a
    new key is added at the end. *)
Fixpoint dict_set {V} (k : pystr) (v : V) (d : dict V) : dict V :=
  match d with
  | [] => [(k, v)]
  | (k', v') :: d' =>
      if decide (k = k') then (k', v) :: d' else (k', v') :: dict_set k v d'
  end.

(** [list(d.keys())] *)
Definition dict_keys {V} (d : dict V) : list pystr := List.map fst d.

(** [k in d] *)
Definition dict_mem {V} (k : pystr) (d : dict V) : bool :=
  match dict_get k d with Some _ => true | None => false end.

(** A file is a workbook (its sheets in order) or an SQLite database (its
    tables by name).  A workbook holds the sheets as they were handed to the
    writer ([DataFrame.to_excel]: the header and the cells, no index); what
    [pandas.read_excel] makes of them when the file is read is [read_cells]
    below. *)
Inductive file :=
| ExcelFile (sheets : dict DataFrame)
| SqliteFile (tables : gmap pystr DataFrame).

(** Exceptions. *)
Inductive exn :=
| FileNotFoundError (path : pystr)
| InvalidFileError (path : pystr)
| OperationalError
| DatabaseError
| ResourceClosedError
| IOError (path : pystr)
| OSError (path : pystr).

(** The libraries and the system behind the program: the outcome of the
    calls that can fail for reasons outside the program, and what the
    workbook reader returns. *)
Record Faults := mkFaults {
  (** [engine.connect()] raises *)
  engine_unreachable : bool;
  (** [Connection.close()] raises on an open connection *)
  release_fails : bool;
  (** [os.remove(path)] raises *)
  remove_fails : pystr -> bool;
  (** writing the workbook raises *)
  write_fails : pystr -> dict DataFrame -> bool;
  (** [DataFrame.to_sql] raises for this table name and content *)
  to_sql_fails : pystr -> DataFrame -> bool;
  (** the frame that [pandas.read_excel] returns for a sheet that holds
      this frame: the reader infers missing values and types from the cells,
      so this need not be the frame that was written *)
  read_cells : DataFrame -> DataFrame
}.

Inductive level := INFO | WARNING | ERROR.

(** The records of [logger], one constructor per call site. *)
Inductive message :=
| MsgInitialised (excel : pystr)
| MsgDatabase (db : pystr)
| MsgConnected
| MsgConnectError (e : exn)
| MsgClosed
| MsgTempDbRemoved
| MsgTempDbNotRemoved (e : exn)
| MsgExcelLoaded (sheets : list pystr)
| MsgExcelLoadError (e : exn)
| MsgSheetNotFound (sheet : pystr)
| MsgSheetLoaded (sheet table : pystr) (n : nat)
| MsgSheetLoadError (sheet : pystr) (e : exn)
| MsgQueryDone (n : nat)
| MsgQueryError (e : exn)
| MsgQueryText (query : pystr)
| MsgSheetUpdated (sheet : pystr) (n : nat)
| MsgSheetUpdateError (sheet : pystr) (e : exn)
| MsgExcelSaved (path : pystr)
| MsgExcelSaveError (e : exn).

Record World := mkWorld {
  fs : gmap pystr file;
  faults : Faults;
  log : list (level * message)
}.

Definition set_fs (f : gmap pystr file) (w : World) : World :=
  {| fs := f; faults := faults w; log := log w |}.

Definition add_log (l : level) (msg : message) (w : World) : World :=
  {| fs := fs w; faults := faults w; log := log w ++ [(l, msg)] |}.

(** The tables of the database file at [p]; no table where there is no
    database. *)
Definition db_tables (w : World) (p : pystr) : gmap pystr DataFrame :=
  match fs w !! p with
  | Some (SqliteFile t) => t
  | _ => ∅
  end.

(** SQLite creates an empty database when it opens a path that does not
    exist. *)
Definition touch_db (p : pystr) (w : World) : World :=
  match fs w !! p with
  | None => set_fs (<[p := SqliteFile ∅]> (fs w)) w
  | Some _ => w
  end.

(** ** Dictionaries: lookup after assignment *)

Lemma dict_get_set_eq {V} k (v : V) d : dict_get k (dict_set k v d) = Some v.
Proof.
  induction d as [|[k' v'] d IH]; cbn.
  - rewrite decide_True by reflexivity. reflexivity.
  - destruct (decide (k = k')) as [E | NE]; cbn.
    + rewrite decide_True by exact E. reflexivity.
    + rewrite decide_False by exact NE. exact IH.
Qed.

Lemma dict_get_set_ne {V} k k0 (v : V) d :
  k0 <> k -> dict_get k0 (dict_set k v d) = dict_get k0 d.
Proof.
  intros NE. induction d as [|[k' v'] d IH]; cbn.
  - rewrite decide_False by exact NE. reflexivity.
  - destruct (decide (k = k')) as [E | NE']; cbn.
    + subst k'. rewrite !decide_False by exact NE. reflexivity.
    + destruct (decide (k0 = k')); [reflexivity | exact IH].
Qed.

Lemma dict_keys_set {V} k (v : V) d :
  dict_keys (dict_set k v d) =
  if dict_mem k d then dict_keys d else dict_keys d ++ [k].
Proof.
  unfold dict_mem, dict_keys.
  induction d as [|[k' v'] d IH]; cbn; [reflexivity|].
  destruct (decide (k = k')) as [E | NE]; cbn; [reflexivity|].
  rewrite IH. destruct (dict_get k d); reflexivity.
Qed.

Lemma dict_mem_set {V} k (v : V) d : dict_mem k (dict_set k v d) = true.
Proof. unfold dict_mem. rewrite dict_get_set_eq. reflexivity. Qed.

(* ===================================================================== *)
(** * [ExcelSQLManager] *)
(* ===================================================================== *)

Module Bridge.

(** The state of [self.connection] once [connect] has run. *)
Inductive conn := ConnOpen | ConnClosed.

(** The attributes of an [ExcelSQLManager].  [connection = None] is the
    Python [None]; a connection object is true in a test even when closed. *)
Record Manager := mkManager {
  excel_file_path : pystr;
  original_excel_data : dict DataFrame;
  modified_data : dict DataFrame;
  temp_db : bool;
  db_path : pystr;
  connection : option conn
}.

Definition set_connection (c : option conn) (m : Manager) : Manager :=
  {| excel_file_path := excel_file_path m;
     original_excel_data := original_excel_data m;
     modified_data := modified_data m;
     temp_db := temp_db m; db_path := db_path m; connection := c |}.

Definition set_loaded (orig modif : dict DataFrame) (m : Manager) : Manager :=
  {| excel_file_path := excel_file_path m;
     original_excel_data := orig;
     modified_data := modif;
     temp_db := temp_db m; db_path := db_path m; connection := connection m |}.

Definition set_modified_data (modif : dict DataFrame) (m : Manager) : Manager :=
  set_loaded (original_excel_data m) modif m.

(** ** Methods as state transformers that may raise *)

Inductive result (A : Type) :=
| Ok (a : A)
| Raise (e : exn).
Arguments Ok {A} a.
Arguments Raise {A} e.

Definition State : Type := Manager * World.

Definition M (A : Type) : Type := State -> result A * State.

Definition ret {A} (a : A) : M A := fun s => (Ok a, s).

Definition bind {A B} (c : M A) (k : A -> M B) : M B :=
  fun s => match c s with
           | (Ok a, s') => k a s'
           | (Raise e, s') => (Raise e, s')
           end.

Definition raise {A} (e : exn) : M A := fun s => (Raise e, s).

(** [try: c  except Exception as e: h e] *)
Definition try_except {A} (c : M A) (h : exn -> M A) : M A :=
  fun s => match c s with
           | (Ok a, s') => (Ok a, s')
           | (Raise e, s') => h e s'
           end.

Notation "x <- c ;; k" := (bind c (fun x => k))
  (at level 100, c at next level, right associativity).
Notation "c ;;; k" := (bind c (fun _ => k))
  (at level 100, right associativity).

Definition get_self : M Manager := fun s => (Ok (fst s), s).
Definition get_world : M World := fun s => (Ok (snd s), s).
Definition update_self (f : Manager -> Manager) : M unit :=
  fun s => (Ok tt, (f (fst s), snd s)).
Definition update_world (f : World -> World) : M unit :=
  fun s => (Ok tt, (fst s, f (snd s))).

Definition logger (l : level) (msg : message) : M unit :=
  update_world (add_log l msg).

(** The frames that [pandas.read_excel] returns for the sheets of a
    workbook: the names and their order are those of the workbook. *)
Definition read_workbook (f : Faults) (sheets : dict DataFrame) : dict DataFrame :=
  List.map (fun kv => (fst kv, read_cells f (snd kv))) sheets.

Section Engine.

(** Unicode tables for [_clean_table_name] (see [TableName]). *)
Variable uni_isalpha : N -> bool.
Variable uni_isnumeric : N -> bool.

(** The SQL engine behind [pd.read_sql_query]: what running a text against
    the database at a path does to the files, and what comes back, the rows
    or an exception.  The text is run as it is: nothing restricts it to the
    statements that read, a statement may write and return rows, and a
    statement that returns no row has run when the exception is raised. *)
Variable sql_run :
  pystr -> gmap pystr file -> pystr -> result DataFrame * gmap pystr file.

Definition clean : pystr -> pystr :=
  TableName._clean_table_name uni_isalpha uni_isnumeric.

(** [ExcelSQLManager(excel_file_path, db_path)]; [tmp] is the name that
    [tempfile.mktemp(suffix='.db')] returns. *)
Definition __init__ (excel_file_path : pystr) (db_path : option pystr)
    (tmp : pystr) (w : World) : Manager * World :=
  let self :=
    match db_path with
    | None =>
        {| excel_file_path := excel_file_path; original_excel_data := [];
           modified_data := []; temp_db := true; db_path := tmp;
           connection := None |}
    | Some p =>
        {| excel_file_path := excel_file_path; original_excel_data := [];
           modified_data := []; temp_db := false; db_path := p;
           connection := None |}
    end in
  (self, add_log INFO (MsgDatabase (Bridge.db_path self))
           (add_log INFO (MsgInitialised excel_file_path) w)).

(** [self.engine.connect()] *)
Definition engine_connect : M conn :=
  w <- get_world ;;
  self <- get_self ;;
  if engine_unreachable (faults w) then raise OperationalError
  else update_world (touch_db (db_path self)) ;;; ret ConnOpen.

(** [connect]:
<<
    try:
        self.connection = self.engine.connect()
        logger.info(...)
    except Exception as e:
        logger.error(...)
        raise
>> *)
Definition connect : M unit :=
  try_except
    (c <- engine_connect ;;
     update_self (set_connection (Some c)) ;;;
     logger INFO MsgConnected)
    (fun e => logger ERROR (MsgConnectError e) ;;; raise e).

(** [self.connection.close()]: releasing an open connection may fail;
    closing a closed connection does nothing. *)
Definition connection_close (c : conn) : M unit :=
  match c with
  | ConnClosed => ret tt
  | ConnOpen =>
      w <- get_world ;;
      if release_fails (faults w) then raise OperationalError
      else update_self (set_connection (Some ConnClosed))
  end.

(** [os.path.exists(path)] *)
Definition os_path_exists (p : pystr) : M bool :=
  w <- get_world ;;
  ret (match fs w !! p with Some _ => true | None => false end).

(** [os.remove(path)] *)
Definition os_remove (p : pystr) : M unit :=
  w <- get_world ;;
  match fs w !! p with
  | None => raise (FileNotFoundError p)
  | Some _ =>
      if remove_fails (faults w) p then raise (OSError p)
      else update_world (fun w => set_fs (delete p (fs w)) w)
  end.

(** [close]:
<<
    if self.connection:
        self.connection.close()
        logger.info("Connexion fermée")
    if self.temp_db and os.path.exists(self.db_path):
        try:
            os.remove(self.db_path)
            logger.info(...)
        except Exception as e:
            logger.warning(...)
>> *)
Definition close : M unit :=
  self <- get_self ;;
  match connection self with
   | Some c => connection_close c ;;; logger INFO MsgClosed
   | None => ret tt
   end ;;;
  present <- os_path_exists (db_path self) ;;
  if temp_db self && present then
    try_except
      (os_remove (db_path self) ;;; logger INFO MsgTempDbRemoved)
      (fun e => logger WARNING (MsgTempDbNotRemoved e))
  else ret tt.

(** [pd.read_excel(path, sheet_name=None, engine='openpyxl')]: one frame
    per sheet, in the order of the workbook, each as the reader returns
    it. *)
Definition pd_read_excel (p : pystr) : M (dict DataFrame) :=
  w <- get_world ;;
  match fs w !! p with
  | Some (ExcelFile sheets) => ret (read_workbook (faults w) sheets)
  | Some (SqliteFile _) => raise (InvalidFileError p)
  | None => raise (FileNotFoundError p)
  end.

(** [load_excel_to_memory]:
<<
    try:
        if not self.excel_file_path.exists():
            raise FileNotFoundError(...)
        excel_data = pd.read_excel(self.excel_file_path, sheet_name=None, ...)
        self.original_excel_data = excel_data.copy()
        self.modified_data = excel_data.copy()
        logger.info(...)
        return excel_data
    except Exception as e:
        logger.error(...)
        raise
>>
    The two copies are two dictionaries: an assignment in one is not seen
    in the other. *)
Definition load_excel_to_memory : M (dict DataFrame) :=
  try_except
    (self <- get_self ;;
     present <- os_path_exists (excel_file_path self) ;;
     (if negb present then raise (FileNotFoundError (excel_file_path self))
      else ret tt) ;;;
     excel_data <- pd_read_excel (excel_file_path self) ;;
     update_self (set_loaded excel_data excel_data) ;;;
     logger INFO (MsgExcelLoaded (dict_keys excel_data)) ;;;
     ret excel_data)
    (fun e => logger ERROR (MsgExcelLoadError e) ;;; raise e).

(** [df.to_sql(table_name, self.engine, if_exists='replace', index=False)]:
    the table is created, or dropped and created again, with the rows and
    columns of [df]. *)
Definition df_to_sql (df : DataFrame) (table_name : pystr) : M unit :=
  self <- get_self ;;
  w <- get_world ;;
  if engine_unreachable (faults w) then raise OperationalError
  else
    update_world (touch_db (db_path self)) ;;;
    w <- get_world ;;
    match fs w !! db_path self with
    | Some (SqliteFile t) =>
        if to_sql_fails (faults w) table_name df then raise DatabaseError
        else update_world
               (set_fs (<[db_path self := SqliteFile (<[table_name := df]> t)]> (fs w)))
    | _ => raise DatabaseError
    end.

(** The body of the loop of [load_sheets_to_sql]:
<<
    if sheet_name not in self.original_excel_data:
        logger.warning(...)
        continue
    try:
        df = self.original_excel_data[sheet_name]
        table_name = self._clean_table_name(sheet_name)
        df.to_sql(table_name, self.engine, if_exists='replace', index=False)
        logger.info(...)
    except Exception as e:
        logger.error(...)
        raise
>> *)
Definition load_sheet (sheet_name : pystr) : M unit :=
  self <- get_self ;;
  match dict_get sheet_name (original_excel_data self) with
  | None => logger WARNING (MsgSheetNotFound sheet_name)
  | Some df =>
      try_except
        (let table_name := clean sheet_name in
         df_to_sql df table_name ;;;
         logger INFO (MsgSheetLoaded sheet_name table_name (len df)))
        (fun e => logger ERROR (MsgSheetLoadError sheet_name e) ;;; raise e)
  end.

(** [for sheet_name in sheets_to_load: ...] *)
Fixpoint load_sheets (sheets_to_load : list pystr) : M unit :=
  match sheets_to_load with
  | [] => ret tt
  | sheet_name :: rest => load_sheet sheet_name ;;; load_sheets rest
  end.

(** [load_sheets_to_sql(sheet_names)]:
<<
    if not self.original_excel_data:
        self.load_excel_to_memory()
    sheets_to_load = sheet_names if sheet_names else list(self.original_excel_data.keys())
    for sheet_name in sheets_to_load: ...
>>
    An empty list of names is false in the test, like [None]. *)
Definition load_sheets_to_sql (sheet_names : option (list pystr)) : M unit :=
  self <- get_self ;;
  match original_excel_data self with
   | [] => load_excel_to_memory ;;; ret tt
   | _ :: _ => ret tt
   end ;;;
  self <- get_self ;;
  let sheets_to_load :=
    match sheet_names with
    | Some (n :: names) => n :: names
    | Some [] | None => dict_keys (original_excel_data self)
    end in
  load_sheets sheets_to_load.

(** [pd.read_sql_query(query, self.engine)]: the text is handed to the
    engine, whatever it is. *)
Definition pd_read_sql_query (query : pystr) : M DataFrame :=
  self <- get_self ;;
  w <- get_world ;;
  if engine_unreachable (faults w) then raise OperationalError
  else
    update_world (touch_db (db_path self)) ;;;
    w <- get_world ;;
    match fs w !! db_path self with
    | Some (SqliteFile _) =>
        update_world (set_fs (snd (sql_run (db_path self) (fs w) query))) ;;;
        match fst (sql_run (db_path self) (fs w) query) with
        | Ok df => ret df
        | Raise e => raise e
        end
    | _ => raise DatabaseError
    end.

(** [execute_query(query)]:
<<
    try:
        result = pd.read_sql_query(query, self.engine)
        logger.info(...)
        return result
    except Exception as e:
        logger.error(...); logger.error(...)
        raise
>> *)
Definition execute_query (query : pystr) : M DataFrame :=
  try_except
    (result <- pd_read_sql_query query ;;
     logger INFO (MsgQueryDone (len result)) ;;;
     ret result)
    (fun e => logger ERROR (MsgQueryError e) ;;;
              logger ERROR (MsgQueryText query) ;;;
              raise e).

(** [update_sheet_from_query(sheet_name, query)]:
<<
    try:
        new_data = self.execute_query(query)
        self.modified_data[sheet_name] = new_data
        logger.info(...)
    except Exception as e:
        logger.error(...)
        raise
>> *)
Definition update_sheet_from_query (sheet_name query : pystr) : M unit :=
  try_except
    (new_data <- execute_query query ;;
     update_self (fun self =>
       set_modified_data (dict_set sheet_name new_data (modified_data self)) self) ;;;
     logger INFO (MsgSheetUpdated sheet_name (len new_data)))
    (fun e => logger ERROR (MsgSheetUpdateError sheet_name e) ;;; raise e).

(** [output_path if output_path else self.excel_file_path]: an empty string
    is false in the test. *)
Definition save_path_of (output_path : option pystr) (self : Manager) : pystr :=
  match output_path with
  | Some (c :: p) => c :: p
  | Some [] | None => excel_file_path self
  end.

(** The [with pd.ExcelWriter(save_path, engine='openpyxl')] block: one sheet
    per item of [self.modified_data], in the order of the dictionary, no
    index column. *)
Definition write_workbook (save_path : pystr) (sheets : dict DataFrame) : M unit :=
  w <- get_world ;;
  if write_fails (faults w) save_path sheets then raise (IOError save_path)
  else update_world (fun w => set_fs (<[save_path := ExcelFile sheets]> (fs w)) w).

(** [save_excel(output_path)]:
<<
    try:
        save_path = output_path if output_path else self.excel_file_path
        with pd.ExcelWriter(save_path, engine='openpyxl') as writer:
            for sheet_name, df in self.modified_data.items():
                df.to_excel(writer, sheet_name=sheet_name, index=False)
        logger.info(...)
    except Exception as e:
        logger.error(...)
        raise
>> *)
Definition save_excel (output_path : option pystr) : M unit :=
  try_except
    (self <- get_self ;;
     let save_path := save_path_of output_path self in
     write_workbook save_path (modified_data self) ;;;
     logger INFO (MsgExcelSaved save_path))
    (fun e => logger ERROR (MsgExcelSaveError e) ;;; raise e).

(** ** What the world looks like from the program *)

(** The sheets of the workbook at [p], if [p] holds a workbook. *)
Definition workbook (w : World) (p : pystr) : option (dict DataFrame) :=
  match fs w !! p with
  | Some (ExcelFile sheets) => Some sheets
  | _ => None
  end.

(** The engine can be reached and the database path does not hold a
    workbook. *)
Definition db_ready (w : World) (p : pystr) : Prop :=
  engine_unreachable (faults w) = false /\
  forall sheets, fs w !! p <> Some (ExcelFile sheets).

(** Two worlds with the same files and the same faults: they differ by
    their logs only. *)
Definition same_files (w w' : World) : Prop :=
  fs w = fs w' /\ faults w = faults w'.

(** The tables after the sheets [names] of [orig] have been written, in
    this order, over the tables [T]; a name without a sheet writes nothing. *)
Definition materialize (orig : dict DataFrame) (T : gmap pystr DataFrame)
    (names : list pystr) : gmap pystr DataFrame :=
  fold_left
    (fun T n => match dict_get n orig with
                | Some df => <[clean n := df]> T
                | None => T
                end)
    names T.

(** The second half of [close]: the temporary database is deleted when it
    exists; a deletion that fails leaves a warning and the file. *)
Definition cleanup (m : Manager) (w : World) : World :=
  if temp_db m && bool_decide (is_Some (fs w !! db_path m)) then
    if remove_fails (faults w) (db_path m)
    then add_log WARNING (MsgTempDbNotRemoved (OSError (db_path m))) w
    else add_log INFO MsgTempDbRemoved (set_fs (delete (db_path m) (fs w)) w)
  else w.

(** ** The world after a query *)

Lemma db_tables_touch p w p' : db_tables (touch_db p w) p' = db_tables w p'.
Proof.
  unfold touch_db, db_tables. destruct (fs w !! p) eqn:E; [reflexivity|].
  cbn. destruct (decide (p = p')) as [<- | NE].
  - rewrite lookup_insert_eq, E. reflexivity.
  - rewrite lookup_insert_ne by exact NE. reflexivity.
Qed.

Lemma workbook_touch p w p' : workbook (touch_db p w) p' = workbook w p'.
Proof.
  unfold touch_db, workbook. destruct (fs w !! p) eqn:E; [reflexivity|].
  cbn. destruct (decide (p = p')) as [<- | NE].
  - rewrite lookup_insert_eq, E. reflexivity.
  - rewrite lookup_insert_ne by exact NE. reflexivity.
Qed.

Lemma db_tables_add_log l msg w p : db_tables (add_log l msg w) p = db_tables w p.
Proof. reflexivity. Qed.

Lemma faults_touch p w : faults (touch_db p w) = faults w.
Proof. unfold touch_db. destruct (fs w !! p); reflexivity. Qed.

Lemma fs_touch_db p w :
  fs (touch_db p w) !! p =
  Some (match fs w !! p with Some f => f | None => SqliteFile ∅ end).
Proof.
  unfold touch_db. destruct (fs w !! p) eqn:E; cbn.
  - exact E.
  - apply lookup_insert_eq.
Qed.

(** Unfolding of the monad, for symbolic runs of the methods. *)
Ltac run_M :=
  unfold logger in *;
  unfold bind, try_except, ret, raise, get_self, get_world, update_self,
    update_world in *; cbn [fst snd] in *.

(** ** What the engine does with a query *)

(** The world once the engine has run [query] for the manager [m] in the
    world [w], and what it has answered. *)
Definition after_query (m : Manager) (w : World) (query : pystr) : World :=
  set_fs (snd (sql_run (db_path m) (fs (touch_db (db_path m) w)) query))
         (touch_db (db_path m) w).

Definition answer (m : Manager) (w : World) (query : pystr) : result DataFrame :=
  fst (sql_run (db_path m) (fs (touch_db (db_path m) w)) query).

(** The engine writes nothing when it runs [query] there: the text only
    reads. *)
Definition reads_only (m : Manager) (w : World) (query : pystr) : Prop :=
  snd (sql_run (db_path m) (fs (touch_db (db_path m) w)) query)
  = fs (touch_db (db_path m) w).

Lemma faults_after_query m w query : faults (after_query m w query) = faults w.
Proof. apply faults_touch. Qed.

Lemma log_touch p w : log (touch_db p w) = log w.
Proof. unfold touch_db. destruct (fs w !! p); reflexivity. Qed.

Lemma after_query_reads_only m w query :
  reads_only m w query ->
  (forall p, db_tables (after_query m w query) p = db_tables w p) /\
  (forall p, workbook (after_query m w query) p = workbook w p).
Proof.
  intros H. unfold after_query, db_tables, workbook. cbn [fs set_fs].
  rewrite H. split; intros p.
  - apply (db_tables_touch (db_path m) w p).
  - apply (workbook_touch (db_path m) w p).
Qed.

(** [execute_query], case by case. *)
Lemma execute_query_eq query m w :
  execute_query query (m, w) =
  let failed e w0 :=
    (Raise e, (m, add_log ERROR (MsgQueryText query)
                    (add_log ERROR (MsgQueryError e) w0))) in
  if engine_unreachable (faults w) then failed OperationalError w
  else
    match fs w !! db_path m with
    | Some (ExcelFile _) => failed DatabaseError (touch_db (db_path m) w)
    | _ =>
        match answer m w query with
        | Ok df =>
            (Ok df, (m, add_log INFO (MsgQueryDone (len df)) (after_query m w query)))
        | Raise e => failed e (after_query m w query)
        end
    end.
Proof.
  unfold execute_query, pd_read_sql_query, answer, after_query. run_M.
  destruct (engine_unreachable (faults w)); [reflexivity|]. cbn [fst snd].
  rewrite fs_touch_db.
  destruct (fs w !! db_path m) as [[sh | t]|] eqn:E; [reflexivity| |];
    cbn [fst snd];
    destruct (fst (sql_run (db_path m) (fs (touch_db (db_path m) w)) query));
    reflexivity.
Qed.

Lemma execute_query_ok query m w df s :
  execute_query query (m, w) = (Ok df, s) ->
  s = (m, add_log INFO (MsgQueryDone (len df)) (after_query m w query)) /\
  answer m w query = Ok df.
Proof.
  rewrite execute_query_eq. cbv zeta.
  destruct (engine_unreachable (faults w)); [discriminate|].
  destruct (fs w !! db_path m) as [[sh | t]|]; [discriminate|..];
    destruct (answer m w query) as [df0 | e]; try discriminate;
    intros [= <- <-]; split; reflexivity.
Qed.

(** A query that the engine answers makes [execute_query] return. *)
Lemma execute_query_returns query m w df :
  engine_unreachable (faults w) = false ->
  (forall sheets, fs w !! db_path m <> Some (ExcelFile sheets)) ->
  answer m w query = Ok df ->
  execute_query query (m, w) =
  (Ok df, (m, add_log INFO (MsgQueryDone (len df)) (after_query m w query))).
Proof.
  intros Hreach Hdb Q. rewrite execute_query_eq. cbv zeta.
  rewrite Hreach, Q.
  destruct (fs w !! db_path m) as [[sheets | t]|] eqn:E; [|reflexivity..].
  exfalso. exact (Hdb sheets eq_refl).
Qed.

Lemma update_sheet_from_query_ok sheet_name query m w m' w' :
  update_sheet_from_query sheet_name query (m, w) = (Ok tt, (m', w')) ->
  exists df,
    execute_query query (m, w) =
      (Ok df, (m, add_log INFO (MsgQueryDone (len df)) (after_query m w query))) /\
    answer m w query = Ok df /\
    m' = set_modified_data (dict_set sheet_name df (modified_data m)) m /\
    w' = add_log INFO (MsgSheetUpdated sheet_name (len df))
           (add_log INFO (MsgQueryDone (len df)) (after_query m w query)).
Proof.
  unfold update_sheet_from_query. unfold try_except at 1. unfold bind at 1.
  destruct (execute_query query (m, w)) as [[df | e] s0] eqn:E.
  - pose proof (execute_query_ok _ _ _ _ _ E) as [-> Q]. run_M.
    intros [= <- <-]. exists df. repeat split; [exact Q].
  - run_M. discriminate.
Qed.

(** ** Replacing a dataset *)


(** When the query fails, [update_sheet_from_query] raises and no
    dictionary is touched. *)
Lemma update_sheet_from_query_raises sheet_name query m w e s :
  update_sheet_from_query sheet_name query (m, w) = (Raise e, s) ->
  fst s = m.
Proof.
  unfold update_sheet_from_query. unfold try_except at 1. unfold bind at 1.
  rewrite execute_query_eq. cbv zeta.
  destruct (engine_unreachable (faults w)); [run_M; intros [= <- <-]; reflexivity|].
  destruct (fs w !! db_path m) as [[sh | t]|];
    [run_M; intros [= <- <-]; reflexivity|..];
    destruct (answer m w query); run_M; try discriminate;
    intros [= <- <-]; reflexivity.
Qed.

(** ** Persisting and loading *)

Lemma dict_get_read_workbook f k d :
  dict_get k (read_workbook f d) = option_map (read_cells f) (dict_get k d).
Proof.
  induction d as [|[k' v] d IH]; cbn; [reflexivity|].
  destruct (decide (k = k')); [reflexivity | exact IH].
Qed.

Lemma dict_keys_read_workbook f d :
  dict_keys (read_workbook f d) = dict_keys d.
Proof.
  unfold dict_keys, read_workbook. rewrite List.map_map. reflexivity.
Qed.

Lemma save_excel_ok output_path m w m' w' :
  save_excel output_path (m, w) = (Ok tt, (m', w')) ->
  m' = m /\
  w' = add_log INFO (MsgExcelSaved (save_path_of output_path m))
         (set_fs (<[save_path_of output_path m := ExcelFile (modified_data m)]> (fs w)) w).
Proof.
  unfold save_excel, write_workbook. run_M.
  destruct (write_fails (faults w) (save_path_of output_path m) (modified_data m));
    cbn [fst snd]; [discriminate|].
  intros [= <- <-]. split; reflexivity.
Qed.

Lemma load_excel_to_memory_ok m w sheets :
  workbook w (excel_file_path m) = Some sheets ->
  load_excel_to_memory (m, w) =
  (Ok (read_workbook (faults w) sheets),
   (set_loaded (read_workbook (faults w) sheets) (read_workbook (faults w) sheets) m,
    add_log INFO (MsgExcelLoaded (dict_keys (read_workbook (faults w) sheets))) w)).
Proof.
  unfold workbook, load_excel_to_memory, os_path_exists, pd_read_excel. run_M.
  destruct (fs w !! excel_file_path m) as [[sh | t]|] eqn:E; try discriminate.
  intros [= ->]. cbn. run_M. rewrite E. reflexivity.
Qed.

(** C2. Update, persist, reload, as the code has it: after
    [update_sheet_from_query(sheet_name, query)] and [save_excel(output_path)]
    have returned, a new manager opened on the saved file loads the workbook
    that the reader returns for the modified map with that one entry
    replaced: its sheet [sheet_name] is what the reader returns for the
    result of the query, whatever the sheet held before, and it is the result
    of the query itself (columns, rows and row order) when the reader gives
    the result back as it was written. *)
Theorem update_persist_reload sheet_name query output_path m w m1 w1 m2 w2 db tmp :
  update_sheet_from_query sheet_name query (m, w) = (Ok tt, (m1, w1)) ->
  save_excel output_path (m1, w1) = (Ok tt, (m2, w2)) ->
  exists df,
    fst (execute_query query (m, w)) = Ok df /\
    exists m4 w4 data,
      load_excel_to_memory (__init__ (save_path_of output_path m) db tmp w2)
        = (Ok data, (m4, w4)) /\
      data = read_workbook (faults w) (dict_set sheet_name df (modified_data m)) /\
      dict_get sheet_name data = Some (read_cells (faults w) df) /\
      (read_cells (faults w) df = df -> dict_get sheet_name data = Some df) /\
      original_excel_data m4 = data /\
      modified_data m4 = data.
Proof.
  intros Hu Hs.
  apply update_sheet_from_query_ok in Hu as (df & E & Q & -> & ->).
  apply save_excel_ok in Hs as [-> ->].
  exists df. rewrite E. split; [reflexivity|].
  set (stored := dict_set sheet_name df (modified_data m)).
  assert (Hp : forall self,
    save_path_of output_path
      (set_modified_data stored self) = save_path_of output_path self).
  { intros self. destruct output_path as [[|c p]|]; reflexivity. }
  unfold __init__. rewrite Hp.
  set (path := save_path_of output_path m).
  assert (Hg : dict_get sheet_name (read_workbook (faults w) stored)
               = Some (read_cells (faults w) df)).
  { rewrite dict_get_read_workbook. unfold stored.
    rewrite dict_get_set_eq. reflexivity. }
  match goal with
  | |- exists m4 w4 data, load_excel_to_memory (?m0, ?w0) = _ /\ _ =>
      assert (Hf : faults w0 = faults w)
        by (destruct db; exact (faults_after_query m w query));
      assert (Hl : workbook w0 (excel_file_path m0) = Some stored)
        by (unfold workbook; destruct db as [p|]; cbn;
            rewrite lookup_insert_eq; reflexivity);
      apply load_excel_to_memory_ok in Hl; rewrite Hf in Hl
  end.
  eexists _, _, _. split; [exact Hl|].
  split; [reflexivity|]. split; [exact Hg|].
  split; [intros <-; exact Hg|].
  split; reflexivity.
Qed.

(** ** Materializing sheets as tables *)

Lemma materialize_filter orig names T :
  materialize orig T names =
  materialize orig T (List.filter (fun n => dict_mem n orig) names).
Proof.
  unfold materialize, dict_mem. revert T.
  induction names as [|n names IH]; intros T; cbn; [reflexivity|].
  destruct (dict_get n orig) eqn:E; cbn; [rewrite E|]; apply IH.
Qed.

Lemma materialize_lookup_other orig names T table :
  (forall n, In n names -> is_Some (dict_get n orig) -> clean n <> table) ->
  materialize orig T names !! table = T !! table.
Proof.
  unfold materialize. revert T.
  induction names as [|n names IH]; intros T H; cbn; [reflexivity|].
  rewrite IH by (intros n' Hn'; apply H; right; exact Hn').
  destruct (dict_get n orig) eqn:E; [|reflexivity].
  apply lookup_insert_ne. apply H; [left; reflexivity | eauto].
Qed.

Lemma materialize_snoc orig names a T :
  materialize orig T (names ++ [a]) =
  match dict_get a orig with
  | Some df => <[clean a := df]> (materialize orig T names)
  | None => materialize orig T names
  end.
Proof. unfold materialize. rewrite fold_left_app. reflexivity. Qed.

(** The table of a requested sheet exists afterwards, and holds the sheet
    that was written last under this table name. *)
Lemma materialize_lookup_present orig names T n :
  In n names -> is_Some (dict_get n orig) ->
  exists n' df, In n' names /\ clean n' = clean n /\
                dict_get n' orig = Some df /\
                materialize orig T names !! clean n = Some df.
Proof.
  induction names as [|a names IH] using rev_ind; intros Hin Hn;
    [destruct Hin|].
  rewrite materialize_snoc.
  destruct (dict_get a orig) as [dfa|] eqn:Ea.
  - destruct (decide (clean a = clean n)) as [Ec | NEc].
    + exists a, dfa. split; [apply in_or_app; right; left; reflexivity|].
      split; [exact Ec|]. split; [exact Ea|].
      rewrite Ec. apply lookup_insert_eq.
    + apply in_app_or in Hin as [Hin | [-> | []]]; [|congruence].
      destruct (IH Hin Hn) as (n' & df & Hn' & Ec & Ed & El).
      exists n', df. split; [apply in_or_app; left; exact Hn'|].
      split; [exact Ec|]. split; [exact Ed|].
      rewrite lookup_insert_ne by exact NEc. exact El.
  - apply in_app_or in Hin as [Hin | [-> | []]].
    + destruct (IH Hin Hn) as (n' & df & Hn' & Ec & Ed & El).
      exists n', df. split; [apply in_or_app; left; exact Hn'|].
      split; [exact Ec|]. split; [exact Ed | exact El].
    + rewrite Ea in Hn. destruct Hn as [? Hn]. discriminate.
Qed.

(** An empty list of names is treated as no list: every sheet is loaded. *)
Lemma load_sheets_to_sql_empty_list s :
  load_sheets_to_sql (Some []) s = load_sheets_to_sql None s.
Proof. reflexivity. Qed.

Lemma load_sheet_missing n m w :
  dict_get n (original_excel_data m) = None ->
  load_sheet n (m, w) = (Ok tt, (m, add_log WARNING (MsgSheetNotFound n) w)).
Proof. intros E. unfold load_sheet. run_M. rewrite E. reflexivity. Qed.

Lemma load_sheet_present n df m w :
  dict_get n (original_excel_data m) = Some df ->
  db_ready w (db_path m) ->
  to_sql_fails (faults w) (clean n) df = false ->
  exists w',
    load_sheet n (m, w) = (Ok tt, (m, w')) /\
    db_tables w' (db_path m) = <[clean n := df]> (db_tables w (db_path m)) /\
    (forall p, p <> db_path m -> db_tables w' p = db_tables w p) /\
    faults w' = faults w /\
    db_ready w' (db_path m) /\
    (forall r, In r (log w) -> In r (log w')).
Proof.
  intros E [Hreach Hdb] Hsql.
  set (p := db_path m). set (w1 := touch_db p w).
  exists (add_log INFO (MsgSheetLoaded n (clean n) (len df))
            (set_fs (<[p := SqliteFile (<[clean n := df]> (db_tables w p))]> (fs w1)) w1)).
  assert (Hf1 : faults w1 = faults w) by apply faults_touch.
  assert (Hl1 : log w1 = log w).
  { unfold w1, touch_db. destruct (fs w !! p); reflexivity. }
  assert (H1 : fs w1 !! p = Some (SqliteFile (db_tables w p))).
  { unfold w1. rewrite fs_touch_db. unfold db_tables. fold p.
    destruct (fs w !! p) as [[sh | t]|] eqn:Ef; [|reflexivity..].
    exfalso. exact (Hdb sh Ef). }
  split.
  - unfold load_sheet, df_to_sql. run_M. rewrite E. cbn. rewrite Hreach.
    cbn. fold p. fold w1. rewrite H1, Hf1, Hsql. reflexivity.
  - unfold db_tables, db_ready. cbn. rewrite Hf1, Hl1.
    split; [rewrite lookup_insert_eq; reflexivity|].
    split.
    { intros p' NE. rewrite lookup_insert_ne by congruence.
      apply (db_tables_touch p w p'). }
    split; [reflexivity|].
    split.
    { split; [exact Hreach|]. intros sh. rewrite lookup_insert_eq. discriminate. }
    intros r Hr. apply in_or_app. left. exact Hr.
Qed.

(** The log has no influence on what a step of the loop does. *)
Lemma load_sheet_same_files n m w w' :
  same_files w w' ->
  exists r w1 w1',
    load_sheet n (m, w) = (r, (m, w1)) /\
    load_sheet n (m, w') = (r, (m, w1')) /\
    same_files w1 w1'.
Proof.
  intros [Hfs Hfa]. destruct w as [f F l], w' as [f' F' l'].
  cbn in Hfs, Hfa. subst f' F'.
  unfold load_sheet, df_to_sql, touch_db, same_files. run_M.
  destruct (dict_get n (original_excel_data m)) as [df|]; cbn.
  2: { eexists _, _, _. repeat split. }
  destruct (engine_unreachable F); cbn.
  1: { eexists _, _, _. repeat split. }
  destruct (f !! db_path m) as [[sh | t]|] eqn:Ef; cbn; rewrite ?Ef; cbn;
    rewrite ?lookup_insert_eq; cbn.
  1: { eexists _, _, _. repeat split. }
  all: destruct (to_sql_fails F (clean n) df); cbn;
    eexists _, _, _; repeat split.
Qed.

(** With or without the names that have no sheet, the loop has the same
    outcome and leaves the same files: a missing name is never the cause of
    an exception. *)
Lemma load_sheets_skip names : forall m w w',
  same_files w w' ->
  exists r w1 w1',
    load_sheets names (m, w) = (r, (m, w1)) /\
    load_sheets (List.filter (fun n => dict_mem n (original_excel_data m)) names)
                (m, w') = (r, (m, w1')) /\
    same_files w1 w1'.
Proof.
  induction names as [|n names IH]; intros m w w' Hs.
  - exists (Ok tt), w, w'. repeat split; apply Hs.
  - cbn [List.filter load_sheets]. unfold dict_mem at 1.
    destruct (dict_get n (original_excel_data m)) as [df|] eqn:E.
    + cbn [load_sheets]. unfold bind at 1 2.
      destruct (load_sheet_same_files n m w w' Hs) as (r & w1 & w1' & -> & -> & Hs1).
      destruct r as [[]|e].
      * apply IH, Hs1.
      * exists (Raise e), w1, w1'. repeat split; apply Hs1.
    + unfold bind at 1. rewrite (load_sheet_missing n m w E).
      apply IH. split; apply Hs.
Qed.

(** The loop of [load_sheets_to_sql]: it returns, the tables are those of
    [materialize], and every missing name has its warning in the log. *)
Lemma load_sheets_ok names : forall m w,
  db_ready w (db_path m) ->
  (forall n df, In n names -> dict_get n (original_excel_data m) = Some df ->
     to_sql_fails (faults w) (clean n) df = false) ->
  exists w',
    load_sheets names (m, w) = (Ok tt, (m, w')) /\
    db_tables w' (db_path m) =
      materialize (original_excel_data m) (db_tables w (db_path m)) names /\
    (forall p, p <> db_path m -> db_tables w' p = db_tables w p) /\
    faults w' = faults w /\
    (forall r, In r (log w) -> In r (log w')) /\
    (forall n, In n names -> dict_get n (original_excel_data m) = None ->
       In (WARNING, MsgSheetNotFound n) (log w')).
Proof.
  induction names as [|n names IH]; intros m w Hready Hsql.
  - exists w. cbn. repeat split; auto. intros n [].
  - cbn [load_sheets]. unfold bind at 1.
    destruct (dict_get n (original_excel_data m)) as [df|] eqn:E.
    + destruct (load_sheet_present n df m w E Hready)
        as (w1 & -> & T1 & O1 & F1 & R1 & L1).
      { apply Hsql; [left; reflexivity | exact E]. }
      destruct (IH m w1 R1) as (w' & -> & T & O & F & L & W).
      { intros n' df' Hn' E'. rewrite F1. apply Hsql; [right; exact Hn' | exact E']. }
      exists w'. split; [reflexivity|].
      split. { rewrite T, T1. unfold materialize. cbn. rewrite E. reflexivity. }
      split. { intros p NE. rewrite O, O1 by exact NE. reflexivity. }
      split; [congruence|].
      split. { intros r Hr. apply L, L1, Hr. }
      intros n' [<- | Hn'] E'; [congruence|]. apply W; assumption.
    + rewrite (load_sheet_missing n m w E).
      destruct (IH m (add_log WARNING (MsgSheetNotFound n) w)) as (w' & -> & T & O & F & L & W).
      { exact Hready. }
      { intros n' df' Hn' E'. apply Hsql; [right; exact Hn' | exact E']. }
      exists w'. split; [reflexivity|].
      split. { rewrite T. unfold materialize. cbn. rewrite E. reflexivity. }
      split; [exact O|]. split; [exact F|].
      split. { intros r Hr. apply L. cbn. apply in_or_app. left. exact Hr. }
      intros n' [<- | Hn'] E'.
      * apply L. cbn. apply in_or_app. right. left. reflexivity.
      * apply W; assumption.
Qed.

(** C10. Missing names are skipped: when [load_sheets_to_sql] is called with
    a list of names on a loaded manager, a name without a sheet in
    [original_excel_data] is never the cause of an exception: the call has
    the outcome of the loop over the existing names alone, and leaves the
    same files.  When the engine accepts the sheets that do exist, the call
    returns, a warning is logged for each missing name, and the tables are
    exactly those written for the names that do exist: no table is created
    for a missing name (unless an existing requested sheet has the same
    sanitized name), and every existing requested name has its table
    afterwards, holding a requested sheet with that table name. *)
Theorem load_sheets_to_sql_skips_missing names m w :
  names <> [] ->
  original_excel_data m <> [] ->
  (exists r w1 w2,
     load_sheets_to_sql (Some names) (m, w) = (r, (m, w1)) /\
     load_sheets (List.filter (fun n => dict_mem n (original_excel_data m)) names)
                 (m, w) = (r, (m, w2)) /\
     fs w1 = fs w2) /\
  (db_ready w (db_path m) ->
   (forall n df, In n names -> dict_get n (original_excel_data m) = Some df ->
      to_sql_fails (faults w) (clean n) df = false) ->
   exists w',
     load_sheets_to_sql (Some names) (m, w) = (Ok tt, (m, w')) /\
     db_tables w' (db_path m) =
       materialize (original_excel_data m) (db_tables w (db_path m))
         (List.filter (fun n => dict_mem n (original_excel_data m)) names) /\
     (forall n, In n names -> dict_get n (original_excel_data m) = None ->
        In (WARNING, MsgSheetNotFound n) (log w')) /\
     (forall n, In n names -> dict_get n (original_excel_data m) = None ->
        (forall n', In n' names -> is_Some (dict_get n' (original_excel_data m)) ->
           clean n' <> clean n) ->
        db_tables w' (db_path m) !! clean n = db_tables w (db_path m) !! clean n) /\
     (forall n, In n names -> is_Some (dict_get n (original_excel_data m)) ->
        exists n' df, In n' names /\ clean n' = clean n /\
          dict_get n' (original_excel_data m) = Some df /\
          db_tables w' (db_path m) !! clean n = Some df)).
Proof.
  intros Hnames Hloaded.
  assert (Hloop : load_sheets_to_sql (Some names) (m, w) = load_sheets names (m, w)).
  { unfold load_sheets_to_sql. run_M.
    destruct (original_excel_data m) as [|kv orig]; [congruence|].
    cbn [fst snd]. destruct names as [|n names]; [congruence | reflexivity]. }
  rewrite Hloop. split.
  - destruct (load_sheets_skip names m w w) as (r & w1 & w2 & R1 & R2 & Hs);
      [split; reflexivity|].
    exists r, w1, w2. split; [exact R1|]. split; [exact R2 | apply Hs].
  - intros Hready Hsql.
    destruct (load_sheets_ok names m w Hready Hsql) as (w' & R & T & O & F & L & W).
    exists w'. split; [exact R|].
    split; [rewrite T; apply materialize_filter|].
    split; [exact W|]. split.
    + intros n Hn E Hfree. rewrite T. apply materialize_lookup_other.
      intros n' Hn' Hp. apply Hfree; assumption.
    + intros n Hn Hp. rewrite T. apply materialize_lookup_present; assumption.
Qed.

(** ** Closing *)

(** [close], case by case. *)
Lemma close_eq m w :
  close (m, w) =
  match connection m with
  | Some ConnOpen =>
      if release_fails (faults w) then (Raise OperationalError, (m, w))
      else (Ok tt, (set_connection (Some ConnClosed) m,
                    cleanup m (add_log INFO MsgClosed w)))
  | Some ConnClosed => (Ok tt, (m, cleanup m (add_log INFO MsgClosed w)))
  | None => (Ok tt, (m, cleanup m w))
  end.
Proof.
  unfold close, connection_close, os_path_exists, os_remove, cleanup.
  run_M.
  destruct (connection m) as [[|]|]; cbn [fst snd].
  1: destruct (release_fails (faults w)); [reflexivity|]; cbn [fst snd].
  all: cbn [fs add_log faults].
  all: destruct (fs w !! db_path m) as [f|] eqn:Ef;
    [rewrite bool_decide_eq_true_2 by eauto
    |rewrite bool_decide_eq_false_2 by (intros [? [=]])].
  all: destruct (temp_db m); cbn [andb fst snd]; try reflexivity.
  all: cbn [set_connection db_path fs add_log]; rewrite ?Ef; cbn [faults add_log].
  all: destruct (remove_fails (faults w) (db_path m)); reflexivity.
Qed.

Lemma cleanup_fs m w :
  fs (cleanup m w) =
  if temp_db m && negb (remove_fails (faults w) (db_path m))
  then delete (db_path m) (fs w) else fs w.
Proof.
  unfold cleanup. destruct (temp_db m); cbn [andb]; [|reflexivity].
  destruct (decide (is_Some (fs w !! db_path m))) as [Hs | Hn].
  - rewrite bool_decide_eq_true_2 by exact Hs.
    destruct (remove_fails (faults w) (db_path m)); reflexivity.
  - rewrite bool_decide_eq_false_2 by exact Hn.
    destruct (remove_fails (faults w) (db_path m)); cbn; [reflexivity|].
    symmetry. apply delete_id. destruct (fs w !! db_path m) eqn:E; [|reflexivity].
    exfalso. apply Hn. eauto.
Qed.

Lemma cleanup_faults m w : faults (cleanup m w) = faults w.
Proof.
  unfold cleanup.
  destruct (temp_db m && bool_decide (is_Some (fs w !! db_path m)));
    [|reflexivity].
  destruct (remove_fails (faults w) (db_path m)); reflexivity.
Qed.

Lemma cleanup_cleanup_fs m m' l msg w :
  temp_db m' = temp_db m -> db_path m' = db_path m ->
  fs (cleanup m' (add_log l msg (cleanup m w))) = fs (cleanup m w).
Proof.
  intros Et Ed. rewrite cleanup_fs at 1. cbn [faults add_log fs].
  rewrite cleanup_faults, Et, Ed, cleanup_fs.
  destruct (temp_db m && negb (remove_fails (faults w) (db_path m)));
    [|reflexivity].
  apply delete_id, lookup_delete_eq.
Qed.

(** [close()] returns without raising whenever releasing the connection
    does not raise, whether or not the temporary database can be deleted: a
    failed deletion is logged as a warning and swallowed, and the file
    stays.  [close()] is idempotent: called again after it has returned, it
    returns again and changes neither the manager nor any file. *)
Theorem close_completes m w :
  (connection m = Some ConnOpen -> release_fails (faults w) = false) ->
  exists m' w',
    close (m, w) = (Ok tt, (m', w')) /\
    (temp_db m = true -> is_Some (fs w !! db_path m) ->
       if remove_fails (faults w) (db_path m)
       then fs w' = fs w /\
            In (WARNING, MsgTempDbNotRemoved (OSError (db_path m))) (log w')
       else fs w' = delete (db_path m) (fs w)) /\
    exists w'',
      close (m', w') = (Ok tt, (m', w'')) /\ fs w'' = fs w' /\
      faults w'' = faults w'.
Proof.
  intros Hrel.
  assert (Hlog : forall w0, temp_db m = true -> is_Some (fs w0 !! db_path m) ->
            remove_fails (faults w0) (db_path m) = true ->
            In (WARNING, MsgTempDbNotRemoved (OSError (db_path m)))
               (log (cleanup m w0))).
  { intros w0 Et Hs Er. unfold cleanup.
    rewrite Et, bool_decide_eq_true_2, Er by exact Hs. cbn.
    apply in_or_app. right. left. reflexivity. }
  assert (Hfirst : forall w0, fs w0 = fs w -> faults w0 = faults w ->
            temp_db m = true -> is_Some (fs w !! db_path m) ->
            if remove_fails (faults w) (db_path m)
            then fs (cleanup m w0) = fs w /\
                 In (WARNING, MsgTempDbNotRemoved (OSError (db_path m)))
                    (log (cleanup m w0))
            else fs (cleanup m w0) = delete (db_path m) (fs w)).
  { intros w0 Ef Efa Et Hs. rewrite cleanup_fs, Efa, Ef, Et.
    destruct (remove_fails (faults w) (db_path m)) eqn:Er; cbn.
    - split; [reflexivity|]. apply Hlog; [exact Et | rewrite Ef; exact Hs |].
      rewrite Efa. exact Er.
    - reflexivity. }
  rewrite close_eq.
  destruct (connection m) as [[|]|] eqn:Ec.
  - rewrite (Hrel eq_refl).
    eexists _, _. split; [reflexivity|]. split; [apply Hfirst; reflexivity|].
    rewrite close_eq. cbn [connection set_connection].
    eexists. split; [reflexivity|].
    split; [apply cleanup_cleanup_fs; reflexivity|].
    rewrite cleanup_faults. reflexivity.
  - eexists _, _. split; [reflexivity|]. split; [apply Hfirst; reflexivity|].
    rewrite close_eq, Ec.
    eexists. split; [reflexivity|].
    split; [apply cleanup_cleanup_fs; reflexivity|].
    rewrite cleanup_faults. reflexivity.
  - eexists _, _. split; [reflexivity|]. split; [apply Hfirst; reflexivity|].
    rewrite close_eq, Ec.
    eexists. split; [reflexivity|]. split; [|apply cleanup_faults].
    rewrite cleanup_fs at 1. rewrite cleanup_faults, cleanup_fs.
    destruct (temp_db m && negb (remove_fails (faults w) (db_path m)));
      [|reflexivity].
    apply delete_id, lookup_delete_eq.
Qed.

End Engine.

(** ** A run on a small workbook *)

Fixpoint strip_prefix (pre s : pystr) : option pystr :=
  match pre, s with
  | [], _ => Some s
  | a :: pre', b :: s' => if decide (a = b) then strip_prefix pre' s' else None
  | _ :: _, [] => None
  end.

Definition strip_suffix (suf s : pystr) : option pystr :=
  option_map (@List.rev N) (strip_prefix (List.rev suf) (List.rev s)).

(** A toy engine for the runs below.  It knows three statements:
    [SELECT * FROM t] returns the table [t]; [DELETE FROM t RETURNING *]
    returns the rows of [t] and leaves [t] empty; [DROP TABLE t] drops [t]
    and, having no row to return, ends in [ResourceClosedError].  Any other
    text, and an unknown table, is an [OperationalError]. *)
Definition toy_engine (db : pystr) (f : gmap pystr file) (query : pystr)
    : result DataFrame * gmap pystr file :=
  match f !! db with
  | Some (SqliteFile t) =>
      match strip_prefix (py "SELECT * FROM ") query,
            strip_prefix (py "DROP TABLE ") query,
            strip_prefix (py "DELETE FROM ") query with
      | Some name, _, _ =>
          match t !! name with
          | Some df => (Ok df, f)
          | None => (Raise OperationalError, f)
          end
      | None, Some name, _ =>
          match t !! name with
          | Some _ =>
              (Raise ResourceClosedError, <[db := SqliteFile (delete name t)]> f)
          | None => (Raise OperationalError, f)
          end
      | None, None, Some rest =>
          match strip_suffix (py " RETURNING *") rest with
          | Some name =>
              match t !! name with
              | Some df =>
                  (Ok df,
                   <[db := SqliteFile
                             (<[name := {| columns := columns df; rows := [] |}]> t)]> f)
              | None => (Raise OperationalError, f)
              end
          | None => (Raise OperationalError, f)
          end
      | None, None, None => (Raise OperationalError, f)
      end
  | _ => (Raise DatabaseError, f)
  end.

(** A reader that gives the empty text back as a missing value, as pandas
    does (the empty string is one of its default [na_values]), and the other
    cells as they are. *)
Definition read_na (df : DataFrame) : DataFrame :=
  {| columns := columns df;
     rows := List.map (List.map (fun c => match c with
                                          | Text [] => NULL
                                          | _ => c
                                          end)) (rows df) |}.

Definition sales_df : DataFrame :=
  {| columns := [py "Produit"; py "Montant"];
     rows := [[Text (py "A"); Int 100]; [Text (py "B"); Int 300];
              [Text (py "C"); Int 600]] |}.

Definition top_df : DataFrame :=
  {| columns := [py "Produit"; py "Montant"];
     rows := [[Text (py "C"); Int 600]] |}.

Definition notes_df : DataFrame :=
  {| columns := [py "Note"]; rows := [[Text (py "ok")]; [NULL]] |}.

(** A table with an empty text. *)
Definition clients_df : DataFrame :=
  {| columns := [py "Nom"; py "Ville"];
     rows := [[Text (py "Ana"); Text []]; [Text (py "Bo"); Text (py "Lyon")]] |}.

Definition demo_workbook : dict DataFrame :=
  [(py "Sales", sales_df); (py "Notes", notes_df)].

Definition no_faults : Faults :=
  {| engine_unreachable := false; release_fails := false;
     remove_fails := fun _ => false; write_fails := fun _ _ => false;
     to_sql_fails := fun _ _ => false; read_cells := read_na |}.

(** The temporary database cannot be deleted. *)
Definition locked_db : Faults :=
  {| engine_unreachable := false; release_fails := false;
     remove_fails := fun _ => true; write_fails := fun _ _ => false;
     to_sql_fails := fun _ _ => false; read_cells := read_na |}.

(** Releasing the connection fails. *)
Definition broken_release : Faults :=
  {| engine_unreachable := false; release_fails := true;
     remove_fails := fun _ => false; write_fails := fun _ _ => false;
     to_sql_fails := fun _ _ => false; read_cells := read_na |}.

Definition demo_fs : gmap pystr file :=
  <[py "book.xlsx" := ExcelFile demo_workbook]>
    (<[py "tmp.db" := SqliteFile (<[py "Sales" := sales_df]>
                                    (<[py "Top" := top_df]>
                                       (<[py "Clients" := clients_df]> ∅)))]> ∅).

Definition demo_world (f : Faults) : World :=
  {| fs := demo_fs; faults := f; log := [] |}.

(** A manager that has connected and loaded [book.xlsx]. *)
Definition demo_manager : Manager :=
  {| excel_file_path := py "book.xlsx";
     original_excel_data := demo_workbook;
     modified_data := demo_workbook;
     temp_db := true; db_path := py "tmp.db";
     connection := Some ConnOpen |}.

Definition demo_state : State := (demo_manager, demo_world no_faults).

(** The query of the run: [SELECT * FROM Top]. *)
Definition demo_query : pystr := QueryBuilder.select_all (py "Top").

Definition demo_updated : State :=
  snd (update_sheet_from_query toy_engine (py "Sales") demo_query demo_state).

Definition demo_saved : State := snd (save_excel None demo_updated).



Lemma update_persist_reload_witness :
  save_excel None demo_updated = (Ok tt, demo_saved) /\
  exists m4 w4 data,
    load_excel_to_memory (__init__ (py "book.xlsx") None (py "tmp2.db") (snd demo_saved))
      = (Ok data, (m4, w4)) /\
    dict_get (py "Sales") data = Some top_df /\
    original_excel_data m4 = data.
Proof.
  assert (Hu : update_sheet_from_query toy_engine (py "Sales") demo_query
                 (demo_manager, demo_world no_faults)
               = (Ok tt, (fst demo_updated, snd demo_updated)))
    by (vm_compute; reflexivity).
  assert (Hs : save_excel None (fst demo_updated, snd demo_updated)
               = (Ok tt, (fst demo_saved, snd demo_saved)))
    by (vm_compute; reflexivity).
  destruct (update_persist_reload toy_engine _ _ _ _ _ _ _ _ _ None
              (py "tmp2.db") Hu Hs)
    as (df & E & m4 & w4 & data & L & D & G & Gid & Or & Mo).
  assert (df = top_df) as ->
    by (vm_compute in E; injection E as E; rewrite <- E; reflexivity).
  split; [vm_compute; reflexivity|].
  exists m4, w4, data. split; [exact L|].
  split; [apply Gid; vm_compute; reflexivity | exact Or].
Defined.

(** The counterexample of C2: the result of [SELECT * FROM Clients] has an
    empty text.  It is written to the sheet [Sales] and saved; the workbook
    that a new manager loads has a missing value in its place, so that the
    sheet is not the result of the query. *)
Lemma reload_reads_empty_text_as_missing :
  exists m1 w1 m2 w2 m4 w4 data,
    update_sheet_from_query toy_engine (py "Sales") (py "SELECT * FROM Clients")
      demo_state = (Ok tt, (m1, w1)) /\
    fst (execute_query toy_engine (py "SELECT * FROM Clients") demo_state)
      = Ok clients_df /\
    save_excel None (m1, w1) = (Ok tt, (m2, w2)) /\
    load_excel_to_memory (__init__ (py "book.xlsx") None (py "tmp2.db") w2)
      = (Ok data, (m4, w4)) /\
    dict_get (py "Sales") data
      = Some {| columns := [py "Nom"; py "Ville"];
                rows := [[Text (py "Ana"); NULL];
                         [Text (py "Bo"); Text (py "Lyon")]] |} /\
    dict_get (py "Sales") data <> Some clients_df.
Proof.
  eexists _, _, _, _, _, _, _.
  split; [vm_compute; reflexivity|].
  split; [vm_compute; reflexivity|].
  split; [vm_compute; reflexivity|].
  split; [vm_compute; reflexivity|].
  split; [vm_compute; reflexivity|].
  vm_compute. discriminate.
Qed.

Lemma load_sheets_to_sql_skips_missing_witness :
  exists w',
    load_sheets_to_sql (fun _ => false) (fun _ => false)
      (Some [py "Notes"; py "Ghost"]) demo_state = (Ok tt, (demo_manager, w')) /\
    In (WARNING, MsgSheetNotFound (py "Ghost")) (log w') /\
    db_tables w' (py "tmp.db") !! py "Ghost" = None /\
    exists n' df, In n' [py "Notes"; py "Ghost"] /\
      dict_get n' demo_workbook = Some df /\
      db_tables w' (py "tmp.db") !! py "Notes" = Some df.
Proof.
  destruct (load_sheets_to_sql_skips_missing (fun _ => false) (fun _ => false)
              [py "Notes"; py "Ghost"] demo_manager (demo_world no_faults))
    as (_ & Hok).
  - discriminate.
  - discriminate.
  - destruct Hok as (w' & R & T & W & F & P).
    + split; [reflexivity|]. intros sheets. vm_compute. discriminate.
    + intros n df _ _. reflexivity.
    + exists w'. split; [exact R|].
      split; [apply W; [right; left; reflexivity | reflexivity]|].
      split.
      * assert (F' := F (py "Ghost")).
        vm_compute in F'. vm_compute. apply F'.
        -- right; left; reflexivity.
        -- reflexivity.
        -- intros n' [<- | [<- | []]] Hs; [discriminate|].
           destruct Hs as [? Hs]. discriminate.
      * destruct (P (py "Notes")) as (n' & df & Hin & _ & Hd & Hl).
        -- left; reflexivity.
        -- eexists. vm_compute. reflexivity.
        -- exists n', df. split; [exact Hin|]. split; [exact Hd | exact Hl].
Defined.

Lemma close_completes_witness :
  exists m' w',
    close (demo_manager, demo_world locked_db) = (Ok tt, (m', w')) /\
    fs w' = demo_fs /\
    In (WARNING, MsgTempDbNotRemoved (OSError (py "tmp.db"))) (log w') /\
    exists w'', close (m', w') = (Ok tt, (m', w'')) /\ fs w'' = fs w'.
Proof.
  destruct (close_completes demo_manager (demo_world locked_db))
    as (m' & w' & R & D & w'' & R2 & F2 & _).
  - intros _. reflexivity.
  - exists m', w'. split; [exact R|].
    destruct D as [D1 D2]; [reflexivity | eexists; vm_compute; reflexivity |].
    split; [exact D1|]. split; [exact D2|].
    exists w''. split; [exact R2 | exact F2].
Defined.

(** C8. Close completes unconditionally: not when the release of the
    connection fails.  [self.connection.close()] is called outside the
    [try] that guards [os.remove]: on a manager whose connection is open
    and whose release raises, [close()] raises too, logs nothing and does
    not look at the temporary database. *)
Lemma close_raises_when_release_fails :
  close (demo_manager, demo_world broken_release)
  = (Raise OperationalError, (demo_manager, demo_world broken_release)).
Proof. rewrite close_eq. reflexivity. Qed.

End Bridge.

(* ===================================================================== *)
(** * [generate_data_quality_report] *)
(* ===================================================================== *)

Module Quality.

(** ** The three queries of the report, with their SQLite meaning *)

(** [c IS NOT NULL] *)
Definition is_not_null (c : cell) : bool :=
  match c with NULL => false | _ => true end.

(** [c != ''], unknown on NULL; a number is never equal to a text. *)
Definition ne_empty (c : cell) : option bool :=
  match c with
  | NULL => None
  | Int _ => Some true
  | Text s => Some (negb (bool_decide (s = [])))
  end.

(** Three-valued [AND]. *)
Definition sql_and (a b : option bool) : option bool :=
  match a, b with
  | Some false, _ | _, Some false => Some false
  | Some true, Some true => Some true
  | _, _ => None
  end.

(** A row passes [WHERE] when the condition is true (not false, not
    unknown). *)
Definition where_true (cond : option bool) : bool :=
  match cond with Some true => true | _ => false end.

(** [COUNT(col)] over the selected rows: the cells that are not NULL. *)
Definition sql_count (cells : list cell) : Z :=
  Z.of_nat (length (List.filter is_not_null cells)).

(** [COUNT(DISTINCT col)]: the distinct values that are not NULL. *)
Definition sql_count_distinct (cells : list cell) : Z :=
  Z.of_nat (length (List.nodup cell_eq_dec (List.filter is_not_null cells))).

(** Position of a column. *)
Fixpoint col_index (cols : list pystr) (col : pystr) : option nat :=
  match cols with
  | [] => None
  | c :: cols' =>
      if decide (c = col) then Some 0%nat
      else option_map S (col_index cols' col)
  end.

(** The cells of one column, row by row. *)
Definition column_cells (df : DataFrame) (col : pystr) : list cell :=
  match col_index (columns df) col with
  | Some i => List.map (fun row => nth i row NULL) (rows df)
  | None => []
  end.

(** [SELECT COUNT( * ) as row_count FROM t] *)
Definition row_count (df : DataFrame) : Z := Z.of_nat (length (rows df)).

(** [WHERE col IS NOT NULL AND col != ''] on the cell of the row. *)
Definition where_filled (c : cell) : bool :=
  where_true (sql_and (Some (is_not_null c)) (ne_empty c)).

(** [SELECT COUNT(col) FROM t WHERE col IS NOT NULL AND col != ''] *)
Definition non_null_query (df : DataFrame) (col : pystr) : Z :=
  sql_count (List.filter where_filled (column_cells df col)).

(** [SELECT COUNT(DISTINCT col) FROM t] *)
Definition unique_query (df : DataFrame) (col : pystr) : Z :=
  sql_count_distinct (column_cells df col).

(** ** Floating point *)

(** The two counts are [numpy.int64] values, and [/] between them is the
    division of [numpy.float64]: each count is converted to the nearest
    double, and the operations are those of IEEE 754 binary64. *)
Definition float_of_count (z : Z) : float :=
  PrimFloat.of_uint63 (Uint63.of_Z z).

(** The nearest integer, a tie going to the even one, of a double between 0
    and [2^51]: adding and subtracting [2^52] rounds it in the last place of
    the sum, which is the unit. *)
Definition rint (x : float) : float :=
  PrimFloat.sub (PrimFloat.add x 4503599627370496%float) 4503599627370496%float.

(** [round(x, 2)] on a [numpy.float64]: the value is scaled by 100, rounded
    to the nearest integer and scaled back. *)
Definition round2 (x : float) : float :=
  PrimFloat.div (rint (PrimFloat.mul x 100%float)) 100%float.

(** [non_null_count / row_count * 100] *)
Definition percentage (non_null_count row_count : Z) : float :=
  PrimFloat.mul
    (PrimFloat.div (float_of_count non_null_count) (float_of_count row_count))
    100%float.

(** ** The report *)

(** A Python number: an [int] or a [float]. *)
Inductive pynum :=
| PyInt (z : Z)
| PyFloat (x : float).

Record column_stats := mkStats {
  non_null_count : Z;
  null_count : Z;
  unique_count : Z;
  completeness : pynum
}.

(** The entry of one column, from the two counts that the queries return:
<<
    columns_stats[col_name] = {
        'non_null_count': non_null_count,
        'null_count': table_info['row_count'] - non_null_count,
        'unique_count': unique_count,
        'completeness': round(non_null_count / table_info['row_count'] * 100, 2)
                        if table_info['row_count'] > 0 else 0
    }
>>
    (the declared type of the column, copied from [PRAGMA table_info], is
    left out). *)
Definition stats_of (row_count non_null_count unique_count : Z) : column_stats :=
  {| non_null_count := non_null_count;
     null_count := row_count - non_null_count;
     unique_count := unique_count;
     completeness :=
       if (row_count >? 0)%Z
       then PyFloat (round2 (percentage non_null_count row_count))
       else PyInt 0 |}.

(** The entry of a column whose header names it in the two queries. *)
Definition column_report (df : DataFrame) (col_name : pystr) : column_stats :=
  stats_of (row_count df) (non_null_query df col_name) (unique_query df col_name).

Record report := mkReport {
  table_info_columns : list pystr;
  table_info_row_count : Z;
  columns_stats : dict column_stats
}.

(** ** Names in the text of a statement *)

(** The report pastes the name of the table and the header of each column
    into the text of its queries.  The text stands for the table or the
    column when it is a bare identifier (a letter, an underscore or a
    character beyond ASCII, then letters, digits, underscores, dollar signs
    and characters beyond ASCII) and is not a word that the engine
    reserves. *)
Definition ascii_letter (c : N) : bool :=
  ((65 <=? c) && (c <=? 90) || (97 <=? c) && (c <=? 122))%N.

Definition ascii_digit (c : N) : bool := ((48 <=? c) && (c <=? 57))%N.

Definition identifier_start (c : N) : bool :=
  (ascii_letter c || (c =? 95) || (128 <=? c))%N.

Definition identifier_char (c : N) : bool :=
  (identifier_start c || ascii_digit c || (c =? 36))%N.

Definition is_identifier (name : pystr) : bool :=
  match name with
  | [] => false
  | c :: name' => identifier_start c && forallb identifier_char name'
  end.

Section Report.

(** The words that the engine reserves: a header such as [order] or
    [select] is one. *)
Variable reserved : pystr -> bool.

(** What the two queries of a column return when the header does not name
    the column in them: the two counts (those of another expression: the
    header [2024] is a number in the text), or nothing when one of the
    queries raises (the header [Prix Unitaire] is a syntax error). *)
Variable other_counts : DataFrame -> pystr -> option (Z * Z).

(** What the report is when the name of the table does not stand for a
    table of the database under this very name: nothing when
    [get_table_info] raises. *)
Variable other_table : gmap pystr DataFrame -> pystr -> option report.

Definition names_it (name : pystr) : bool :=
  is_identifier name && negb (reserved name).

(** The entry of one column; nothing when one of its queries raises. *)
Definition column_entry (df : DataFrame) (col_name : pystr) : option column_stats :=
  if names_it col_name then Some (column_report df col_name)
  else
    match other_counts df col_name with
    | Some (non_null_count, unique_count) =>
        Some (stats_of (row_count df) non_null_count unique_count)
    | None => None
    end.

(** [for col_info in table_info['columns']: ... columns_stats[col_name] = ...] *)
Fixpoint column_entries (df : DataFrame) (cols : list pystr)
    (columns_stats : dict column_stats) : option (dict column_stats) :=
  match cols with
  | [] => Some columns_stats
  | col_name :: cols' =>
      match column_entry df col_name with
      | Some st => column_entries df cols' (dict_set col_name st columns_stats)
      | None => None
      end
  end.

(** [generate_data_quality_report(manager, table_name)] on the tables of the
    manager's database; nothing when it raises. *)
Definition generate_data_quality_report (tables : gmap pystr DataFrame)
    (table_name : pystr) : option report :=
  if names_it table_name then
    match tables !! table_name with
    | Some df =>
        match column_entries df (columns df) [] with
        | Some stats =>
            Some {| table_info_columns := columns df;
                    table_info_row_count := row_count df;
                    columns_stats := stats |}
        | None => None
        end
    | None => other_table tables table_name
    end
  else other_table tables table_name.

End Report.

(** ** Two ways of counting the values of a column *)

(** The values of the column that are not NULL. *)
Definition count_non_null (df : DataFrame) (col : pystr) : Z :=
  Z.of_nat (length (List.filter is_not_null (column_cells df col))).

(** The cells of the column that are NULL, and those that are the empty
    text. *)
Definition count_null (df : DataFrame) (col : pystr) : Z :=
  Z.of_nat (count_occ cell_eq_dec (column_cells df col) NULL).

Definition count_empty_text (df : DataFrame) (col : pystr) : Z :=
  Z.of_nat (count_occ cell_eq_dec (column_cells df col) (Text [])).

(** The values of the column that are neither NULL nor the empty text. *)
Definition count_filled (df : DataFrame) (col : pystr) : Z :=
  (row_count df - count_null df col - count_empty_text df col)%Z.

(** C4 as the specification states it, for one column of one table: the
    null count follows the count of non-null values, and so does the
    completeness. *)
Definition completeness_of_non_null (df : DataFrame) (col : pystr)
    (st : column_stats) : Prop :=
  completeness st =
    (if (row_count df =? 0)%Z then PyInt 0
     else PyFloat (round2 (percentage (count_non_null df col) (row_count df)))) /\
  null_count st = (row_count df - count_non_null df col)%Z.

(** ** Counting *)

Lemma col_index_In cols col : In col cols -> is_Some (col_index cols col).
Proof.
  induction cols as [|c cols IH]; intros Hin; [destruct Hin|]. cbn.
  destruct (decide (c = col)) as [E | NE]; [eauto|].
  destruct Hin as [E | Hin]; [contradiction|].
  destruct (IH Hin) as [i ->]. cbn. eauto.
Qed.

Lemma length_column_cells df col :
  In col (columns df) ->
  Z.of_nat (length (column_cells df col)) = row_count df.
Proof.
  intros Hin. unfold column_cells, row_count.
  destruct (col_index_In _ _ Hin) as [i ->]. rewrite length_map. reflexivity.
Qed.

(** The cells that pass the filter of the first query and are counted by
    [COUNT] are those that are neither NULL nor the empty text. *)
Lemma where_filled_cases (c : cell) :
  c = NULL /\ where_filled c = false \/
  c = Text [] /\ where_filled c = false \/
  c <> NULL /\ c <> Text [] /\ where_filled c = true /\ is_not_null c = true.
Proof.
  destruct c as [|z|[|a s]].
  - left. split; reflexivity.
  - right. right. repeat split; discriminate.
  - right. left. split; reflexivity.
  - right. right. repeat split; discriminate.
Qed.

Lemma filled_cells_count (cells : list cell) :
  (length (List.filter is_not_null (List.filter where_filled cells))
   + count_occ cell_eq_dec cells NULL
   + count_occ cell_eq_dec cells (Text []))%nat
  = length cells.
Proof.
  induction cells as [|c cells IH]; [reflexivity|].
  cbn [List.filter count_occ length].
  destruct (where_filled_cases c) as [[-> ->] | [[-> ->] | (N1 & N2 & -> & Hn)]].
  - destruct (cell_eq_dec NULL NULL); [|congruence].
    destruct (cell_eq_dec NULL (Text [])); [discriminate|]. lia.
  - destruct (cell_eq_dec (Text []) NULL); [discriminate|].
    destruct (cell_eq_dec (Text []) (Text [])); [|congruence]. lia.
  - cbn [List.filter]. rewrite Hn. cbn [length].
    destruct (cell_eq_dec c NULL); [congruence|].
    destruct (cell_eq_dec c (Text [])); [congruence|]. lia.
Qed.

Lemma non_null_query_filled df col :
  In col (columns df) -> non_null_query df col = count_filled df col.
Proof.
  intros Hin. unfold non_null_query, sql_count, count_filled, count_null,
    count_empty_text.
  rewrite <- (length_column_cells df col Hin).
  pose proof (filled_cells_count (column_cells df col)). lia.
Qed.

(** ** The entries of the report *)

Lemma dict_get_fold_set {V} (f : pystr -> V) cols col : forall d,
  In col cols ->
  dict_get col (fold_left (fun stats c => dict_set c (f c) stats) cols d)
  = Some (f col).
Proof.
  induction cols as [|c cols IH] using rev_ind; intros d Hin; [destruct Hin|].
  rewrite fold_left_app. cbn.
  destruct (decide (col = c)) as [-> | NE].
  - apply dict_get_set_eq.
  - rewrite dict_get_set_ne by exact NE. apply IH.
    apply in_app_or in Hin as [Hin | [E | []]]; [exact Hin | congruence].
Qed.

(** When every header names its column, the entries are those of
    [column_report]. *)
Lemma column_entries_named reserved other_counts df cols : forall d,
  Forall (fun c => names_it reserved c = true) cols ->
  column_entries reserved other_counts df cols d =
  Some (fold_left (fun stats c => dict_set c (column_report df c) stats) cols d).
Proof.
  induction cols as [|c cols IH]; intros d H; [reflexivity|].
  inversion H as [|? ? Hc Hcols]; subst. cbn [column_entries fold_left].
  unfold column_entry. rewrite Hc. apply IH, Hcols.
Qed.

Lemma generate_data_quality_report_named reserved other_counts other_table
    tables table_name df :
  names_it reserved table_name = true ->
  tables !! table_name = Some df ->
  Forall (fun c => names_it reserved c = true) (columns df) ->
  generate_data_quality_report reserved other_counts other_table tables table_name
  = Some {| table_info_columns := columns df;
            table_info_row_count := row_count df;
            columns_stats :=
              fold_left (fun stats c => dict_set c (column_report df c) stats)
                        (columns df) [] |}.
Proof.
  intros Hn Ht Hc. unfold generate_data_quality_report.
  rewrite Hn, Ht, (column_entries_named _ _ _ _ _ Hc). reflexivity.
Qed.


(** ** A table with an empty text *)

(** No word is reserved, and a text that names nothing raises. *)
Definition no_keyword (name : pystr) : bool := false.
Definition raises (df : DataFrame) (col_name : pystr) : option (Z * Z) := None.
Definition no_table (tables : gmap pystr DataFrame) (table_name : pystr)
    : option report := None.

Definition clients_df : DataFrame :=
  {| columns := [py "Nom"; py "Ville"];
     rows := [[Text (py "Ana"); Text []];
              [Text (py "Luc"); Text (py "Lyon")]] |}.

Definition clients_tables : gmap pystr DataFrame :=
  <[py "Clients" := clients_df]> ∅.



(** The completeness is computed in floating point, in the order of the
    code: for 23 filled cells of 160 the quotient is just below 0.14375, and
    the completeness is the double nearest to 14.37 (written in hexadecimal
    below), where the exact percentage, 14.375, rounds to 14.38. *)
Lemma completeness_23_of_160 :
  completeness (stats_of 160 23 23) = PyFloat 0x1.cbd70a3d70a3dp+3%float.
Proof. vm_compute. reflexivity. Qed.

End Quality.

(* ===================================================================== *)
(** * [ORDER BY] *)
(* ===================================================================== *)

(** Both analytics queries end with an [ORDER BY ... DESC].  The result is
    modelled by a stable insertion sort: the rows that the order does not
    tell apart stay in the order they had, where the engine is free. *)
Module OrderBy.

Section Sort.

Context {A : Type}.

(** [le a b]: the row [a] may come before the row [b]. *)
Variable le : A -> A -> bool.

Fixpoint insert_by (r : A) (l : list A) : list A :=
  match l with
  | [] => [r]
  | r' :: l' => if le r r' then r :: r' :: l' else r' :: insert_by r l'
  end.

Fixpoint order_by (l : list A) : list A :=
  match l with
  | [] => []
  | r :: l' => insert_by r (order_by l')
  end.

Definition before (a b : A) : Prop := le a b = true.

Hypothesis le_total : forall a b, le a b = false -> le b a = true.
Hypothesis le_trans : forall a b c, le a b = true -> le b c = true -> le a c = true.

Lemma insert_by_perm r l : Permutation (r :: l) (insert_by r l).
Proof.
  induction l as [|r' l IH]; cbn; [reflexivity|].
  destruct (le r r'); [reflexivity|].
  rewrite perm_swap. apply perm_skip, IH.
Qed.

Lemma order_by_perm l : Permutation l (order_by l).
Proof.
  induction l as [|r l IH]; cbn; [reflexivity|].
  rewrite <- insert_by_perm. apply perm_skip, IH.
Qed.

Lemma insert_by_sorted r l :
  StronglySorted before l -> StronglySorted before (insert_by r l).
Proof using le_total le_trans.
  induction 1 as [|r' l Hs IH Hall]; cbn.
  - constructor; constructor.
  - destruct (le r r') eqn:E.
    + constructor; [constructor; assumption|].
      constructor; [exact E|].
      eapply List.Forall_impl; [|exact Hall].
      intros b Hb. unfold before in *. eapply le_trans; eassumption.
    + constructor; [exact IH|].
      apply (Permutation_Forall (insert_by_perm r l)).
      constructor; [apply le_total, E | exact Hall].
Qed.

Lemma order_by_sorted l : StronglySorted before (order_by l).
Proof using le_total le_trans.
  induction l as [|r l IH]; cbn; [constructor|].
  apply insert_by_sorted, IH.
Qed.

(** In a sorted list, the rows that satisfy a property which goes up the
    order come first, the others after. *)
Lemma sorted_filter_prefix (P : A -> bool) (l : list A) :
  StronglySorted before l ->
  (forall a b, In a l -> In b l -> before a b -> P b = true -> P a = true) ->
  l = List.filter P l ++ List.filter (fun r => negb (P r)) l.
Proof.
  induction 1 as [|r l Hs IH Hall]; intros Hup; [reflexivity|].
  assert (IH' := IH (fun a b Ha Hb => Hup a b (or_intror Ha) (or_intror Hb))).
  cbn. destruct (P r) eqn:E; cbn.
  - f_equal. exact IH'.
  - assert (Hnone : List.filter P l = []).
    { destruct (List.filter P l) as [|b bs] eqn:Ef; [reflexivity|].
      assert (Hb : In b (List.filter P l)) by (rewrite Ef; left; reflexivity).
      apply filter_In in Hb as [Hb Pb].
      rewrite (Hup r b (or_introl eq_refl) (or_intror Hb)) in E;
        [discriminate | | exact Pb].
      exact (proj1 (List.Forall_forall _ _) Hall b Hb). }
    rewrite Hnone. cbn. f_equal.
    rewrite IH' at 1. rewrite Hnone. reflexivity.
Qed.

End Sort.

End OrderBy.

(* ===================================================================== *)
(** * [DataAnalysisQueries.pareto_analysis] *)
(* ===================================================================== *)

Module Pareto.

(** The query is read on the two columns it names: a row of the table is
    its category (any cell) and its value, which may be anything SQLite
    stores.  The meaning of the query is written out where its arithmetic is
    exact: on a table whose values are integers or NULL and small enough for
    no sum to leave the 64 bits of an SQLite integer.  Everywhere else (a
    value with decimals or a text, a sum that overflows, which makes the
    query raise) the answer is that of the engine.  The percentage is a
    double that the engine computes and rounds: it is a parameter. *)
Inductive value :=
| VNull
| VInt (z : Z)
| VReal (x : float)
| VText (s : pystr).

Definition row : Type := cell * value.

(** The table when each of its values is an integer or NULL. *)
Fixpoint integers (t : list row) : option (list (cell * option Z)) :=
  match t with
  | [] => Some []
  | (c, VNull) :: t' => option_map (cons (c, None)) (integers t')
  | (c, VInt z) :: t' => option_map (cons (c, Some z)) (integers t')
  | (c, _) :: t' => None
  end.

(** The sum of the absolute values: when it is below [2^63], no sum of
    values of the table, in any order, leaves the integers of SQLite. *)
Definition magnitude (t : list (cell * option Z)) : Z :=
  fold_right (fun r m => match snd r with
                         | Some z => (Z.abs z + m)%Z
                         | None => m
                         end) 0%Z t.

Definition in_range (t : list (cell * option Z)) : bool :=
  (magnitude t <? 2 ^ 63)%Z.

(** ** Aggregates *)

(** The values that are not NULL. *)
Fixpoint non_null (vs : list (option Z)) : list Z :=
  match vs with
  | [] => []
  | Some v :: vs' => v :: non_null vs'
  | None :: vs' => non_null vs'
  end.

Definition total (zs : list Z) : Z := fold_right Z.add 0%Z zs.

(** [SUM(...)] of integers that stay in range: NULL values are skipped; the
    sum of no value is NULL. *)
Definition sql_sum (vs : list (option Z)) : option Z :=
  match non_null vs with
  | [] => None
  | zs => Some (total zs)
  end.

(** [ORDER BY x DESC] on two keys: [a] may come before [b].  NULL is the
    smallest value of SQLite, hence the last one here. *)
Definition desc (a b : option Z) : bool :=
  match a, b with
  | _, None => true
  | None, Some _ => false
  | Some x, Some y => (y <=? x)%Z
  end.

(** ** [ranked_data]
<<
    SELECT category, SUM(value) as total_value,
           SUM(SUM(value)) OVER () as grand_total
    FROM t GROUP BY category
>> *)

(** The groups of [GROUP BY]: the distinct categories. *)
Definition categories (t : list (cell * option Z)) : list cell :=
  List.nodup cell_eq_dec (List.map fst t).

(** The values of one group. *)
Definition group_values (t : list (cell * option Z)) (c : cell) : list (option Z) :=
  List.map snd (List.filter (fun r => bool_decide (fst r = c)) t).

Definition ranked_data (t : list (cell * option Z)) : list (cell * option Z) :=
  List.map (fun c => (c, sql_sum (group_values t c))) (categories t).

Definition grand_total (t : list (cell * option Z)) : option Z :=
  sql_sum (List.map snd (ranked_data t)).

(** ** [cumulative_data] *)

(** [SUM(total_value) OVER (ORDER BY total_value DESC)]: the window has no
    frame clause, so its frame runs from the first row to the last peer of
    the current row: every row whose total sorts before the current total or
    is equal to it. *)
Definition frame (keys : list (option Z)) (key : option Z) : list (option Z) :=
  List.filter (fun k => desc k key) keys.

Definition running_sum (ranked : list (cell * option Z)) (key : option Z)
    : option Z :=
  sql_sum (frame (List.map snd ranked) key).

Inductive label := Top80 | Bottom20.

Section Engine.

(** The doubles of the engine. *)
Variable real : Type.

(** [ROUND(100.0 * cumulative / grand_total, 2)] for a grand total [g] that
    is not zero and a cumulative value [c]: the product and the quotient are
    computed in binary floating point, and so is the rounding. *)
Variable pct_of : Z -> Z -> real.

(** [p <= 80] *)
Variable at_most_80 : real -> bool.

(** What the engine answers on a table that is not a table of integers in
    range. *)
Variable reply : Type.
Variable elsewhere : list row -> reply.

(** [ROUND(100.0 * cumulative / grand_total, 2)]: NULL when an operand is
    NULL, and when the divisor is zero. *)
Definition percentage (cumulative grand : option Z) : option real :=
  match cumulative, grand with
  | Some c, Some g =>
      if (g =? 0)%Z then None else Some (pct_of g c)
  | _, _ => None
  end.

(** [CASE WHEN cumulative_percentage <= 80 THEN 'Top 80%' ELSE 'Bottom 20%'
    END]: a NULL percentage takes the [ELSE] branch. *)
Definition pareto_label (pct : option real) : label :=
  match pct with
  | Some p => if at_most_80 p then Top80 else Bottom20
  | None => Bottom20
  end.

(** A row of the result. *)
Record out_row := mkOut {
  category : cell;
  total_value : option Z;
  cumulative_value : option Z;
  cumulative_percentage : option real;
  pareto_category : label
}.

(** One row of [cumulative_data], with the label of the final [SELECT]. *)
Definition cumulative_row (ranked : list (cell * option Z)) (grand : option Z)
    (r : cell * option Z) : out_row :=
  let cum := running_sum ranked (snd r) in
  let pct := percentage cum grand in
  {| category := fst r; total_value := snd r; cumulative_value := cum;
     cumulative_percentage := pct; pareto_category := pareto_label pct |}.

Definition cumulative_data (t : list (cell * option Z)) : list out_row :=
  List.map (cumulative_row (ranked_data t) (grand_total t)) (ranked_data t).

(** ** The final [ORDER BY total_value DESC] *)

(** The order of two rows of the result. *)
Definition row_desc (a b : out_row) : bool :=
  desc (total_value a) (total_value b).

Definition order_by_total_desc : list out_row -> list out_row :=
  OrderBy.order_by row_desc.

(** The rows of the query on a table of integers in range. *)
Definition pareto_rows (t : list (cell * option Z)) : list out_row :=
  order_by_total_desc (cumulative_data t).

(** What the query answers: rows, or what the engine makes of the table. *)
Inductive answer :=
| Rows (out : list out_row)
| Elsewhere (a : reply).

(** The answer to the query of
    [pareto_analysis(table, category_column, value_column)] on the table
    [t]. *)
Definition pareto_analysis (t : list row) : answer :=
  match integers t with
  | Some t' => if in_range t' then Rows (pareto_rows t') else Elsewhere (elsewhere t)
  | None => Elsewhere (elsewhere t)
  end.

(** ** Percentages and prefixes *)

(** The row is labelled "Top 80%". *)
Definition is_top (r : out_row) : bool :=
  match pareto_category r with Top80 => true | Bottom20 => false end.

(** Every row of the first [j] rows has a cumulative percentage of at most
    80. *)
Definition within_80 (out : list out_row) (j : nat) : Prop :=
  forall i r, (i < j)%nat -> nth_error out i = Some r ->
    exists p, cumulative_percentage r = Some p /\ at_most_80 p = true.

(** C1 as the specification states it: the "Top 80%" rows are the smallest
    prefix (of one row at least) whose cumulative percentage is at most
    80. *)
Definition top_is_smallest_prefix (out : list out_row) : Prop :=
  let k := length (List.filter is_top out) in
  within_80 out k /\
  forall j, (0 < j <= length out)%nat -> within_80 out j -> (k <= j)%nat.

(** ** The order *)

(** [a] may come before [b] in the result. *)
Definition before : out_row -> out_row -> Prop := OrderBy.before row_desc.

Lemma desc_refl a : desc a a = true.
Proof. destruct a; cbn; [apply Z.leb_refl | reflexivity]. Qed.

Lemma desc_total a b : desc a b = false -> desc b a = true.
Proof.
  destruct a as [x|], b as [y|]; cbn; try congruence.
  intros H. apply Z.leb_gt in H. apply Z.leb_le. lia.
Qed.

Lemma desc_trans a b c : desc a b = true -> desc b c = true -> desc a c = true.
Proof.
  destruct a as [x|], b as [y|], c as [z|]; cbn; try congruence.
  intros H1 H2. apply Z.leb_le in H1, H2. apply Z.leb_le. lia.
Qed.

Lemma order_by_total_desc_perm l : Permutation l (order_by_total_desc l).
Proof. apply OrderBy.order_by_perm. Qed.

Lemma order_by_total_desc_sorted l :
  StronglySorted before (order_by_total_desc l).
Proof.
  apply OrderBy.order_by_sorted.
  - intros a b. apply desc_total.
  - intros a b c. apply desc_trans.
Qed.

Lemma sorted_rows_prefix (P : out_row -> bool) (l : list out_row) :
  StronglySorted before l ->
  (forall a b, In a l -> In b l -> before a b -> P b = true -> P a = true) ->
  l = List.filter P l ++ List.filter (fun r => negb (P r)) l.
Proof. apply OrderBy.sorted_filter_prefix. Qed.

Lemma percentage_pos (g c : Z) :
  (0 < g)%Z -> percentage (Some c) (Some g) = Some (pct_of g c).
Proof.
  intros Hg. unfold percentage.
  destruct (Z.eqb_spec g 0) as [E|_]; [lia | reflexivity].
Qed.

(** ** Sums over the window *)

Lemma sql_sum_some (vs : list (option Z)) :
  non_null vs <> [] -> sql_sum vs = Some (total (non_null vs)).
Proof. unfold sql_sum. destruct (non_null vs); [congruence | reflexivity]. Qed.

Lemma frame_null keys : frame keys None = keys.
Proof.
  unfold frame. induction keys as [|k keys IH]; cbn; [reflexivity|].
  destruct k; cbn; f_equal; exact IH.
Qed.

Lemma frame_has_key keys t :
  In (Some t) keys -> non_null (frame keys (Some t)) <> [].
Proof.
  unfold frame. induction keys as [|k keys IH]; intros Hin; [destruct Hin|].
  cbn. destruct k as [x|]; cbn.
  - destruct (Z.leb_spec t x); cbn; [discriminate|].
    destruct Hin as [[= ->] | Hin]; [lia | apply IH, Hin].
  - destruct Hin as [E | Hin]; [discriminate | apply IH, Hin].
Qed.

(** Going down the order through totals that are not negative, the running
    sum does not decrease. *)
Lemma frame_total_mono keys ta tb :
  (tb <= ta)%Z -> (0 <= tb)%Z ->
  (total (non_null (frame keys (Some ta))) <=
   total (non_null (frame keys (Some tb))))%Z.
Proof.
  intros Hab Hb. unfold frame, total.
  induction keys as [|k keys IH]; cbn; [lia|].
  destruct k as [x|]; cbn; [|exact IH].
  destruct (Z.leb_spec ta x), (Z.leb_spec tb x); cbn; lia.
Qed.

(** From a negative total on, the running sum is at least the grand
    total. *)
Lemma frame_total_negative keys tb :
  (tb < 0)%Z ->
  (total (non_null keys) <= total (non_null (frame keys (Some tb))))%Z.
Proof.
  intros Hb. unfold frame, total.
  induction keys as [|k keys IH]; cbn; [lia|].
  destruct k as [x|]; cbn; [|exact IH].
  destruct (Z.leb_spec tb x); cbn; lia.
Qed.

(** ** The label goes up the order *)

(** What is asked of the percentage that the engine computes: for a
    positive grand total, it does not decrease when the cumulative value
    grows, as far as the test against 80 can tell; and the percentage of the
    grand total itself, or of more, is above 80. *)
Definition pct_monotone : Prop :=
  forall g c1 c2, (0 < g)%Z -> (c1 <= c2)%Z ->
    at_most_80 (pct_of g c2) = true -> at_most_80 (pct_of g c1) = true.

Definition pct_whole : Prop :=
  forall g c, (0 < g)%Z -> (g <= c)%Z -> at_most_80 (pct_of g c) = false.

Lemma pareto_label_top pct :
  pareto_label pct = Top80 <-> exists p, pct = Some p /\ at_most_80 p = true.
Proof.
  unfold pareto_label. destruct pct as [p|].
  - destruct (at_most_80 p) eqn:E.
    + split; [eauto | reflexivity].
    + split; [discriminate|]. intros (p' & [= <-] & H). congruence.
  - split; [discriminate | intros (p' & [=] & _)].
Qed.

Lemma label_up keys g ka kb :
  pct_monotone -> pct_whole ->
  sql_sum keys = Some g -> (0 < g)%Z ->
  In ka keys -> In kb keys -> desc ka kb = true ->
  pareto_label (percentage (sql_sum (frame keys kb)) (Some g)) = Top80 ->
  pareto_label (percentage (sql_sum (frame keys ka)) (Some g)) = Top80.
Proof.
  intros Hmono Hwhole Hsum Hg Ha Hb Hab Htop.
  assert (Hgrand : total (non_null keys) = g).
  { unfold sql_sum in Hsum. destruct (non_null keys); congruence. }
  apply pareto_label_top in Htop as (p & Hp & Hle).
  destruct kb as [tb|].
  - destruct ka as [ta|]; [|discriminate].
    cbn in Hab. apply Z.leb_le in Hab.
    rewrite (sql_sum_some _ (frame_has_key keys tb Hb)), percentage_pos in Hp
      by exact Hg.
    injection Hp as <-.
    rewrite (sql_sum_some _ (frame_has_key keys ta Ha)), percentage_pos
      by exact Hg.
    apply pareto_label_top. eexists. split; [reflexivity|].
    destruct (Z.le_gt_cases 0 tb) as [Hpos | Hneg].
    + apply (Hmono g _ _ Hg (frame_total_mono keys ta tb Hab Hpos) Hle).
    + exfalso.
      pose proof (frame_total_negative keys tb Hneg) as Hge.
      rewrite Hgrand in Hge.
      rewrite (Hwhole g _ Hg Hge) in Hle. discriminate.
  - exfalso. rewrite frame_null, Hsum, percentage_pos in Hp by exact Hg.
    injection Hp as <-.
    rewrite (Hwhole g g Hg (Z.le_refl g)) in Hle. discriminate.
Qed.

(** ** Sums do not depend on the order of the rows *)

Lemma non_null_perm (l1 l2 : list (option Z)) :
  Permutation l1 l2 -> Permutation (non_null l1) (non_null l2).
Proof.
  induction 1 as [|x l1 l2 _ IH|x y l|l1 l2 l3 _ IH1 _ IH2].
  - reflexivity.
  - destruct x; cbn; [apply perm_skip|]; exact IH.
  - destruct x, y; cbn; try reflexivity. apply perm_swap.
  - etransitivity; eassumption.
Qed.

Lemma total_perm (l1 l2 : list Z) : Permutation l1 l2 -> total l1 = total l2.
Proof.
  unfold total.
  induction 1 as [|x l1 l2 _ IH|x y l|l1 l2 l3 _ IH1 _ IH2]; cbn; lia.
Qed.

Lemma sql_sum_perm (l1 l2 : list (option Z)) :
  Permutation l1 l2 -> sql_sum l1 = sql_sum l2.
Proof.
  intros H. apply non_null_perm in H. unfold sql_sum.
  destruct (non_null l1) as [|a l1'] eqn:E1.
  - apply Permutation_nil in H. rewrite H. reflexivity.
  - destruct (non_null l2) as [|b l2'] eqn:E2.
    + symmetry in H. apply Permutation_nil in H. discriminate.
    + f_equal. apply total_perm, H.
Qed.

Lemma filter_perm {A} (f : A -> bool) (l1 l2 : list A) :
  Permutation l1 l2 -> Permutation (List.filter f l1) (List.filter f l2).
Proof.
  induction 1 as [|x l1 l2 _ IH|x y l|l1 l2 l3 _ IH1 _ IH2].
  - reflexivity.
  - cbn. destruct (f x); [apply perm_skip|]; exact IH.
  - cbn. destruct (f x), (f y); try reflexivity. apply perm_swap.
  - etransitivity; eassumption.
Qed.

Lemma filter_map_key (key : option Z) (l : list out_row) :
  List.filter (fun k => desc k key) (List.map total_value l) =
  List.map total_value (List.filter (fun r => desc (total_value r) key) l).
Proof.
  induction l as [|r l IH]; cbn; [reflexivity|].
  destruct (desc (total_value r) key); cbn; rewrite IH; reflexivity.
Qed.

(** ** Positions in a list cut in two by a property *)

Lemma split_index {A} (P : A -> bool) (l : list A) j r :
  l = List.filter P l ++ List.filter (fun x => negb (P x)) l ->
  nth_error l j = Some r ->
  ((j < length (List.filter P l))%nat <-> P r = true).
Proof.
  intros Hl Hj. rewrite Hl in Hj. split.
  - intros Hlt. rewrite nth_error_app1 in Hj by exact Hlt.
    apply nth_error_In, filter_In in Hj. apply Hj.
  - intros HP. destruct (Nat.lt_ge_cases j (length (List.filter P l)))
      as [Hlt | Hge]; [exact Hlt|].
    rewrite nth_error_app2 in Hj by exact Hge.
    apply nth_error_In, filter_In in Hj as [_ Hn].
    rewrite HP in Hn. discriminate.
Qed.

Lemma split_firstn {A} (P : A -> bool) (l : list A) :
  l = List.filter P l ++ List.filter (fun x => negb (P x)) l ->
  firstn (length (List.filter P l)) l = List.filter P l.
Proof.
  intros Hl. rewrite Hl at 2.
  rewrite firstn_app, Nat.sub_diag, firstn_all. cbn. apply app_nil_r.
Qed.

(** ** The rows of the result *)

Lemma categories_NoDup t : List.NoDup (categories t).
Proof. apply List.NoDup_nodup. Qed.

Lemma map_category_cumulative_data t :
  List.map category (cumulative_data t) = categories t.
Proof.
  unfold cumulative_data, ranked_data. rewrite !map_map. cbn.
  apply map_id.
Qed.

Lemma map_total_value_cumulative_data t :
  List.map total_value (cumulative_data t) = List.map snd (ranked_data t).
Proof. unfold cumulative_data. rewrite map_map. reflexivity. Qed.

Lemma cumulative_data_row t r :
  In r (cumulative_data t) ->
  total_value r = sql_sum (group_values t (category r)) /\
  In (total_value r) (List.map snd (ranked_data t)) /\
  cumulative_value r =
    sql_sum (frame (List.map snd (ranked_data t)) (total_value r)) /\
  cumulative_percentage r = percentage (cumulative_value r) (grand_total t) /\
  pareto_category r = pareto_label (cumulative_percentage r).
Proof.
  unfold cumulative_data. intros Hin.
  apply in_map_iff in Hin as ([c tv] & <- & Hin).
  cbn [cumulative_row category total_value cumulative_value
       cumulative_percentage pareto_category fst snd].
  split; [|split; [apply in_map_iff; exists (c, tv); split; [reflexivity | exact Hin]
                  | repeat split]].
  unfold ranked_data in Hin. apply in_map_iff in Hin as (c' & [= <- <-] & _).
  reflexivity.
Qed.

Lemma pareto_rows_perm t : Permutation (cumulative_data t) (pareto_rows t).
Proof. apply order_by_total_desc_perm. Qed.

Lemma is_top_up t g :
  pct_monotone -> pct_whole ->
  grand_total t = Some g -> (0 < g)%Z ->
  forall a b, In a (pareto_rows t) -> In b (pareto_rows t) ->
    before a b -> is_top b = true -> is_top a = true.
Proof.
  intros Hmono Hwhole Hg Hpos a b Ha Hb Hab Htop.
  apply (Permutation_in _ (Permutation_sym (pareto_rows_perm t))) in Ha, Hb.
  destruct (cumulative_data_row t a Ha) as (_ & Hka & Hca & Hpa & Hla).
  destruct (cumulative_data_row t b Hb) as (_ & Hkb & Hcb & Hpb & Hlb).
  unfold is_top in *. rewrite Hla, Hpa, Hca, Hg.
  rewrite Hlb, Hpb, Hcb, Hg in Htop.
  rewrite (label_up _ g _ _ Hmono Hwhole Hg Hpos Hka Hkb Hab); [reflexivity|].
  destruct (pareto_label _); [reflexivity | discriminate].
Qed.

Lemma integers_categories t t' :
  integers t = Some t' -> List.map fst t' = List.map fst t.
Proof.
  revert t'. induction t as [|[c v] t IH]; intros t'; cbn.
  - intros [= <-]. reflexivity.
  - destruct v; try discriminate;
      (destruct (integers t) as [t0|]; cbn; [|discriminate]);
      intros [= <-]; cbn; f_equal; apply IH; reflexivity.
Qed.


End Engine.

Arguments category {real} _.
Arguments total_value {real} _.
Arguments cumulative_value {real} _.
Arguments cumulative_percentage {real} _.
Arguments pareto_category {real} _.
Arguments Rows {real reply} _.
Arguments Elsewhere {real reply} _.

(** ** Exact arithmetic *)

(** The percentages where no double is rounded: the exact quotient, rounded
    to 2 decimals, a tie going away from zero.  The engine computes these
    very values when the percentage has 2 decimals at most and is a double,
    as 50, 80 and 100 are. *)
Definition round_half_away (q : Q) : Z :=
  if Qle_bool 0 q then Qfloor (q + (1 # 2))
  else (- Qfloor (- q + (1 # 2)))%Z.

Definition sql_round2 (q : Q) : Q := (round_half_away (q * 100) # 100)%Q.

Definition exact_pct (g c : Z) : Q := sql_round2 (100 * inject_Z c / inject_Z g).

Definition exact_at_most_80 (p : Q) : bool := Qle_bool p 80.

(** A table of integers in range is all that the runs below look at. *)
Definition unanswered (t : list row) : unit := tt.

Lemma round_half_away_mono (q1 q2 : Q) :
  (q1 <= q2)%Q -> (round_half_away q1 <= round_half_away q2)%Z.
Proof.
  intros H. unfold round_half_away.
  destruct (Qle_bool 0 q1) eqn:E1, (Qle_bool 0 q2) eqn:E2.
  - apply Qfloor_resp_le. Lqa.lra.
  - apply Qle_bool_iff in E1.
    assert (~ (0 <= q2)%Q) by (rewrite <- Qle_bool_iff; congruence). Lqa.lra.
  - apply Qle_bool_iff in E2.
    assert (~ (0 <= q1)%Q) by (rewrite <- Qle_bool_iff; congruence).
    assert (Qfloor 0 <= Qfloor (- q1 + (1 # 2)))%Z by (apply Qfloor_resp_le; Lqa.lra).
    assert (Qfloor 0 <= Qfloor (q2 + (1 # 2)))%Z by (apply Qfloor_resp_le; Lqa.lra).
    change (Qfloor 0) with 0%Z in *. lia.
  - assert (Qfloor (- q2 + (1 # 2)) <= Qfloor (- q1 + (1 # 2)))%Z
      by (apply Qfloor_resp_le; Lqa.lra).
    lia.
Qed.

Lemma sql_round2_mono (q1 q2 : Q) :
  (q1 <= q2)%Q -> (sql_round2 q1 <= sql_round2 q2)%Q.
Proof.
  intros H. unfold sql_round2, Qle. cbn [Qnum Qden].
  assert (round_half_away (q1 * 100) <= round_half_away (q2 * 100))%Z
    by (apply round_half_away_mono; Lqa.lra).
  lia.
Qed.

Lemma ratio_mono (g c1 c2 : Z) :
  (0 < g)%Z -> (c1 <= c2)%Z ->
  (100 * inject_Z c1 / inject_Z g <= 100 * inject_Z c2 / inject_Z g)%Q.
Proof.
  intros Hg Hc. unfold Qdiv. apply Qmult_le_compat_r.
  - apply Qmult_le_l; [reflexivity|]. rewrite <- Zle_Qle. exact Hc.
  - apply Qinv_le_0_compat. change 0%Q with (inject_Z 0).
    rewrite <- Zle_Qle. lia.
Qed.

Lemma exact_pct_mono (g c1 c2 : Z) :
  (0 < g)%Z -> (c1 <= c2)%Z -> (exact_pct g c1 <= exact_pct g c2)%Q.
Proof. intros Hg Hc. apply sql_round2_mono, ratio_mono; assumption. Qed.

Lemma exact_pct_ge_grand (g c : Z) :
  (0 < g)%Z -> (g <= c)%Z -> (100 <= exact_pct g c)%Q.
Proof.
  intros Hg Hc.
  assert (H100 : (100 <= 100 * inject_Z c / inject_Z g)%Q).
  { apply Qle_shift_div_l.
    - change 0%Q with (inject_Z 0). rewrite <- Zlt_Qlt. exact Hg.
    - apply Qmult_le_l; [reflexivity|]. rewrite <- Zle_Qle. exact Hc. }
  apply sql_round2_mono in H100.
  change (sql_round2 100) with (10000 # 100)%Q in H100.
  unfold exact_pct. eapply Qle_trans; [|exact H100]. unfold Qle. cbn. lia.
Qed.

Lemma exact_pct_monotone : pct_monotone Q exact_pct exact_at_most_80.
Proof.
  intros g c1 c2 Hg Hc H. unfold exact_at_most_80 in *.
  apply Qle_bool_iff in H. apply Qle_bool_iff.
  eapply Qle_trans; [apply exact_pct_mono; eassumption | exact H].
Qed.

Lemma exact_pct_whole : pct_whole Q exact_pct exact_at_most_80.
Proof.
  intros g c Hg Hc. unfold exact_at_most_80.
  destruct (Qle_bool (exact_pct g c) 80) eqn:E; [|reflexivity].
  apply Qle_bool_iff in E. pose proof (exact_pct_ge_grand g c Hg Hc). Lqa.lra.
Qed.


(** ** Two tables *)

(** The example of the specification: A 100, B 300, C 600. *)
Definition sales : list row :=
  [(Text (py "A"), VInt 100); (Text (py "B"), VInt 300);
   (Text (py "C"), VInt 600)].

(** Shares of 50, 30 and 20. *)
Definition shares : list row :=
  [(Text (py "A"), VInt 50); (Text (py "B"), VInt 30);
   (Text (py "C"), VInt 20)].

(** The rows of the two tables, with exact percentages. *)
Definition sales_rows : list (out_row Q) :=
  pareto_rows Q exact_pct exact_at_most_80
    [(Text (py "A"), Some 100%Z); (Text (py "B"), Some 300%Z);
     (Text (py "C"), Some 600%Z)].

Definition shares_rows : list (out_row Q) :=
  pareto_rows Q exact_pct exact_at_most_80
    [(Text (py "A"), Some 50%Z); (Text (py "B"), Some 30%Z);
     (Text (py "C"), Some 20%Z)].



(** Two categories with the same total are peers in the window: both get
    the cumulative value of the pair. *)
Definition halves : list (cell * option Z) :=
  [(Text (py "A"), Some 50%Z); (Text (py "B"), Some 50%Z)].

Example pareto_peers_share_cumulative_value :
  List.map cumulative_value (pareto_rows Q exact_pct exact_at_most_80 halves)
    = [Some 100%Z; Some 100%Z] /\
  List.map pareto_category (pareto_rows Q exact_pct exact_at_most_80 halves)
    = [Bottom20; Bottom20].
Proof. split; vm_compute; reflexivity. Qed.

(** A table with decimals, and a table whose sum leaves the integers: the
    answer is the engine's. *)
Example pareto_analysis_elsewhere :
  pareto_analysis Q exact_pct exact_at_most_80 unit unanswered
    [(Text (py "A"), VReal 0.5%float)] = Elsewhere tt /\
  pareto_analysis Q exact_pct exact_at_most_80 unit unanswered
    [(Text (py "A"), VInt (2 ^ 62)); (Text (py "B"), VInt (2 ^ 62))] = Elsewhere tt.
Proof. split; vm_compute; reflexivity. Qed.

End Pareto.

(* ===================================================================== *)
(** * [DataAnalysisQueries.outlier_detection] *)
(* ===================================================================== *)

Module Outlier.

(** The query computes in the arithmetic of SQLite: 64-bit integers and
    doubles, with NULL for what is not a number.  The arithmetic is a
    parameter of the model: the values, the operations on them and their
    order.  The query is the way these operations are put together.  Two
    arithmetics are given afterwards: the real numbers, where every
    operation is exact, and the doubles of IEEE 754. *)

Inductive status := Outlier | Normal.

Section Arithmetic.

(** The values of SQLite other than NULL. *)
Variable val : Type.

(** [AVG] of the values of one or more rows. *)
Variable mean_of : list val -> option val.

(** [a * b], [a - b], [SQRT(a)] and [ABS(a)]; NULL when the result is not a
    number, and for [SQRT] outside its domain. *)
Variable times : val -> val -> option val.
Variable minus : val -> val -> option val.
Variable root : val -> option val.
Variable absolute : val -> option val.

(** [a / b] for a divisor that is not zero, and the test for zero. *)
Variable quotient : val -> val -> option val.
Variable is_zero : val -> bool.

(** [a > b] and, for [ORDER BY], [a <= b]. *)
Variable greater : val -> val -> bool.
Variable le : val -> val -> bool.

(** A row of the table: the numeric column, NULL or a value, and the other
    cells. *)
Record trow := mkRow {
  others : list cell;
  x : option val
}.

(** [t.x IS NOT NULL] *)
Definition has_value (r : trow) : bool :=
  match x r with Some _ => true | None => false end.

(** The values of the column that are not NULL. *)
Fixpoint values (t : list trow) : list val :=
  match t with
  | [] => []
  | r :: t' =>
      match x r with
      | Some v => v :: values t'
      | None => values t'
      end
  end.

(** An operation on two operands of which one may be NULL. *)
Definition lift2 (f : val -> val -> option val) (a b : option val) : option val :=
  match a, b with
  | Some a, Some b => f a b
  | _, _ => None
  end.

Definition lift1 (f : val -> option val) (a : option val) : option val :=
  match a with
  | Some a => f a
  | None => None
  end.

(** The results that are not NULL. *)
Fixpoint non_null (vs : list (option val)) : list val :=
  match vs with
  | [] => []
  | Some v :: vs' => v :: non_null vs'
  | None :: vs' => non_null vs'
  end.

(** [AVG(...)] over the rows that have a value; NULL when there is none. *)
Definition avg (xs : list val) : option val :=
  match xs with
  | [] => None
  | _ :: _ => mean_of xs
  end.

(** The [stats] subquery:
<<
    SELECT AVG(x) as mean_value,
           AVG(x * x) - AVG(x) * AVG(x) as variance
    FROM t WHERE x IS NOT NULL
>> *)
Definition mean_value (t : list trow) : option val := avg (values t).

Definition squares (t : list trow) : list val :=
  non_null (List.map (fun v => times v v) (values t)).

Definition variance (t : list trow) : option val :=
  lift2 minus (avg (squares t)) (lift2 times (mean_value t) (mean_value t)).

(** [SQRT(v)] *)
Definition sql_sqrt (v : option val) : option val := lift1 root v.

(** [a / b]: NULL when an operand is NULL, and when the divisor is zero. *)
Definition sql_div (a b : option val) : option val :=
  match a, b with
  | Some a, Some b => if is_zero b then None else quotient a b
  | _, _ => None
  end.

(** [ABS(x - mean)] *)
Definition sql_abs_diff (v m : option val) : option val :=
  lift1 absolute (lift2 minus v m).

(** [CASE WHEN z > threshold THEN 'Outlier' ELSE 'Normal' END]: a NULL
    z-score takes the [ELSE] branch. *)
Definition outlier_label (z : option val) (threshold : val) : status :=
  match z with
  | Some z => if greater z threshold then Outlier else Normal
  | None => Normal
  end.

(** A row of the result: [t.*] and the four computed columns. *)
Record out_row := mkOut {
  source : trow;
  mean : option val;
  std_dev : option val;
  z_score : option val;
  outlier_status : status
}.

(** The [SELECT] list on one row of [t], joined with the row of [stats]. *)
Definition select_row (m v : option val) (threshold : val) (r : trow) : out_row :=
  let z := sql_div (sql_abs_diff (x r) m) (sql_sqrt v) in
  {| source := r; mean := m; std_dev := sql_sqrt v; z_score := z;
     outlier_status := outlier_label z threshold |}.

(** [ORDER BY z_score DESC]; NULL, the smallest value, comes last. *)
Definition desc (a b : option val) : bool :=
  match a, b with
  | _, None => true
  | None, Some _ => false
  | Some p, Some q => le q p
  end.

Definition row_desc (a b : out_row) : bool := desc (z_score a) (z_score b).

(** The rows that [outlier_detection(table, numeric_column, threshold)]
    selects on the table [t]; [threshold] is the number that the text of
    the query has for [std_deviation_threshold]:
<<
    SELECT t.*, s.mean_value, SQRT(s.variance) as std_dev,
           ABS(t.x - s.mean_value) / SQRT(s.variance) as z_score,
           CASE WHEN ABS(t.x - s.mean_value) / SQRT(s.variance) > threshold
                THEN 'Outlier' ELSE 'Normal' END as outlier_status
    FROM t, stats s
    WHERE t.x IS NOT NULL
    ORDER BY z_score DESC
>> *)
Definition outlier_detection (t : list trow) (threshold : val) : list out_row :=
  OrderBy.order_by row_desc
    (List.map (select_row (mean_value t) (variance t) threshold)
              (List.filter has_value t)).

(** ** The order of the result *)

(** The order of the values is total and transitive, as that of the
    numbers of SQLite is. *)
Definition le_total : Prop := forall a b, le a b = false -> le b a = true.
Definition le_trans : Prop :=
  forall a b c, le a b = true -> le b c = true -> le a c = true.

Lemma z_desc_total a b : le_total -> desc a b = false -> desc b a = true.
Proof.
  intros Ht. destruct a as [p|], b as [q|]; cbn; try congruence. apply Ht.
Qed.

Lemma z_desc_trans a b c :
  le_trans -> desc a b = true -> desc b c = true -> desc a c = true.
Proof.
  intros Ht. destruct a as [p|], b as [q|], c as [u|]; cbn; try congruence.
  intros H1 H2. exact (Ht _ _ _ H2 H1).
Qed.

(** In a sorted list, a row comes before every row that follows it. *)
Lemma sorted_nth {A} (R : A -> A -> Prop) (l : list A) :
  StronglySorted R l ->
  forall i j a b, (i < j)%nat -> nth_error l i = Some a -> nth_error l j = Some b ->
    R a b.
Proof.
  induction 1 as [|r l Hs IH Hall]; intros i j a b Hij Hi Hj.
  - destruct i; discriminate.
  - destruct j as [|j]; [lia|]. cbn in Hj. destruct i as [|i].
    + cbn in Hi. injection Hi as <-.
      rewrite List.Forall_forall in Hall. apply Hall.
      eapply nth_error_In. exact Hj.
    + cbn in Hi. apply (IH i j a b); [lia | exact Hi | exact Hj].
Qed.

(** ** The rows of the result *)

Lemma values_In (t : list trow) (r : trow) (v : val) :
  In r t -> x r = Some v -> In v (values t).
Proof.
  induction t as [|r' t IH]; intros Hin Hx; [destruct Hin|].
  cbn. destruct Hin as [-> | Hin].
  - rewrite Hx. left. reflexivity.
  - destruct (x r'); [right|]; apply IH; assumption.
Qed.

Lemma outlier_detection_perm t threshold :
  Permutation
    (List.map (select_row (mean_value t) (variance t) threshold)
              (List.filter has_value t))
    (outlier_detection t threshold).
Proof. apply OrderBy.order_by_perm. Qed.

Lemma map_source_select m v threshold (l : list trow) :
  List.map source (List.map (select_row m v threshold) l) = l.
Proof. rewrite map_map. cbn. apply map_id. Qed.

Lemma outlier_detection_row t threshold r :
  In r (outlier_detection t threshold) ->
  exists v, In (source r) t /\ x (source r) = Some v /\ In v (values t) /\
            r = select_row (mean_value t) (variance t) threshold (source r).
Proof.
  intros Hin.
  apply (Permutation_in _ (Permutation_sym (outlier_detection_perm t threshold)))
    in Hin.
  apply in_map_iff in Hin as (src & <- & Hsrc).
  apply filter_In in Hsrc as [Hsrc Hv]. unfold has_value in Hv.
  destruct (x src) as [v|] eqn:Ex; [|discriminate].
  exists v. cbn [source select_row]. repeat split; try assumption.
  apply (values_In t src v Hsrc Ex).
Qed.

Lemma outlier_label_spec z threshold :
  outlier_label z threshold = Outlier <->
  exists u, z = Some u /\ greater u threshold = true.
Proof.
  unfold outlier_label. destruct z as [u|].
  - destruct (greater u threshold) eqn:H.
    + split; [eauto | reflexivity].
    + split; [discriminate|]. intros (u' & [= <-] & H'). congruence.
  - split; [discriminate | intros (u' & [=] & _)].
Qed.

Lemma filter_has_value_nonempty (t : list trow) :
  values t <> [] -> List.filter has_value t <> [].
Proof.
  induction t as [|r t IH]; cbn; [congruence|].
  unfold has_value at 1. destruct (x r); [discriminate | exact IH].
Qed.


(** C6. Zero variance: on every table with a value for which the standard
    deviation that the query computes, the square root of the variance, is
    zero, as it is when the computed variance is, the z-score of every row
    of the result is the quotient of a division by zero.  Nothing in the
    query guards the division: SQLite answers NULL, and every row is
    labelled "Normal". *)
Theorem zero_variance_division (t : list trow) (threshold s : val) :
  values t <> [] ->
  sql_sqrt (variance t) = Some s ->
  is_zero s = true ->
  outlier_detection t threshold <> [] /\
  forall r, In r (outlier_detection t threshold) ->
    std_dev r = Some s /\
    z_score r = sql_div (sql_abs_diff (x (source r)) (mean r)) (Some s) /\
    z_score r = None /\
    outlier_status r = Normal.
Proof.
  intros Hne Hsqrt Hzero. split.
  - intros E.
    pose proof (outlier_detection_perm t threshold) as Hp. rewrite E in Hp.
    apply Permutation_nil_r, map_eq_nil in Hp.
    exact (filter_has_value_nonempty t Hne Hp).
  - intros r Hr.
    destruct (outlier_detection_row t threshold r Hr) as (v & _ & Hx & _ & Er).
    assert (Hm : mean r = mean_value t) by (rewrite Er; reflexivity).
    assert (Hd : std_dev r = sql_sqrt (variance t)) by (rewrite Er; reflexivity).
    assert (Hz : z_score r
                 = sql_div (sql_abs_diff (x (source r)) (mean r)) (std_dev r))
      by (rewrite Er; reflexivity).
    assert (Hs : outlier_status r = outlier_label (z_score r) threshold)
      by (rewrite Er; reflexivity).
    rewrite Hsqrt in Hd. rewrite Hd in Hz.
    assert (Hn : z_score r = None).
    { rewrite Hz. unfold sql_div. destruct (sql_abs_diff _ _); [|reflexivity].
      rewrite Hzero. reflexivity. }
    split; [exact Hd|]. split; [exact Hz|]. split; [exact Hn|].
    rewrite Hs, Hn. reflexivity.
Qed.

End Arithmetic.

Arguments others {val} _.
Arguments x {val} _.
Arguments source {val} _.
Arguments mean {val} _.
Arguments std_dev {val} _.
Arguments z_score {val} _.
Arguments outlier_status {val} _.

(** ** The arithmetic of the real numbers *)

Module Exact.

Local Open Scope R_scope.

Definition sum (xs : list R) : R := fold_right Rplus 0 xs.

Definition mean_of (xs : list R) : option R := Some (sum xs / INR (length xs)).
Definition times (a b : R) : option R := Some (a * b).
Definition minus (a b : R) : option R := Some (a - b).
Definition root (a : R) : option R := if Rlt_dec a 0 then None else Some (sqrt a).
Definition absolute (a : R) : option R := Some (Rabs a).
Definition quotient (a b : R) : option R := Some (a / b).
Definition is_zero (a : R) : bool := if Req_dec_T a 0 then true else false.
Definition greater (a b : R) : bool := if Rlt_dec b a then true else false.
Definition le (a b : R) : bool := if Rle_dec a b then true else false.

Lemma le_is_total : le_total R le.
Proof.
  intros a b. unfold le.
  destruct (Rle_dec a b) as [H|H]; [discriminate|]. intros _.
  destruct (Rle_dec b a) as [H'|H']; [reflexivity|]. Lra.lra.
Qed.

Lemma le_is_transitive : le_trans R le.
Proof.
  intros a b c. unfold le.
  destruct (Rle_dec a b), (Rle_dec b c), (Rle_dec a c); try congruence.
  Lra.lra.
Qed.

Definition outlier_detection : list (trow R) -> R -> list (out_row R) :=
  Outlier.outlier_detection R mean_of times minus root absolute quotient is_zero
    greater le.

End Exact.

(** ** The arithmetic of the doubles *)

(** The values are doubles; a result that is not a number is NULL.  [AVG]
    adds the values one by one and divides the sum by their number. *)
Module Double.

Definition number (a : float) : option float :=
  if PrimFloat.is_nan a then None else Some a.

Definition sum (xs : list float) : float :=
  fold_left PrimFloat.add xs 0%float.

Definition mean_of (xs : list float) : option float :=
  number (PrimFloat.div (sum xs) (PrimFloat.of_uint63 (Uint63.of_Z (Z.of_nat (length xs))))).
Definition times (a b : float) : option float := number (PrimFloat.mul a b).
Definition minus (a b : float) : option float := number (PrimFloat.sub a b).
Definition root (a : float) : option float := number (PrimFloat.sqrt a).
Definition absolute (a : float) : option float := number (PrimFloat.abs a).
Definition quotient (a b : float) : option float := number (PrimFloat.div a b).
Definition is_zero (a : float) : bool := PrimFloat.eqb a 0%float.
Definition greater (a b : float) : bool := PrimFloat.ltb b a.
Definition le (a b : float) : bool := PrimFloat.leb a b.

Definition variance : list (trow float) -> option float :=
  Outlier.variance float mean_of times minus.

Definition outlier_detection : list (trow float) -> float -> list (out_row float) :=
  Outlier.outlier_detection float mean_of times minus root absolute quotient
    is_zero greater le.

End Double.

(** ** A table with three rows *)

(** The values 1 and 3, and a row without value: the mean is 2, the
    variance 1, and both values are at one standard deviation. *)
Definition pair_table : list (trow R) :=
  [ {| others := [Text (py "a")]; x := Some 1%R |};
    {| others := [Text (py "b")]; x := None |};
    {| others := [Text (py "c")]; x := Some 3%R |} ].


(** ** A column of equal values *)

(** Two rows with the value 5, in doubles: the variance that the query
    computes is 0. *)
Definition flat : list (trow float) :=
  [ {| others := [Text (py "a")]; x := Some 5%float |};
    {| others := [Text (py "b")]; x := Some 5%float |} ].

Lemma zero_variance_division_witness :
  Double.variance flat = Some 0%float /\
  Double.outlier_detection flat 2%float <> [] /\
  forall r, In r (Double.outlier_detection flat 2%float) ->
    z_score r
      = sql_div float Double.quotient Double.is_zero
          (sql_abs_diff float Double.minus Double.absolute (x (source r)) (mean r))
          (Some 0%float) /\
    z_score r = None /\ outlier_status r = Normal.
Proof.
  destruct (zero_variance_division float Double.mean_of Double.times Double.minus
              Double.root Double.absolute Double.quotient Double.is_zero
              Double.greater Double.le flat 2%float 0%float)
    as (Hne & Hrows).
  - discriminate.
  - vm_compute. reflexivity.
  - vm_compute. reflexivity.
  - split; [vm_compute; reflexivity|]. split; [exact Hne|].
    intros r Hr. destruct (Hrows r Hr) as (_ & Hd & Hz & Hs).
    split; [exact Hd|]. split; [exact Hz | exact Hs].
Defined.

(** Three rows with the value 0.7, in doubles: the sums are rounded, the
    variance that the query computes is not 0 although the values are
    equal, the standard deviation is about 1.29e-08, and each row has a
    z-score, which is a number: nothing is divided by zero. *)
Definition seven_tenths : float := 0x1.6666666666666p-1%float.

Definition flat_tenths : list (trow float) :=
  [ {| others := []; x := Some seven_tenths |};
    {| others := []; x := Some seven_tenths |};
    {| others := []; x := Some seven_tenths |} ].

Lemma equal_values_without_zero_variance :
  (exists var, Double.variance flat_tenths = Some var /\
               Double.is_zero var = false) /\
  List.map (fun r => match std_dev r with
                     | Some s => Double.is_zero s
                     | None => true
                     end)
           (Double.outlier_detection flat_tenths 2%float)
    = [false; false; false] /\
  List.map (fun r => match z_score r with Some _ => true | None => false end)
           (Double.outlier_detection flat_tenths 2%float)
    = [true; true; true].
Proof.
  split; [eexists; split; vm_compute; reflexivity|].
  split; vm_compute; reflexivity.
Qed.

(** Three rows with the values 100000001, 100000002 and 100000003, in
    doubles: the squares are rounded and the variance that the query
    computes is 0, where the variance of the values is 2/3.  Every z-score
    is NULL and every row "Normal", whatever the threshold. *)
Definition close_values : list (trow float) :=
  [ {| others := []; x := Some 100000001%float |};
    {| others := []; x := Some 100000002%float |};
    {| others := []; x := Some 100000003%float |} ].

Example outlier_detection_cancellation :
  Double.variance close_values = Some 0%float /\
  List.map (fun r => (std_dev r, z_score r, outlier_status r))
           (Double.outlier_detection close_values 1%float)
    = [(Some 0%float, None, Normal); (Some 0%float, None, Normal);
       (Some 0%float, None, Normal)].
Proof. split; vm_compute; reflexivity. Qed.

End Outlier.

(* ===================================================================== *)
(** * More on [_clean_table_name] *)
(* ===================================================================== *)

Module TableNameFacts.

Import TableName.

Section Unicode.

Variable uni_isalpha : N -> bool.
Variable uni_isnumeric : N -> bool.

Local Abbreviation clean_name := (_clean_table_name uni_isalpha uni_isnumeric).
Local Abbreviation word := (is_word uni_isalpha uni_isnumeric).
Local Abbreviation alpha := (isalpha uni_isalpha).

(** A name that is already a table name: not empty, word characters only, a
    letter or an underscore first. *)
Definition is_table_name (s : pystr) : Prop :=
  Forall (fun c => word c = true) s /\
  starts_with_letter_or_underscore uni_isalpha s.

Lemma re_sub_nonword_id (s : pystr) :
  Forall (fun c => word c = true) s ->
  re_sub_nonword uni_isalpha uni_isnumeric s = s.
Proof.
  unfold re_sub_nonword. induction 1 as [|c s Hc _ IH]; cbn; [reflexivity|].
  rewrite IH, (sub_char_id _ _ c Hc). reflexivity.
Qed.

(** A table name is left as it is. *)
Lemma _clean_table_name_fixed (s : pystr) :
  is_table_name s -> clean_name s = s.
Proof.
  intros [Hw Hh]. unfold _clean_table_name. rewrite (re_sub_nonword_id s Hw).
  destruct s as [|c s]; [destruct Hh|]. cbn in Hh.
  destruct Hh as [Ha | ->].
  - rewrite Ha. reflexivity.
  - unfold underscore at 2. rewrite N.eqb_refl, andb_false_r. reflexivity.
Qed.

(** Sanitizing twice is sanitizing once: the sanitized name of a sheet is
    its own sanitized name, whatever the sheet is called. *)
Theorem _clean_table_name_idempotent (name : pystr) :
  _clean_table_name uni_isalpha uni_isnumeric
    (_clean_table_name uni_isalpha uni_isnumeric name)
  = _clean_table_name uni_isalpha uni_isnumeric name.
Proof.
  apply _clean_table_name_fixed. split.
  - apply _clean_table_name_word.
  - apply _clean_table_name_head.
Qed.

(** At most one character is added, and only in front of a name that does
    not start with a letter or an underscore. *)
Theorem _clean_table_name_length (name : pystr) :
  name <> [] ->
  (length name
   <= length (_clean_table_name uni_isalpha uni_isnumeric name)
   <= length name + 1)%nat /\
  (starts_with_letter_or_underscore uni_isalpha name ->
   length (_clean_table_name uni_isalpha uni_isnumeric name) = length name).
Proof.
  intros Hne.
  destruct (_clean_table_name_shape uni_isalpha uni_isnumeric name Hne)
    as (pre & Hpre & E).
  rewrite E, length_app. unfold re_sub_nonword. rewrite length_map.
  split; [destruct Hpre as [-> | ->]; cbn; lia|].
  intros Hh. destruct name as [|c name]; [destruct Hh|].
  unfold _clean_table_name in E. cbn [re_sub_nonword List.map] in E.
  assert (Hc : is_word uni_isalpha uni_isnumeric c = true).
  { cbn in Hh. destruct Hh as [Ha | ->].
    - unfold is_word, isalnum. rewrite Ha. reflexivity.
    - apply is_word_underscore. }
  rewrite (sub_char_id _ _ c Hc) in E. cbn in Hh.
  assert (Hcond : negb (alpha c) && negb (c =? underscore)%N = false).
  { destruct Hh as [Ha | ->]; [rewrite Ha; reflexivity|].
    rewrite N.eqb_refl. apply andb_false_r. }
  rewrite Hcond in E.
  destruct Hpre as [-> | ->]; [reflexivity|].
  exfalso. apply (f_equal (@length _)) in E. cbn in E.
  rewrite length_map in E. lia.
Qed.

End Unicode.

(** A name that is not empty and starts with a digit. *)
Lemma _clean_table_name_length_witness :
  py "2024" <> [] /\
  length (_clean_table_name (fun _ => false) (fun _ => false) (py "2024")) = 5%nat.
Proof.
  destruct (_clean_table_name_length (fun _ => false) (fun _ => false) (py "2024"))
    as [[_ Hle] _]; [discriminate|].
  split; [discriminate|]. vm_compute. reflexivity.
Defined.

End TableNameFacts.
(* ===================================================================== *)
(** * More about the methods of [ExcelSQLManager] *)
(* ===================================================================== *)

Module BridgeFacts.
Import Bridge.

(** ** What a method leaves alone *)

(** Between two worlds, seen from the database [db]: the faults are the
    same, every other file is the same, and at [db] a workbook stays as it
    is and a database stays a database. *)
Definition wkeeps (db : pystr) (w w' : World) : Prop :=
  faults w' = faults w /\
  (forall p, p <> db -> fs w' !! p = fs w !! p) /\
  (forall sh, fs w !! db = Some (ExcelFile sh) -> fs w' !! db = Some (ExcelFile sh)) /\
  (forall t, fs w !! db = Some (SqliteFile t) ->
     exists t', fs w' !! db = Some (SqliteFile t')).

(** Between two states: the manager keeps its paths and its connection, and
    the world is kept as above. *)
Definition keeps (s s' : State) : Prop :=
  excel_file_path (fst s') = excel_file_path (fst s) /\
  temp_db (fst s') = temp_db (fst s) /\
  db_path (fst s') = db_path (fst s) /\
  connection (fst s') = connection (fst s) /\
  wkeeps (db_path (fst s)) (snd s) (snd s').

Lemma wkeeps_refl db w : wkeeps db w w.
Proof. repeat split; eauto. Qed.

Lemma wkeeps_trans db w1 w2 w3 :
  wkeeps db w1 w2 -> wkeeps db w2 w3 -> wkeeps db w1 w3.
Proof.
  intros (F1 & O1 & X1 & S1) (F2 & O2 & X2 & S2). split; [congruence|].
  split; [|split].
  - intros p NE. rewrite O2, O1 by exact NE. reflexivity.
  - intros sh E. apply X2, X1, E.
  - intros t E. destruct (S1 t E) as [t' E']. exact (S2 t' E').
Qed.

Lemma wkeeps_touch db w : wkeeps db w (touch_db db w).
Proof.
  unfold touch_db. destruct (fs w !! db) eqn:E; [apply wkeeps_refl|].
  split; [reflexivity|]. split; [|split].
  - intros p NE. cbn. apply lookup_insert_ne. congruence.
  - intros sh E'. congruence.
  - intros t E'. congruence.
Qed.

Lemma wkeeps_set_tables db w t t' :
  fs w !! db = Some (SqliteFile t) ->
  wkeeps db w (set_fs (<[db := SqliteFile t']> (fs w)) w).
Proof.
  intros E. split; [reflexivity|]. split; [|split].
  - intros p NE. cbn. apply lookup_insert_ne. congruence.
  - intros sh E'. congruence.
  - intros t0 _. exists t'. cbn. apply lookup_insert_eq.
Qed.

Lemma keeps_refl s : keeps s s.
Proof. do 4 (split; [reflexivity|]). apply wkeeps_refl. Qed.

Lemma keeps_trans s1 s2 s3 : keeps s1 s2 -> keeps s2 s3 -> keeps s1 s3.
Proof.
  intros (A1 & B1 & C1 & D1 & W1) (A2 & B2 & C2 & D2 & W2).
  repeat (split; [congruence|]). rewrite C1 in W2.
  exact (wkeeps_trans _ _ _ _ W1 W2).
Qed.

Section Engine.

Variable uni_isalpha : N -> bool.
Variable uni_isnumeric : N -> bool.
Variable sql_run :
  pystr -> gmap pystr file -> pystr -> result DataFrame * gmap pystr file.

Local Abbreviation clean := (Bridge.clean uni_isalpha uni_isnumeric).
Local Abbreviation load_sheet := (Bridge.load_sheet uni_isalpha uni_isnumeric).
Local Abbreviation load_sheets := (Bridge.load_sheets uni_isalpha uni_isnumeric).
Local Abbreviation load_sheets_to_sql :=
  (Bridge.load_sheets_to_sql uni_isalpha uni_isnumeric).
Local Abbreviation materialize := (Bridge.materialize uni_isalpha uni_isnumeric).
Local Abbreviation pd_read_sql_query := (Bridge.pd_read_sql_query sql_run).
Local Abbreviation execute_query := (Bridge.execute_query sql_run).
Local Abbreviation update_sheet_from_query :=
  (Bridge.update_sheet_from_query sql_run).
Local Abbreviation after_query := (Bridge.after_query sql_run).
Local Abbreviation answer := (Bridge.answer sql_run).
Local Abbreviation reads_only := (Bridge.reads_only sql_run).

Ltac run_M :=
  unfold logger in *;
  unfold bind, try_except, ret, raise, get_self, get_world, update_self,
    update_world in *; cbn [fst snd] in *.

(** [connect], case by case. *)
Lemma connect_eq m w :
  connect (m, w) =
  if engine_unreachable (faults w)
  then (Raise OperationalError,
        (m, add_log ERROR (MsgConnectError OperationalError) w))
  else (Ok tt, (set_connection (Some ConnOpen) m,
                add_log INFO MsgConnected (touch_db (db_path m) w))).
Proof.
  unfold connect, engine_connect. run_M.
  destruct (engine_unreachable (faults w)); reflexivity.
Qed.

(** [load_excel_to_memory], case by case. *)
Lemma load_excel_to_memory_eq m w :
  load_excel_to_memory (m, w) =
  match fs w !! excel_file_path m with
  | Some (ExcelFile sheets) =>
      (Ok (read_workbook (faults w) sheets),
       (set_loaded (read_workbook (faults w) sheets)
                   (read_workbook (faults w) sheets) m,
        add_log INFO (MsgExcelLoaded (dict_keys (read_workbook (faults w) sheets))) w))
  | Some (SqliteFile _) =>
      (Raise (InvalidFileError (excel_file_path m)),
       (m, add_log ERROR (MsgExcelLoadError (InvalidFileError (excel_file_path m))) w))
  | None =>
      (Raise (FileNotFoundError (excel_file_path m)),
       (m, add_log ERROR (MsgExcelLoadError (FileNotFoundError (excel_file_path m))) w))
  end.
Proof.
  unfold load_excel_to_memory, os_path_exists, pd_read_excel. run_M.
  destruct (fs w !! excel_file_path m) as [[sh | t]|] eqn:E; cbn; run_M;
    rewrite ?E; reflexivity.
Qed.

(** [df.to_sql], case by case. *)
Lemma df_to_sql_eq df table m w :
  df_to_sql df table (m, w) =
  if engine_unreachable (faults w) then (Raise OperationalError, (m, w))
  else
    match fs w !! db_path m with
    | Some (ExcelFile _) => (Raise DatabaseError, (m, w))
    | _ =>
        if to_sql_fails (faults w) table df
        then (Raise DatabaseError, (m, touch_db (db_path m) w))
        else (Ok tt, (m, set_fs (<[db_path m :=
                                    SqliteFile (<[table := df]> (db_tables w (db_path m)))]>
                                   (fs (touch_db (db_path m) w)))
                                (touch_db (db_path m) w)))
    end.
Proof.
  unfold df_to_sql. run_M.
  destruct (engine_unreachable (faults w)); [reflexivity|]. cbn [fst snd].
  rewrite fs_touch_db, faults_touch. unfold db_tables.
  destruct (fs w !! db_path m) as [[sh | t]|] eqn:E.
  - unfold touch_db. rewrite E. reflexivity.
  - destruct (to_sql_fails (faults w) table df); reflexivity.
  - destruct (to_sql_fails (faults w) table df); reflexivity.
Qed.

Lemma df_to_sql_keeps df table s r s' :
  df_to_sql df table s = (r, s') -> keeps s s' /\ fst s' = fst s.
Proof.
  destruct s as [m w]. rewrite df_to_sql_eq.
  destruct (engine_unreachable (faults w)).
  { intros [= <- <-]. split; [apply keeps_refl | reflexivity]. }
  destruct (fs w !! db_path m) as [[sh | t]|] eqn:E.
  { intros [= <- <-]. split; [apply keeps_refl | reflexivity]. }
  all: destruct (to_sql_fails (faults w) table df); intros [= <- <-];
    (split; [|reflexivity]);
    do 4 (split; [reflexivity|]); cbn [fst snd].
  all: try exact (wkeeps_touch _ _).
  all: eapply wkeeps_trans; [apply wkeeps_touch|];
    eapply wkeeps_set_tables; rewrite fs_touch_db, E; reflexivity.
Qed.

Lemma load_sheet_keeps n s r s' :
  load_sheet n s = (r, s') -> keeps s s' /\ fst s' = fst s.
Proof.
  destruct s as [m w]. unfold Bridge.load_sheet.
  unfold bind at 1, get_self at 1. cbn [fst snd].
  destruct (dict_get n (original_excel_data m)) as [df|].
  - unfold try_except, bind at 1.
    destruct (df_to_sql df (clean n) (m, w)) as [[u|e] [m1 w1]] eqn:E;
      apply df_to_sql_keeps in E as [K E1]; cbn in E1; subst m1; run_M;
      intros [= <- <-]; (split; [exact K | reflexivity]).
  - run_M. intros [= <- <-]. split; [exact (keeps_refl (m, w)) | reflexivity].
Qed.

Lemma load_sheets_keeps names : forall s r s',
  load_sheets names s = (r, s') -> keeps s s' /\ fst s' = fst s.
Proof.
  induction names as [|n names IH]; intros s r s'.
  - cbn. unfold ret. intros [= <- <-]. split; [apply keeps_refl | reflexivity].
  - cbn [Bridge.load_sheets]. unfold bind at 1.
    destruct (load_sheet n s) as [[[]|e] s1] eqn:E;
      apply load_sheet_keeps in E as [K1 E1].
    + intros H. apply IH in H as [K2 E2].
      split; [exact (keeps_trans _ _ _ K1 K2) | congruence].
    + intros [= <- <-]. split; assumption.
Qed.

Lemma load_excel_to_memory_keeps s r s' :
  load_excel_to_memory s = (r, s') -> keeps s s'.
Proof.
  destruct s as [m w]. rewrite load_excel_to_memory_eq.
  destruct (fs w !! excel_file_path m) as [[sh | t]|]; intros [= <- <-];
    do 4 (split; [reflexivity|]); exact (wkeeps_refl _ _).
Qed.

Lemma load_sheets_to_sql_keeps names s r s' :
  load_sheets_to_sql names s = (r, s') -> keeps s s'.
Proof.
  destruct s as [m w]. unfold Bridge.load_sheets_to_sql.
  unfold bind at 1, get_self at 1. cbn [fst snd]. unfold bind at 1.
  destruct (original_excel_data m) as [|kv orig] eqn:Eo.
  - unfold bind at 1.
    destruct (load_excel_to_memory (m, w)) as [[data|e] s1] eqn:E;
      apply load_excel_to_memory_keeps in E as K1.
    + unfold ret at 1. unfold bind at 1, get_self at 1.
      intros H. apply load_sheets_keeps in H as [K2 _].
      exact (keeps_trans _ _ _ K1 K2).
    + intros [= <- <-]. exact K1.
  - unfold ret at 1. unfold bind at 1, get_self at 1.
    intros H. apply load_sheets_keeps in H as [K2 _]. exact K2.
Qed.

(** A text that only reads, whatever the files are. *)
Definition read_only_text (db query : pystr) : Prop :=
  forall f, snd (sql_run db f query) = f.

Lemma execute_query_keeps query s r s' :
  read_only_text (db_path (fst s)) query ->
  execute_query query s = (r, s') -> keeps s s' /\ fst s' = fst s.
Proof.
  destruct s as [m w]. cbn [fst]. intros RO.
  rewrite (execute_query_eq sql_run). cbv zeta.
  assert (K : wkeeps (db_path m) w (after_query m w query)).
  { unfold Bridge.after_query. rewrite RO.
    destruct (wkeeps_touch (db_path m) w) as (A & B & C & D).
    split; [exact A|]. split; [exact B|]. split; [exact C | exact D]. }
  destruct (engine_unreachable (faults w)).
  { intros [= <- <-]. split; [|reflexivity].
    do 4 (split; [reflexivity|]). exact (wkeeps_refl _ _). }
  destruct (fs w !! db_path m) as [[sh | t]|].
  { intros [= <- <-]. split; [|reflexivity].
    do 4 (split; [reflexivity|]). exact (wkeeps_touch _ _). }
  all: destruct (answer m w query); intros [= <- <-]; (split; [|reflexivity]);
    do 4 (split; [reflexivity|]); exact K.
Qed.

Lemma update_sheet_from_query_keeps sheet_name query s r s' :
  read_only_text (db_path (fst s)) query ->
  update_sheet_from_query sheet_name query s = (r, s') -> keeps s s'.
Proof.
  intros RO.
  unfold Bridge.update_sheet_from_query. unfold try_except at 1, bind at 1.
  destruct (execute_query query s) as [[df|e] [m1 w1]] eqn:E;
    apply (execute_query_keeps _ _ _ _ RO) in E as [K E1]; run_M;
    intros [= <- <-]; destruct K as (A & B & C & D & W);
    repeat split; cbn in *; try congruence; apply W.
Qed.

(** A query is answered only at a path that holds no workbook. *)
Lemma execute_query_ok_db query m w df s :
  execute_query query (m, w) = (Ok df, s) ->
  forall sh, fs w !! db_path m <> Some (ExcelFile sh).
Proof.
  rewrite (execute_query_eq sql_run). cbv zeta.
  destruct (engine_unreachable (faults w)); [discriminate|].
  destruct (fs w !! db_path m) as [[sh0 | t]|]; [discriminate|..];
    intros _ sh; discriminate.
Qed.

(** [save_excel], case by case. *)
Lemma save_excel_eq output_path m w :
  save_excel output_path (m, w) =
  if write_fails (faults w) (save_path_of output_path m) (modified_data m)
  then (Raise (IOError (save_path_of output_path m)),
        (m, add_log ERROR (MsgExcelSaveError (IOError (save_path_of output_path m))) w))
  else (Ok tt,
        (m, add_log INFO (MsgExcelSaved (save_path_of output_path m))
              (set_fs (<[save_path_of output_path m := ExcelFile (modified_data m)]> (fs w)) w))).
Proof.
  unfold save_excel, write_workbook. run_M.
  destruct (write_fails (faults w) (save_path_of output_path m) (modified_data m));
    reflexivity.
Qed.

(** ** What [load_sheets_to_sql] has done when it returns *)

(** [sheet_names if sheet_names else list(self.original_excel_data.keys())] *)
Definition sheets_to_load (sheet_names : option (list pystr))
    (original_excel_data : dict DataFrame) : list pystr :=
  match sheet_names with
  | Some (n :: names) => n :: names
  | Some [] | None => dict_keys original_excel_data
  end.

Lemma load_sheet_returns n m w s' :
  load_sheet n (m, w) = (Ok tt, s') ->
  db_tables (snd s') (db_path m) =
  match dict_get n (original_excel_data m) with
  | Some df => <[clean n := df]> (db_tables w (db_path m))
  | None => db_tables w (db_path m)
  end.
Proof.
  unfold Bridge.load_sheet. unfold bind at 1, get_self at 1. cbn [fst snd].
  destruct (dict_get n (original_excel_data m)) as [df|].
  - unfold try_except, bind at 1. rewrite df_to_sql_eq.
    destruct (engine_unreachable (faults w)); [run_M; discriminate|].
    destruct (fs w !! db_path m) as [[sh | t]|] eqn:E; [run_M; discriminate| |];
      (destruct (to_sql_fails (faults w) (clean n) df); run_M;
       [discriminate|]); intros [= <-]; cbn [snd]; unfold db_tables at 1;
      cbn [fs add_log set_fs]; rewrite lookup_insert_eq; reflexivity.
  - run_M. intros [= <-]. reflexivity.
Qed.

Lemma load_sheets_returns names : forall m w s',
  load_sheets names (m, w) = (Ok tt, s') ->
  db_tables (snd s') (db_path m) =
  materialize (original_excel_data m) (db_tables w (db_path m)) names.
Proof.
  induction names as [|n names IH]; intros m w s'.
  - cbn. unfold ret. intros [= <-]. reflexivity.
  - cbn [Bridge.load_sheets]. unfold bind at 1.
    destruct (load_sheet n (m, w)) as [[[]|e] [m1 w1]] eqn:E; [|discriminate].
    pose proof (load_sheet_keeps _ _ _ _ E) as [_ E1]. cbn in E1. subst m1.
    apply load_sheet_returns in E. cbn [snd] in E.
    intros H. apply IH in H. rewrite H, E. unfold Bridge.materialize. cbn.
    destruct (dict_get n (original_excel_data m)); reflexivity.
Qed.

(** When [load_sheets_to_sql] returns, the manager holds the workbook (read
    from the file if it held none) and the tables are those written for the
    sheets to load, in this order. *)
Lemma load_sheets_to_sql_returns sheet_names m w s' :
  load_sheets_to_sql sheet_names (m, w) = (Ok tt, s') ->
  exists sheets,
    match original_excel_data m with
    | [] => (exists stored, workbook w (excel_file_path m) = Some stored /\
                            sheets = read_workbook (faults w) stored) /\
            fst s' = set_loaded sheets sheets m
    | _ :: _ => sheets = original_excel_data m /\ fst s' = m
    end /\
    db_tables (snd s') (db_path m) =
    materialize sheets (db_tables w (db_path m)) (sheets_to_load sheet_names sheets).
Proof.
  unfold Bridge.load_sheets_to_sql.
  unfold bind at 1, get_self at 1. cbn [fst snd]. unfold bind at 1.
  destruct (original_excel_data m) as [|kv orig] eqn:Eo.
  - unfold bind at 1. rewrite load_excel_to_memory_eq. unfold workbook.
    destruct (fs w !! excel_file_path m) as [[stored | t]|] eqn:Ef;
      [|discriminate..].
    unfold ret at 1. unfold bind at 1, get_self at 1. cbn [fst snd].
    intros H. exists (read_workbook (faults w) stored).
    pose proof (load_sheets_keeps _ _ _ _ H) as [_ E1]. cbn [fst] in E1.
    apply load_sheets_returns in H.
    split; [split; [exists stored; split; reflexivity | exact E1]|].
    exact H.
  - unfold ret at 1. unfold bind at 1, get_self at 1. cbn [fst snd].
    intros H. exists (kv :: orig).
    pose proof (load_sheets_keeps _ _ _ _ H) as [_ E1]. cbn [fst] in E1.
    apply load_sheets_returns in H. rewrite Eo in H.
    split; [split; [reflexivity | exact E1]|]. exact H.
Qed.

(** A manager without a workbook in memory, a workbook at its path, an
    engine that can be reached and accepts the sheets: [load_sheets_to_sql]
    returns. *)
Lemma load_sheets_to_sql_ok sheet_names m w stored sheets :
  original_excel_data m = [] ->
  workbook w (excel_file_path m) = Some stored ->
  sheets = read_workbook (faults w) stored ->
  db_ready w (db_path m) ->
  (forall n df, In n (sheets_to_load sheet_names sheets) ->
     dict_get n sheets = Some df ->
     to_sql_fails (faults w) (clean n) df = false) ->
  exists w',
    load_sheets_to_sql sheet_names (m, w) = (Ok tt, (set_loaded sheets sheets m, w')).
Proof.
  intros Eo Hw -> Hready Hsql. unfold Bridge.load_sheets_to_sql.
  unfold bind at 1, get_self at 1. cbn [fst snd]. unfold bind at 1.
  rewrite Eo. unfold bind at 1. rewrite load_excel_to_memory_eq.
  unfold workbook in Hw.
  destruct (fs w !! excel_file_path m) as [[sh | t]|] eqn:Ef; try discriminate.
  injection Hw as ->.
  unfold ret at 1. unfold bind at 1, get_self at 1. cbn [fst snd].
  set (sheets := read_workbook (faults w) stored) in *.
  destruct (load_sheets_ok uni_isalpha uni_isnumeric
              (sheets_to_load sheet_names sheets) (set_loaded sheets sheets m)
              (add_log INFO (MsgExcelLoaded (dict_keys sheets)) w))
    as (w' & R & _).
  - exact Hready.
  - exact Hsql.
  - exists w'. exact R.
Qed.

(** The table of a sheet is the sheet, unless a sheet with the same table
    name is written after it. *)
Lemma materialize_last orig T pre n post df :
  dict_get n orig = Some df ->
  (forall n', In n' post -> is_Some (dict_get n' orig) -> clean n' <> clean n) ->
  materialize orig T (pre ++ n :: post) !! clean n = Some df.
Proof.
  intros E Hpost. unfold Bridge.materialize. rewrite fold_left_app. cbn.
  rewrite E.
  change (materialize orig
            (<[clean n := df]> (materialize orig T pre)) post !! clean n = Some df).
  rewrite (materialize_lookup_other uni_isalpha uni_isnumeric).
  - apply lookup_insert_eq.
  - exact Hpost.
Qed.

(** ** Properties *)

(** Without a workbook at the path of the manager, [load_sheets_to_sql] on a
    manager that holds no workbook raises before it writes anything: the
    exception is that of [load_excel_to_memory] ([FileNotFoundError] when
    there is no file), it is logged as an error, and the manager and every
    file, the database included, are as before. *)
Theorem load_sheets_to_sql_without_workbook sheet_names m w :
  original_excel_data m = [] ->
  workbook w (excel_file_path m) = None ->
  exists e w',
    load_sheets_to_sql sheet_names (m, w) = (Raise e, (m, w')) /\
    fs w' = fs w /\
    log w' = log w ++ [(ERROR, MsgExcelLoadError e)] /\
    (fs w !! excel_file_path m = None -> e = FileNotFoundError (excel_file_path m)).
Proof.
  intros Eo Hw. unfold Bridge.load_sheets_to_sql.
  unfold bind at 1, get_self at 1. cbn [fst snd]. unfold bind at 1.
  rewrite Eo. unfold bind at 1. rewrite load_excel_to_memory_eq.
  unfold workbook in Hw.
  destruct (fs w !! excel_file_path m) as [[sheets | t]|] eqn:Ef;
    [discriminate| |]; eexists _, _; (split; [reflexivity|]);
    (split; [reflexivity|]); (split; [reflexivity|]); intros; congruence.
Qed.

(** Two sheets with the same sanitized name share one table, and the one
    loaded last wins: when [load_sheets_to_sql] returns, the table of a sheet
    to load holds that sheet if no sheet of the workbook that comes later in
    the list has the same table name. *)
Theorem load_sheets_to_sql_last_wins sheet_names m w s' sheets pre n post df :
  load_sheets_to_sql sheet_names (m, w) = (Ok tt, s') ->
  original_excel_data (fst s') = sheets ->
  sheets_to_load sheet_names sheets = pre ++ n :: post ->
  dict_get n sheets = Some df ->
  (forall n', In n' post -> is_Some (dict_get n' sheets) -> clean n' <> clean n) ->
  db_tables (snd s') (db_path m) !! clean n = Some df.
Proof.
  intros H Es El Ed Hpost.
  apply load_sheets_to_sql_returns in H as (sheets' & Hm & T).
  assert (sheets' = sheets) as ->.
  { destruct (original_excel_data m) as [|kv orig] eqn:Eo; destruct Hm as [A B].
    - rewrite B in Es. exact Es.
    - rewrite B, Eo in Es. congruence. }
  rewrite T, El. apply materialize_last; assumption.
Qed.

(** The result of [update_sheet_from_query] is not what
    [load_sheets_to_sql] writes: when [load_sheets_to_sql] returns after it,
    the sheets to load have been written, as they were loaded from the file,
    over the tables that the engine has left; the sheet that holds the result
    of the query is seen by [save_excel] only.  When the query only reads,
    these are the tables as they were before it. *)
Theorem update_sheet_from_query_not_reloaded sheet_name query sheet_names m w m1 w1 s2 :
  original_excel_data m <> [] ->
  update_sheet_from_query sheet_name query (m, w) = (Ok tt, (m1, w1)) ->
  load_sheets_to_sql sheet_names (m1, w1) = (Ok tt, s2) ->
  db_tables (snd s2) (db_path m) =
    materialize (original_excel_data m) (db_tables (after_query m w query) (db_path m))
      (sheets_to_load sheet_names (original_excel_data m)) /\
  (reads_only m w query ->
     db_tables (snd s2) (db_path m) =
       materialize (original_excel_data m) (db_tables w (db_path m))
         (sheets_to_load sheet_names (original_excel_data m))) /\
  original_excel_data (fst s2) = original_excel_data m /\
  exists df, fst (execute_query query (m, w)) = Ok df /\
             modified_data (fst s2) = dict_set sheet_name df (modified_data m).
Proof.
  intros Ho Hu Hl.
  apply (update_sheet_from_query_ok sql_run) in Hu as (df & E & Q & -> & ->).
  apply load_sheets_to_sql_returns in Hl as (sheets & Hm & T).
  cbn [original_excel_data set_modified_data set_loaded] in Hm.
  destruct (original_excel_data m) as [|kv orig] eqn:Eo; [congruence|].
  destruct Hm as [-> Hm]. cbn [db_path set_modified_data set_loaded] in T.
  rewrite T, Hm. cbn [original_excel_data modified_data set_modified_data set_loaded].
  change (db_tables (add_log INFO (MsgSheetUpdated sheet_name (len df))
                       (add_log INFO (MsgQueryDone (len df)) (after_query m w query)))
                    (db_path m))
    with (db_tables (after_query m w query) (db_path m)).
  split; [reflexivity|].
  split; [intros R; destruct (after_query_reads_only sql_run m w query R) as [-> _];
          reflexivity|].
  split; [exact Eo|]. exists df. rewrite E. split; reflexivity.
Qed.

(** [update_sheet_from_query] is all or nothing for the manager.  When it
    returns, the engine has answered the query and the sheet holds the
    answer; when it raises, the manager is exactly as before (no sheet is
    touched), the exception is the one [execute_query] raises, and the log
    has gained the two error records of [execute_query] and the one of
    [update_sheet_from_query], in this order.  In both cases the files are
    those that [execute_query] leaves. *)
Theorem update_sheet_from_query_atomic sheet_name query m w r s' :
  update_sheet_from_query sheet_name query (m, w) = (r, s') ->
  fs (snd s') = fs (snd (snd (execute_query query (m, w)))) /\
  match r with
  | Ok _ =>
      exists df,
        fst (execute_query query (m, w)) = Ok df /\
        fst s' = set_modified_data (dict_set sheet_name df (modified_data m)) m
  | Raise e =>
      fst s' = m /\
      fst (execute_query query (m, w)) = Raise e /\
      log (snd s') =
        log w ++ [(ERROR, MsgQueryError e); (ERROR, MsgQueryText query);
                  (ERROR, MsgSheetUpdateError sheet_name e)]
  end.
Proof.
  unfold Bridge.update_sheet_from_query. unfold try_except at 1, bind at 1.
  rewrite (execute_query_eq sql_run). cbv zeta.
  assert (Hlog : log (after_query m w query) = log w).
  { exact (log_touch (db_path m) w). }
  destruct (engine_unreachable (faults w)).
  { run_M. intros [= <- <-]. cbn [fst snd].
    split; [reflexivity|]. split; [reflexivity|]. split; [reflexivity|].
    cbn. rewrite <- !app_assoc. reflexivity. }
  destruct (fs w !! db_path m) as [[sh | t]|] eqn:Ef.
  1: { run_M. intros [= <- <-]. cbn [fst snd].
       split; [reflexivity|]. split; [reflexivity|]. split; [reflexivity|].
       cbn. rewrite (log_touch (db_path m) w), <- !app_assoc. reflexivity. }
  all: destruct (answer m w query) as [df | e] eqn:Q;
    run_M; intros [= <- <-]; cbn [fst snd].
  all: split; [reflexivity|].
  all: try (exists df; split; reflexivity).
  all: split; [reflexivity|]; split; [reflexivity|];
    cbn [log add_log]; rewrite Hlog, <- !app_assoc; reflexivity.
Qed.

End Engine.

(** A workbook in which two sheets have the same table name. *)
Definition quarters : dict DataFrame :=
  [(py "Q1 2024", sales_df); (py "Q1-2024", top_df)].

Definition quarters_world : World :=
  {| fs := <[py "q.xlsx" := ExcelFile quarters]> ∅; faults := no_faults; log := [] |}.

Definition fresh_manager (excel : pystr) : Manager :=
  {| excel_file_path := excel; original_excel_data := []; modified_data := [];
     temp_db := true; db_path := py "tmp.db"; connection := Some ConnOpen |}.

Lemma load_sheets_to_sql_without_workbook_witness :
  exists w',
    load_sheets_to_sql (fun _ => false) (fun _ => false) None
      (fresh_manager (py "none.xlsx"), quarters_world)
    = (Raise (FileNotFoundError (py "none.xlsx")),
       (fresh_manager (py "none.xlsx"), w')) /\
    fs w' = fs quarters_world.
Proof.
  destruct (load_sheets_to_sql_without_workbook (fun _ => false) (fun _ => false)
              None (fresh_manager (py "none.xlsx")) quarters_world)
    as (e & w' & R & F & _ & E); [reflexivity | reflexivity |].
  rewrite E in R by reflexivity. exists w'. split; [exact R | exact F].
Defined.

Lemma load_sheets_to_sql_last_wins_witness :
  db_tables
    (snd (snd (load_sheets_to_sql (fun _ => false) (fun _ => false) None
                 (fresh_manager (py "q.xlsx"), quarters_world))))
    (py "tmp.db") !! py "Q1_2024" = Some top_df.
Proof.
  pose (s' := snd (load_sheets_to_sql (fun _ => false) (fun _ => false) None
                     (fresh_manager (py "q.xlsx"), quarters_world))).
  assert (H : load_sheets_to_sql (fun _ => false) (fun _ => false) None
                (fresh_manager (py "q.xlsx"), quarters_world) = (Ok tt, s'))
    by (vm_compute; reflexivity).
  assert (G := load_sheets_to_sql_last_wins (fun _ => false) (fun _ => false)
           None _ _ _ quarters [py "Q1 2024"] (py "Q1-2024") [] top_df H).
  apply G.
  - vm_compute. reflexivity.
  - reflexivity.
  - reflexivity.
  - intros n' [].
Defined.

Lemma update_sheet_from_query_not_reloaded_witness :
  exists s2,
    load_sheets_to_sql (fun _ => false) (fun _ => false) (Some [py "Sales"])
      demo_updated = (Ok tt, s2) /\
    db_tables (snd s2) (py "tmp.db") !! py "Sales" = Some sales_df /\
    dict_get (py "Sales") (modified_data (fst s2)) = Some top_df.
Proof.
  pose (s2 := snd (load_sheets_to_sql (fun _ => false) (fun _ => false)
                     (Some [py "Sales"]) demo_updated)).
  assert (Hu : update_sheet_from_query toy_engine (py "Sales") demo_query
                 (demo_manager, demo_world no_faults)
               = (Ok tt, (fst demo_updated, snd demo_updated)))
    by (vm_compute; reflexivity).
  assert (Hl : load_sheets_to_sql (fun _ => false) (fun _ => false)
                 (Some [py "Sales"]) (fst demo_updated, snd demo_updated)
               = (Ok tt, s2)) by (vm_compute; reflexivity).
  destruct (update_sheet_from_query_not_reloaded (fun _ => false) (fun _ => false)
              toy_engine (py "Sales") demo_query (Some [py "Sales"])
              demo_manager (demo_world no_faults) _ _ _ ltac:(discriminate) Hu Hl)
    as (_ & T & _ & df & Q & Mo).
  exists s2. split; [vm_compute; reflexivity|]. split.
  - change (db_path demo_manager) with (py "tmp.db") in T. rewrite T.
    + vm_compute. reflexivity.
    + vm_compute. reflexivity.
  - rewrite Mo.
    assert (df = top_df) as ->
      by (vm_compute in Q; injection Q as Q; rewrite <- Q; reflexivity).
    vm_compute. reflexivity.
Defined.

(** A statement without rows: the engine drops the table, then the reader
    of the rows raises. *)
Lemma update_sheet_from_query_atomic_witness :
  exists w',
    update_sheet_from_query toy_engine (py "Sales") (py "DROP TABLE Sales")
      demo_state = (Raise ResourceClosedError, (demo_manager, w')) /\
    db_tables w' (py "tmp.db") !! py "Sales" = None /\
    length (log w') = 3%nat.
Proof.
  pose (run := update_sheet_from_query toy_engine (py "Sales")
                 (py "DROP TABLE Sales") demo_state).
  assert (H : update_sheet_from_query toy_engine (py "Sales")
                (py "DROP TABLE Sales") (demo_manager, demo_world no_faults)
              = (Raise ResourceClosedError, snd run)) by (vm_compute; reflexivity).
  destruct (update_sheet_from_query_atomic toy_engine _ _ _ _ _ _ H)
    as (F & Em & _ & L).
  exists (snd (snd run)). split.
  - change demo_state with (demo_manager, demo_world no_faults). rewrite H.
    rewrite <- Em. rewrite <- surjective_pairing. reflexivity.
  - split; [|rewrite L; reflexivity].
    unfold db_tables. rewrite F. vm_compute. reflexivity.
Defined.

End BridgeFacts.


(* ===================================================================== *)
(** * The rest of [ExcelSQLManager] and the two utility functions *)
(* ===================================================================== *)

Module Lifecycle.

(** ** Exceptions and log records of the methods modelled here *)

(** The exceptions of [Bridge], and [ValueError]. *)
Inductive pyexc :=
| LibraryError (e : exn)
| ValueError (what : pystr).

Inductive outcome (A : Type) :=
| Returned (a : A)
| Raised (e : pyexc).
Arguments Returned {A} a.
Arguments Raised {A} e.

(** The records that [backup_original] and [execute_update] hand to
    [logger].  They are kept in a journal beside the log of the other
    methods; the order between the two is not recorded. *)
Inductive record :=
| MsgBackupCreated (path : pystr)
| MsgBackupError (e : pyexc)
| MsgUpdateDone (affected_rows : Z)
| MsgUpdateError (e : pyexc)
| MsgUpdateText (query : pystr).

Definition Session : Type := Bridge.State * list (level * record).

Definition L (A : Type) : Type := Session -> outcome A * Session.

Definition ret {A} (a : A) : L A := fun s => (Returned a, s).

Definition bind {A B} (c : L A) (k : A -> L B) : L B :=
  fun s => match c s with
           | (Returned a, s') => k a s'
           | (Raised e, s') => (Raised e, s')
           end.

Definition raise {A} (e : pyexc) : L A := fun s => (Raised e, s).

(** [try: c  except Exception as e: h e] *)
Definition try_except {A} (c : L A) (h : pyexc -> L A) : L A :=
  fun s => match c s with
           | (Returned a, s') => (Returned a, s')
           | (Raised e, s') => h e s'
           end.

Notation "x <- c ;; k" := (bind c (fun x => k))
  (at level 100, c at next level, right associativity).
Notation "c ;;; k" := (bind c (fun _ => k))
  (at level 100, right associativity).

(** A method of [Bridge], run in a session. *)
Definition lift {A} (c : Bridge.M A) : L A :=
  fun s => match c (fst s) with
           | (Bridge.Ok a, st) => (Returned a, (st, snd s))
           | (Bridge.Raise e, st) => (Raised (LibraryError e), (st, snd s))
           end.

Definition get_self : L Bridge.Manager := fun s => (Returned (fst (fst s)), s).
Definition get_world : L World := fun s => (Returned (snd (fst s)), s).
Definition update_world (f : World -> World) : L unit :=
  fun s => (Returned tt, ((fst (fst s), f (snd (fst s))), snd s)).

Definition logger (l : level) (r : record) : L unit :=
  fun s => (Returned tt, (fst s, snd s ++ [(l, r)])).

(** ** [pathlib], on POSIX paths in normal form *)

Definition slash : N := 47%N.
Definition dot : N := 46%N.

(** [PurePosixPath(p).name]: what follows the last slash; the path [.] has
    no name. *)
Fixpoint final_component (p : pystr) : pystr :=
  match p with
  | [] => []
  | c :: p' =>
      if existsb (N.eqb slash) p' then final_component p'
      else if (c =? slash)%N then p' else c :: p'
  end.

Definition path_name (p : pystr) : pystr :=
  if decide (p = [dot]) then [] else final_component p.

(** [s.rfind(ch)] *)
Fixpoint rfind (ch : N) (s : pystr) : option nat :=
  match s with
  | [] => None
  | c :: s' =>
      match rfind ch s' with
      | Some i => Some (S i)
      | None => if (c =? ch)%N then Some 0%nat else None
      end
  end.

(** The position at which [name] is cut into stem and suffix: the last dot,
    unless it is the first or the last character. *)
Definition suffix_start (name : pystr) : option nat :=
  match rfind dot name with
  | Some i =>
      if (0 <? i)%nat && (i <? length name - 1)%nat then Some i else None
  | None => None
  end.

(** [path.suffix] and [path.stem], on the name of the path. *)
Definition path_suffix (name : pystr) : pystr :=
  match suffix_start name with
  | Some i => skipn i name
  | None => []
  end.

Definition path_stem (name : pystr) : pystr :=
  match suffix_start name with
  | Some i => firstn i name
  | None => name
  end.

(** [str(path.with_name(name))]; [ValueError] when the path has no name. *)
Definition with_name (p new_name : pystr) : option pystr :=
  match path_name p with
  | [] => None
  | n :: name =>
      Some (firstn (length p - length (n :: name)) p ++ new_name)
  end.

(** [self.excel_file_path.with_name(f"{stem}_backup{suffix}")] *)
Definition default_backup_path (p : pystr) : option pystr :=
  with_name p (path_stem (path_name p) ++ py "_backup" ++ path_suffix (path_name p)).

(** ** [os.path], on POSIX paths *)

(** [os.path.basename(p)]: what follows the last slash. *)
Definition os_path_basename (p : pystr) : pystr := final_component p.

(** [os.path.join(a, b)]: [b] when it is absolute; otherwise [a] and [b]
    with one slash between them, unless [a] is empty or ends with one. *)
Definition os_path_join (a b : pystr) : pystr :=
  if match b with c :: _ => (c =? slash)%N | [] => false end then b
  else if match List.rev a with c :: _ => (c =? slash)%N | [] => true end
       then a ++ b
       else a ++ slash :: b.

Section Engine.

(** Unicode tables for [_clean_table_name]. *)
Variable uni_isalpha : N -> bool.
Variable uni_isnumeric : N -> bool.

(** The SQL engine behind [pd.read_sql_query], as in [Bridge]. *)
Variable sql_run :
  pystr -> gmap pystr file -> pystr -> Bridge.result DataFrame * gmap pystr file.

(** The SQL engine behind [conn.execute(text(query))] in a transaction: what
    running the text does to the files, and the row count that comes back or
    the exception.  The text is run as it is. *)
Variable sql_exec :
  pystr -> gmap pystr file -> pystr -> Bridge.result Z * gmap pystr file.

(** [os.path.isdir(path)] *)
Variable os_path_isdir : pystr -> bool.

(** [shutil.copy2(src, dst)] raises for a reason outside the program; [dst]
    is the file that is written. *)
Variable copy_fails : pystr -> pystr -> bool.

(** The file that [shutil.copy2(src, dst)] writes: [dst], or the file with
    the name of [src] in [dst] when [dst] is a directory. *)
Definition copy_destination (src dst : pystr) : pystr :=
  if os_path_isdir dst then os_path_join dst (os_path_basename src) else dst.

(** [shutil.copy2(src, dst)]: the file written becomes a copy of the file
    at [src]; [SameFileError], an [OSError], when both are the same file. *)
Definition shutil_copy2 (src dst : pystr) : L unit :=
  w <- get_world ;;
  match fs w !! src with
  | None => raise (LibraryError (FileNotFoundError src))
  | Some f =>
      if decide (src = copy_destination src dst)
      then raise (LibraryError (OSError (copy_destination src dst)))
      else if copy_fails src (copy_destination src dst)
      then raise (LibraryError (OSError (copy_destination src dst)))
      else update_world (set_fs (<[copy_destination src dst := f]> (fs w)))
  end.

(** [backup_original(backup_path)]:
<<
    try:
        if backup_path is None:
            backup_path = str(self.excel_file_path.with_name(
                f"{self.excel_file_path.stem}_backup{self.excel_file_path.suffix}"))
        shutil.copy2(str(self.excel_file_path), backup_path)
        logger.info(...)
    except Exception as e:
        logger.error(...)
        raise
>> *)
Definition backup_original (backup_path : option pystr) : L unit :=
  try_except
    (self <- get_self ;;
     backup_path <-
       match backup_path with
       | None =>
           match default_backup_path (Bridge.excel_file_path self) with
           | Some p => ret p
           | None => raise (ValueError (Bridge.excel_file_path self))
           end
       | Some p => ret p
       end ;;
     shutil_copy2 (Bridge.excel_file_path self) backup_path ;;;
     logger INFO (MsgBackupCreated backup_path))
    (fun e => logger ERROR (MsgBackupError e) ;;; raise e).

(** [with self.engine.begin() as conn: result = conn.execute(text(query))];
    [result.rowcount] is what the engine hands back. *)
Definition engine_execute (query : pystr) : L Z :=
  self <- get_self ;;
  w <- get_world ;;
  if engine_unreachable (faults w) then raise (LibraryError OperationalError)
  else
    update_world (touch_db (Bridge.db_path self)) ;;;
    w <- get_world ;;
    match fs w !! Bridge.db_path self with
    | Some (SqliteFile _) =>
        update_world (set_fs (snd (sql_exec (Bridge.db_path self) (fs w) query))) ;;;
        match fst (sql_exec (Bridge.db_path self) (fs w) query) with
        | Bridge.Ok affected_rows => ret affected_rows
        | Bridge.Raise e => raise (LibraryError e)
        end
    | _ => raise (LibraryError DatabaseError)
    end.

(** [execute_update(query)]:
<<
    try:
        with self.engine.begin() as conn:
            result = conn.execute(text(query))
            affected_rows = result.rowcount
            logger.info(...)
            return affected_rows
    except Exception as e:
        logger.error(...); logger.error(...)
        raise
>> *)
Definition execute_update (query : pystr) : L Z :=
  try_except
    (affected_rows <- engine_execute query ;;
     logger INFO (MsgUpdateDone affected_rows) ;;;
     ret affected_rows)
    (fun e => logger ERROR (MsgUpdateError e) ;;;
              logger ERROR (MsgUpdateText query) ;;;
              raise e).

(** [with manager: body]: [__enter__] connects; [__exit__] closes, whether
    the body returns or raises, and lets the exception of the body pass; an
    exception of [close] replaces it. *)
Definition with_manager {A} (body : L A) : L A :=
  fun s =>
    match lift Bridge.connect s with
    | (Raised e, s1) => (Raised e, s1)
    | (Returned _, s1) =>
        let (r, s2) := body s1 in
        match lift (Bridge.close) s2 with
        | (Returned _, s3) => (r, s3)
        | (Raised e, s3) => (Raised e, s3)
        end
    end.

(** The session in which [ExcelSQLManager(excel_path)] has been built; [tmp]
    is the name that [tempfile.mktemp] returns. *)
Definition new_manager (excel_path tmp : pystr) (w : World)
    (journal : list (level * record)) : Session :=
  (Bridge.__init__ excel_path None tmp w, journal).

(** [quick_excel_query(excel_path, query, sheet_names)]:
<<
    with ExcelSQLManager(excel_path) as manager:
        manager.load_sheets_to_sql(sheet_names)
        return manager.execute_query(query)
>> *)
Definition quick_excel_query (excel_path query : pystr)
    (sheet_names : option (list pystr)) (tmp : pystr) (w : World)
    (journal : list (level * record)) : outcome DataFrame * Session :=
  with_manager
    (lift (Bridge.load_sheets_to_sql uni_isalpha uni_isnumeric sheet_names) ;;;
     lift (Bridge.execute_query sql_run query))
    (new_manager excel_path tmp w journal).

(** [update_excel_with_query(excel_path, sheet_name, query, output_path, backup)]:
<<
    with ExcelSQLManager(excel_path) as manager:
        if backup:
            manager.backup_original()
        manager.load_sheets_to_sql()
        manager.update_sheet_from_query(sheet_name, query)
        manager.save_excel(output_path)
>> *)
Definition update_excel_with_query (excel_path sheet_name query : pystr)
    (output_path : option pystr) (backup : bool) (tmp : pystr) (w : World)
    (journal : list (level * record)) : outcome unit * Session :=
  with_manager
    ((if backup then backup_original None else ret tt) ;;;
     lift (Bridge.load_sheets_to_sql uni_isalpha uni_isnumeric None) ;;;
     lift (Bridge.update_sheet_from_query sql_run sheet_name query) ;;;
     lift (Bridge.save_excel output_path))
    (new_manager excel_path tmp w journal).

(** ** Paths *)

Lemma final_component_suffix p : exists dir, p = dir ++ final_component p.
Proof.
  induction p as [|c p [dir IH]]; [exists []; reflexivity|]. cbn.
  destruct (existsb (N.eqb slash) p).
  - exists (c :: dir). cbn. rewrite <- IH. reflexivity.
  - destruct (c =? slash)%N.
    + exists [c]. reflexivity.
    + exists []. reflexivity.
Qed.

Lemma stem_suffix name : path_stem name ++ path_suffix name = name.
Proof.
  unfold path_stem, path_suffix. destruct (suffix_start name).
  - apply firstn_skipn.
  - apply app_nil_r.
Qed.

Lemma with_name_some p new_name bk :
  with_name p new_name = Some bk ->
  path_name p <> [] /\
  exists dir, p = dir ++ path_name p /\ bk = dir ++ new_name.
Proof.
  unfold with_name. destruct (path_name p) as [|n name] eqn:E; [discriminate|].
  intros [= <-]. split; [discriminate|].
  unfold path_name in E. destruct (decide (p = [dot])); [discriminate|].
  destruct (final_component_suffix p) as [dir Hdir]. rewrite E in Hdir.
  exists dir. split; [exact Hdir|]. f_equal.
  rewrite Hdir at 1 2. rewrite length_app, Nat.add_sub.
  rewrite firstn_app, Nat.sub_diag, firstn_all. cbn. apply app_nil_r.
Qed.

Lemma default_backup_path_none p :
  default_backup_path p = None <-> path_name p = [].
Proof.
  unfold default_backup_path, with_name.
  destruct (path_name p); split; intros H; congruence.
Qed.

Lemma default_backup_path_ne p bk : default_backup_path p = Some bk -> bk <> p.
Proof.
  unfold default_backup_path. intros H.
  apply with_name_some in H as (_ & dir & Hp & ->). intros E.
  remember (path_name p) as name eqn:En. clear En.
  apply (f_equal (@length N)) in E. rewrite Hp in E.
  pose proof (f_equal (@length N) (stem_suffix name)) as Hl.
  rewrite !length_app in *. cbn in E. lia.
Qed.

(** The default path of the backup: the directory and the suffix of the
    workbook are kept, [_backup] is added to the stem of its name, and the
    result is never the path of the workbook itself.  There is no default
    path exactly when the path has no name. *)
Theorem default_backup_path_spec p bk :
  default_backup_path p = Some bk ->
  path_name p <> [] /\
  path_stem (path_name p) ++ path_suffix (path_name p) = path_name p /\
  (exists dir,
     p = dir ++ path_stem (path_name p) ++ path_suffix (path_name p) /\
     bk = dir ++ path_stem (path_name p) ++ py "_backup" ++ path_suffix (path_name p)) /\
  length bk = (length p + 7)%nat /\
  bk <> p.
Proof.
  intros H. pose proof (default_backup_path_ne _ _ H) as NE.
  unfold default_backup_path in H.
  apply with_name_some in H as (Hn & dir & Hp & ->).
  split; [exact Hn|]. split; [apply stem_suffix|].
  split; [exists dir; rewrite stem_suffix; split; [exact Hp | reflexivity]|].
  split; [|exact NE].
  remember (path_name p) as name eqn:En. clear En.
  pose proof (f_equal (@length N) (stem_suffix name)) as Hl.
  rewrite Hp. rewrite !length_app in *. cbn. lia.
Qed.

(** ** Running the methods *)

Ltac run_L :=
  unfold bind, try_except, ret, raise, get_self, get_world, update_world,
    logger in *; cbn [fst snd] in *.

Lemma lift_inv {A} (c : Bridge.M A) s r s' :
  lift c s = (r, s') ->
  exists r0,
    c (fst s) = (r0, fst s') /\ snd s' = snd s /\
    r = match r0 with
        | Bridge.Ok a => Returned a
        | Bridge.Raise e => Raised (LibraryError e)
        end.
Proof.
  unfold lift. destruct (c (fst s)) as [[a|e] st]; intros [= <- <-];
    eexists; repeat split.
Qed.

(** ** [backup_original] *)

Lemma final_component_no_slash p :
  existsb (N.eqb slash) (final_component p) = false.
Proof.
  induction p as [|c p IH]; [reflexivity|]. cbn.
  destruct (existsb (N.eqb slash) p) eqn:E; [exact IH|].
  destruct (c =? slash)%N eqn:Ec; [exact E|].
  cbn [existsb]. rewrite N.eqb_sym, Ec. exact E.
Qed.

Lemma os_path_join_length a b :
  existsb (N.eqb slash) b = false ->
  (length a <= length (os_path_join a b))%nat.
Proof.
  intros Hb. unfold os_path_join.
  assert (H : match b with c :: _ => (c =? slash)%N | [] => false end = false).
  { destruct b as [|c b]; [reflexivity|]. cbn [existsb] in Hb.
    apply orb_false_iff in Hb as [Hc _]. rewrite N.eqb_sym. exact Hc. }
  rewrite H.
  destruct (match List.rev a with c :: _ => (c =? slash)%N | [] => true end);
    rewrite length_app; cbn; lia.
Qed.

Lemma default_backup_path_length p bk :
  default_backup_path p = Some bk -> length bk = (length p + 7)%nat.
Proof.
  unfold default_backup_path. intros H.
  apply with_name_some in H as (_ & dir & Hp & ->).
  remember (path_name p) as name eqn:En. clear En.
  pose proof (f_equal (@length N) (stem_suffix name)) as Hl.
  rewrite Hp. rewrite !length_app in *. cbn. lia.
Qed.

(** The copy of the workbook at its default backup path is never written
    over the workbook, even when a directory has the name of the backup. *)
Lemma copy_destination_default_ne src bk :
  default_backup_path src = Some bk -> copy_destination src bk <> src.
Proof.
  intros H E. apply default_backup_path_length in H.
  apply (f_equal (@length N)) in E. unfold copy_destination in E.
  destruct (os_path_isdir bk); [|lia].
  pose proof (os_path_join_length bk (os_path_basename src)
                (final_component_no_slash src)). lia.
Qed.

(** [backup_original], case by case. *)
Lemma backup_original_eq backup_path m w j :
  backup_original backup_path ((m, w), j) =
  let src := Bridge.excel_file_path m in
  let failed e := (Raised e, ((m, w), j ++ [(ERROR, MsgBackupError e)])) in
  match match backup_path with
        | Some p => Some p
        | None => default_backup_path src
        end with
  | None => failed (ValueError src)
  | Some bk =>
      match fs w !! src with
      | None => failed (LibraryError (FileNotFoundError src))
      | Some f =>
          if decide (src = copy_destination src bk)
          then failed (LibraryError (OSError (copy_destination src bk)))
          else if copy_fails src (copy_destination src bk)
          then failed (LibraryError (OSError (copy_destination src bk)))
          else (Returned tt,
                ((m, set_fs (<[copy_destination src bk := f]> (fs w)) w),
                 j ++ [(INFO, MsgBackupCreated bk)]))
      end
  end.
Proof.
  unfold backup_original, shutil_copy2. run_L. cbv zeta.
  set (src := Bridge.excel_file_path m).
  destruct backup_path as [bk|]; [|destruct (default_backup_path src) as [bk|]];
    cbn [fst snd]; try reflexivity.
  all: destruct (fs w !! src) as [f|]; [|reflexivity].
  all: destruct (decide (src = copy_destination src bk)); [reflexivity|].
  all: destruct (copy_fails src (copy_destination src bk)); reflexivity.
Qed.


(** ** [execute_update] *)

(** [execute_update], case by case. *)
Lemma execute_update_eq query m w j :
  execute_update query ((m, w), j) =
  let db := Bridge.db_path m in
  let failed e w0 :=
    (Raised e, ((m, w0), j ++ [(ERROR, MsgUpdateError e); (ERROR, MsgUpdateText query)])) in
  if engine_unreachable (faults w) then failed (LibraryError OperationalError) w
  else
    match fs w !! db with
    | Some (ExcelFile _) => failed (LibraryError DatabaseError) (touch_db db w)
    | _ =>
        let w1 := set_fs (snd (sql_exec db (fs (touch_db db w)) query)) (touch_db db w) in
        match fst (sql_exec db (fs (touch_db db w)) query) with
        | Bridge.Ok affected_rows =>
            (Returned affected_rows, ((m, w1), j ++ [(INFO, MsgUpdateDone affected_rows)]))
        | Bridge.Raise e => failed (LibraryError e) w1
        end
    end.
Proof.
  unfold execute_update, engine_execute. run_L. cbv zeta.
  destruct (engine_unreachable (faults w));
    [cbn; rewrite <- app_assoc; reflexivity|].
  cbn [fst snd]. rewrite Bridge.fs_touch_db.
  destruct (fs w !! Bridge.db_path m) as [[sh | t]|];
    [cbn; rewrite <- app_assoc; reflexivity|..]; cbn [fst snd];
    destruct (fst (sql_exec (Bridge.db_path m)
                     (fs (touch_db (Bridge.db_path m) w)) query));
    cbn; rewrite <- ?app_assoc; reflexivity.
Qed.


(** ** The [with] statement *)

Lemma with_manager_inv {A} (body : L A) m w j r s' :
  with_manager body ((m, w), j) = (r, s') ->
  (engine_unreachable (faults w) = true /\
   r = Raised (LibraryError OperationalError) /\
   s' = ((m, add_log ERROR (MsgConnectError OperationalError) w), j))
  \/
  (engine_unreachable (faults w) = false /\
   exists rb s2 rc,
     body ((Bridge.set_connection (Some Bridge.ConnOpen) m,
            add_log INFO MsgConnected (touch_db (Bridge.db_path m) w)), j)
       = (rb, s2) /\
     lift Bridge.close s2 = (rc, s') /\
     r = match rc with Returned _ => rb | Raised e => Raised e end).
Proof.
  unfold with_manager. unfold lift at 1. cbn [fst snd].
  rewrite BridgeFacts.connect_eq.
  destruct (engine_unreachable (faults w)).
  - intros [= <- <-]. left. repeat split.
  - intros H. right. split; [reflexivity|]. revert H.
    destruct (body _) as [rb s2].
    destruct (lift Bridge.close s2) as [[u|e] s3] eqn:Ec; intros [= <- <-].
    + exists rb, s2, (Returned u). repeat split. exact Ec.
    + exists rb, s2, (Raised e). repeat split. exact Ec.
Qed.

(** [__exit__] on a manager whose connection is open. *)
Lemma exit_eq m w j :
  Bridge.connection m = Some Bridge.ConnOpen ->
  lift Bridge.close ((m, w), j) =
  if release_fails (faults w)
  then (Raised (LibraryError OperationalError), ((m, w), j))
  else (Returned tt,
        ((Bridge.set_connection (Some Bridge.ConnClosed) m,
          Bridge.cleanup m (add_log INFO MsgClosed w)), j)).
Proof.
  intros Ec. unfold lift. cbn [fst snd]. rewrite Bridge.close_eq, Ec.
  destruct (release_fails (faults w)); reflexivity.
Qed.

(** What [__exit__] leaves of the files: the temporary database at most is
    deleted. *)
Lemma exit_files m w j rc s' :
  Bridge.connection m = Some Bridge.ConnOpen ->
  lift Bridge.close ((m, w), j) = (rc, s') ->
  snd s' = j /\
  faults (snd (fst s')) = faults w /\
  (forall p, p <> Bridge.db_path m -> fs (snd (fst s')) !! p = fs w !! p) /\
  (Bridge.temp_db m = true -> release_fails (faults w) = false ->
   remove_fails (faults w) (Bridge.db_path m) = false ->
   fs (snd (fst s')) = delete (Bridge.db_path m) (fs w)) /\
  (release_fails (faults w) = false <-> rc = Returned tt).
Proof.
  intros Ec. rewrite (exit_eq _ _ _ Ec).
  destruct (release_fails (faults w)); intros [= <- <-]; cbn [fst snd].
  - split; [reflexivity|]. split; [reflexivity|]. split; [reflexivity|].
    split; [discriminate|]. split; discriminate.
  - split; [reflexivity|].
    split; [rewrite Bridge.cleanup_faults; reflexivity|].
    rewrite Bridge.cleanup_fs. cbn [faults add_log fs].
    split; [|split; [|split; reflexivity]].
    + intros p NE.
      destruct (Bridge.temp_db m && negb (remove_fails (faults w) (Bridge.db_path m)));
        [|reflexivity].
      apply lookup_delete_ne. congruence.
    + intros -> _ ->. reflexivity.
Qed.

(** ** [quick_excel_query] *)

Lemma fs_touch_db_tables p w :
  (forall sh, fs w !! p <> Some (ExcelFile sh)) ->
  fs (touch_db p w) !! p = Some (SqliteFile (db_tables w p)).
Proof.
  intros Hnx. rewrite Bridge.fs_touch_db. unfold db_tables.
  destruct (fs w !! p) as [[sh | t]|] eqn:E; [|reflexivity..].
  exfalso. exact (Hnx sh eq_refl).
Qed.

Lemma quick_body sheet_names query s1 rb s2 :
  BridgeFacts.read_only_text sql_run (Bridge.db_path (fst (fst s1))) query ->
  (lift (Bridge.load_sheets_to_sql uni_isalpha uni_isnumeric sheet_names) ;;;
   lift (Bridge.execute_query sql_run query)) s1 = (rb, s2) ->
  BridgeFacts.keeps (fst s1) (fst s2) /\ snd s2 = snd s1 /\
  (forall df, rb = Returned df ->
     exists st,
       Bridge.load_sheets_to_sql uni_isalpha uni_isnumeric sheet_names (fst s1)
         = (Bridge.Ok tt, st) /\
       (forall sh, fs (snd st) !! Bridge.db_path (fst st) <> Some (ExcelFile sh)) /\
       Bridge.answer sql_run (fst st) (snd st) query = Bridge.Ok df).
Proof.
  intros RO. unfold bind.
  destruct (lift (Bridge.load_sheets_to_sql uni_isalpha uni_isnumeric sheet_names) s1)
    as [[u|e] sa] eqn:El; apply lift_inv in El as (r0 & El & Ej & Er).
  - destruct r0 as [[]|]; [|discriminate].
    pose proof (BridgeFacts.load_sheets_to_sql_keeps _ _ _ _ _ _ El) as K1.
    intros Hq. apply lift_inv in Hq as (r1 & Hq & Ej2 & Er2).
    assert (RO' : BridgeFacts.read_only_text sql_run (Bridge.db_path (fst (fst sa))) query).
    { destruct K1 as (_ & _ & -> & _). exact RO. }
    pose proof (BridgeFacts.execute_query_keeps _ _ _ _ _ RO' Hq) as [K2 _].
    split; [exact (BridgeFacts.keeps_trans _ _ _ K1 K2)|].
    split; [rewrite Ej2; exact Ej|]. intros df ->.
    destruct r1 as [df'|]; [|discriminate]. injection Er2 as ->.
    exists (fst sa). split; [exact El|].
    destruct (fst sa) as [ma wa].
    split; [exact (BridgeFacts.execute_query_ok_db _ _ _ _ _ _ Hq)|].
    apply Bridge.execute_query_ok in Hq as [_ Q]. exact Q.
  - intros [= <- <-].
    pose proof (BridgeFacts.load_sheets_to_sql_keeps _ _ _ _ _ _ El) as K1.
    split; [exact K1|]. split; [exact Ej|]. discriminate.
Qed.

(** [quick_excel_query] with a query that only reads changes no file:
    whatever the outcome, every file but the temporary database is as before,
    and when the name of the temporary database was free and the connection
    and the file can be released, the file system is exactly as before.  When
    it returns, the result is the answer of the engine to the query, run
    where the database holds the tables written for the sheets to load, as
    the reader has returned them, and the other files are as before; and it
    does return that answer when the workbook exists, the engine can be
    reached at a path that holds no workbook, accepts the sheets and answers
    the query, and the connection can be released. *)
Theorem quick_excel_query_spec excel_path query sheet_names tmp w j r s' :
  BridgeFacts.read_only_text sql_run tmp query ->
  quick_excel_query excel_path query sheet_names tmp w j = (r, s') ->
  (forall p, p <> tmp -> fs (snd (fst s')) !! p = fs w !! p) /\
  (fs w !! tmp = None -> release_fails (faults w) = false ->
   remove_fails (faults w) tmp = false -> fs (snd (fst s')) = fs w) /\
  (forall df, r = Returned df ->
     exists stored f,
       Bridge.workbook w excel_path = Some stored /\
       f !! tmp = Some (SqliteFile
                          (Bridge.materialize uni_isalpha uni_isnumeric
                             (Bridge.read_workbook (faults w) stored)
                             (db_tables w tmp)
                             (BridgeFacts.sheets_to_load sheet_names
                                (Bridge.read_workbook (faults w) stored)))) /\
       (forall p, p <> tmp -> f !! p = fs w !! p) /\
       fst (sql_run tmp f query) = Bridge.Ok df) /\
  (forall stored df,
     Bridge.workbook w excel_path = Some stored ->
     Bridge.db_ready w tmp ->
     release_fails (faults w) = false ->
     (forall n d,
        In n (BridgeFacts.sheets_to_load sheet_names
                (Bridge.read_workbook (faults w) stored)) ->
        dict_get n (Bridge.read_workbook (faults w) stored) = Some d ->
        to_sql_fails (faults w) (Bridge.clean uni_isalpha uni_isnumeric n) d = false) ->
     (forall f,
        f !! tmp = Some (SqliteFile
                           (Bridge.materialize uni_isalpha uni_isnumeric
                              (Bridge.read_workbook (faults w) stored)
                              (db_tables w tmp)
                              (BridgeFacts.sheets_to_load sheet_names
                                 (Bridge.read_workbook (faults w) stored)))) ->
        (forall p, p <> tmp -> f !! p = fs w !! p) ->
        fst (sql_run tmp f query) = Bridge.Ok df) ->
     r = Returned df).
Proof.
  intros RO.
  unfold quick_excel_query, new_manager, Bridge.__init__.
  set (m0 := {| Bridge.excel_file_path := excel_path;
                Bridge.original_excel_data := []; Bridge.modified_data := [];
                Bridge.temp_db := true; Bridge.db_path := tmp;
                Bridge.connection := None |}).
  change (Bridge.db_path m0) with tmp.
  set (w0 := add_log INFO (MsgDatabase tmp)
               (add_log INFO (MsgInitialised excel_path) w)).
  intros H. apply with_manager_inv in H as [(Hu & -> & ->) | (Hreach & rb & s2 & rc & Hb & Hc & ->)].
  { cbn. split; [reflexivity|]. split; [reflexivity|]. split; [discriminate|].
    intros sheets df _ [Hr _]. cbn in Hu. congruence. }
  change (Bridge.db_path m0) with tmp in Hb.
  set (m1 := Bridge.set_connection (Some Bridge.ConnOpen) m0) in Hb.
  set (w1 := add_log INFO MsgConnected (touch_db tmp w0)) in Hb.
  assert (Hw1 : BridgeFacts.wkeeps tmp w w1) by exact (BridgeFacts.wkeeps_touch tmp w0).
  assert (Hwb1 : forall p, Bridge.workbook w1 p = Bridge.workbook w p)
    by (intros p; exact (Bridge.workbook_touch tmp w0 p)).
  assert (Ht1 : db_tables w1 tmp = db_tables w tmp)
    by exact (Bridge.db_tables_touch tmp w0 tmp).
  assert (Hf1 : faults w1 = faults w) by exact (Bridge.faults_touch tmp w0).
  pose proof (quick_body sheet_names query ((m1, w1), j) rb s2 RO Hb)
    as (K & Ej & Hres).
  cbn [fst snd] in K, Ej, Hres.
  destruct s2 as [[m2 w2] j2]. cbn [fst snd] in K, Ej.
  destruct K as (_ & Kt & Kd & Kc & Kw). cbn [fst snd] in Kt, Kd, Kc, Kw.
  change (Bridge.db_path m1) with tmp in Kd, Kw.
  pose proof (BridgeFacts.wkeeps_trans _ _ _ _ Hw1 Kw) as (F2 & O2 & _ & _).
  pose proof (exit_files m2 w2 j2 rc s' Kc Hc) as (_ & _ & O3 & D3 & R3).
  rewrite Kd in O3, D3. rewrite F2 in D3, R3.
  split; [intros p NE; rewrite O3, O2 by exact NE; reflexivity|].
  split.
  { intros Hfresh Hrel Hrem. rewrite D3 by assumption.
    apply map_eq. intros p. destruct (decide (p = tmp)) as [-> | NE].
    - rewrite lookup_delete_eq, Hfresh. reflexivity.
    - rewrite lookup_delete_ne by congruence. apply O2, NE. }
  split.
  { intros df Hr. destruct rc as [u|e]; [|discriminate].
    destruct (Hres df Hr) as (st & Hl & Hnx & Q).
    pose proof (BridgeFacts.load_sheets_to_sql_keeps _ _ _ _ _ _ Hl)
      as (_ & _ & Ed & _ & _ & Ol & _ & _).
    cbn [fst snd] in Ed, Ol. change (Bridge.db_path m1) with tmp in Ed, Ol.
    pose proof (BridgeFacts.load_sheets_to_sql_returns _ _ _ _ _ _ Hl)
      as (sheets & Hm & T).
    cbn [Bridge.original_excel_data m1 m0 Bridge.set_connection] in Hm.
    destruct Hm as [(stored & Hs & ->) Est].
    rewrite Hf1 in *.
    exists stored, (fs (touch_db tmp (snd st))).
    split; [rewrite <- Hwb1; exact Hs|].
    unfold Bridge.answer in Q. rewrite Ed in Hnx, Q.
    split.
    { rewrite (fs_touch_db_tables _ _ Hnx).
      change (Bridge.db_path m1) with tmp in T. rewrite T, Ht1. reflexivity. }
    split.
    { intros p NE. destruct (BridgeFacts.wkeeps_touch tmp (snd st)) as (_ & Ot & _).
      rewrite Ot by exact NE. rewrite Ol by exact NE.
      destruct Hw1 as (_ & O1 & _). apply O1, NE. }
    exact Q. }
  intros stored df Hwb [_ Hnx] Hrel Hsql Q.
  destruct (BridgeFacts.load_sheets_to_sql_ok uni_isalpha uni_isnumeric
              sheet_names m1 w1 stored (Bridge.read_workbook (faults w) stored))
    as [wl Hl].
  { reflexivity. }
  { rewrite Hwb1. exact Hwb. }
  { rewrite Hf1. reflexivity. }
  { split; [rewrite (proj1 Hw1); exact Hreach|]. intros sh E.
    change (fs (touch_db tmp w0) !! tmp = Some (ExcelFile sh)) in E.
    rewrite Bridge.fs_touch_db in E. change (fs w0) with (fs w) in E.
    destruct (fs w !! tmp) as [f|] eqn:Ef; [|discriminate].
    injection E as ->. exact (Hnx sh eq_refl). }
  { intros n d Hn Hd. rewrite Hf1. apply Hsql; assumption. }
  pose proof (BridgeFacts.load_sheets_to_sql_keeps _ _ _ _ _ _ Hl)
    as (_ & _ & _ & _ & Fl & Ol & _ & Sl).
  cbn [fst snd] in Fl, Ol, Sl. change (Bridge.db_path m1) with tmp in Ol, Sl.
  pose proof (BridgeFacts.load_sheets_to_sql_returns _ _ _ _ _ _ Hl)
    as (sheets' & Hm & T).
  cbn [Bridge.original_excel_data m1 m0 Bridge.set_connection] in Hm.
  destruct Hm as [(stored' & Hs & ->) _]. rewrite Hwb1 in Hs.
  change (Bridge.workbook w excel_path = Some stored') in Hs.
  rewrite Hwb in Hs. injection Hs as <-. rewrite Hf1 in T.
  cbn [snd] in T. change (Bridge.db_path m1) with tmp in T. rewrite Ht1 in T.
  assert (Hnxl : forall sh, fs wl !! tmp <> Some (ExcelFile sh)).
  { intros sh E.
    assert (exists t, fs w1 !! tmp = Some (SqliteFile t)) as [t Et].
    { change (fs w1) with (fs (touch_db tmp w0)). rewrite Bridge.fs_touch_db.
      change (fs w0) with (fs w).
      destruct (fs w !! tmp) as [[sh0 | t]|] eqn:Ef; eauto.
      exfalso. exact (Hnx sh0 eq_refl). }
    destruct (Sl t Et) as [t' Et']. congruence. }
  unfold bind in Hb. unfold lift at 1 in Hb. cbn [fst snd] in Hb.
  rewrite Hl in Hb. unfold lift in Hb. cbn [fst snd] in Hb.
  rewrite (Bridge.execute_query_returns sql_run query _ wl df) in Hb.
  - injection Hb as <- _. apply R3 in Hrel. rewrite Hrel. reflexivity.
  - rewrite Fl, Hf1. exact Hreach.
  - exact Hnxl.
  - unfold Bridge.answer. cbn [Bridge.db_path Bridge.set_loaded].
    change (Bridge.db_path m1) with tmp. apply Q.
    + rewrite (fs_touch_db_tables _ _ Hnxl), T. reflexivity.
    + intros p NE. destruct (BridgeFacts.wkeeps_touch tmp wl) as (_ & Ot & _).
      rewrite Ot by exact NE. rewrite Ol by exact NE.
      destruct Hw1 as (_ & O1 & _). apply O1, NE.
Qed.

(** ** [update_excel_with_query] *)

Lemma backup_original_returns backup_path m w j s' :
  backup_original backup_path ((m, w), j) = (Returned tt, s') ->
  exists bk f,
    match backup_path with
    | Some p => bk = p
    | None => default_backup_path (Bridge.excel_file_path m) = Some bk
    end /\
    copy_destination (Bridge.excel_file_path m) bk <> Bridge.excel_file_path m /\
    fs w !! Bridge.excel_file_path m = Some f /\
    s' = ((m, set_fs (<[copy_destination (Bridge.excel_file_path m) bk := f]> (fs w)) w),
          j ++ [(INFO, MsgBackupCreated bk)]).
Proof.
  rewrite backup_original_eq. cbv zeta.
  set (src := Bridge.excel_file_path m).
  assert (Hcopy : forall bk,
    match fs w !! src with
    | None =>
        (Raised (LibraryError (FileNotFoundError src)),
         ((m, w), j ++ [(ERROR, MsgBackupError (LibraryError (FileNotFoundError src)))]))
    | Some f =>
        if decide (src = copy_destination src bk)
        then (Raised (LibraryError (OSError (copy_destination src bk))),
              ((m, w), j ++ [(ERROR, MsgBackupError
                                       (LibraryError (OSError (copy_destination src bk))))]))
        else if copy_fails src (copy_destination src bk)
        then (Raised (LibraryError (OSError (copy_destination src bk))),
              ((m, w), j ++ [(ERROR, MsgBackupError
                                       (LibraryError (OSError (copy_destination src bk))))]))
        else (Returned tt,
              ((m, set_fs (<[copy_destination src bk := f]> (fs w)) w),
               j ++ [(INFO, MsgBackupCreated bk)]))
    end = (Returned tt, s') ->
    exists f, copy_destination src bk <> src /\ fs w !! src = Some f /\
      s' = ((m, set_fs (<[copy_destination src bk := f]> (fs w)) w),
            j ++ [(INFO, MsgBackupCreated bk)])).
  { intros bk. destruct (fs w !! src) as [f|]; [|discriminate].
    destruct (decide (src = copy_destination src bk)) as [E | NE]; [discriminate|].
    destruct (copy_fails src (copy_destination src bk)); [discriminate|].
    intros [= <-]. exists f. repeat split. congruence. }
  destruct backup_path as [bk|].
  - intros H. destruct (Hcopy bk H) as (f & NE & Ef & ->).
    exists bk, f. repeat split; assumption.
  - destruct (default_backup_path src) as [bk|] eqn:Eb; [|discriminate].
    intros H. destruct (Hcopy bk H) as (f & NE & Ef & ->).
    exists bk, f. repeat split; assumption.
Qed.

(** When [update_excel_with_query] returns, with a query that only reads:
    the workbook existed; the sheet [sheet_name] of the workbook written at
    the output path (the path of the workbook itself when no output path is
    given) is the answer of the engine to the query, run where the database
    holds the tables of all the sheets as the reader has returned them, and
    its other sheets are those that the reader has returned, in the same
    order; with [backup], the file that the copy to [<stem>_backup<suffix>]
    beside the workbook has written holds the workbook as it was before the
    call; every other file but the temporary database is as before, and the
    temporary database is gone when it can be deleted. *)
Theorem update_excel_with_query_spec excel_path sheet_name query output_path
    backup tmp w j s' :
  BridgeFacts.read_only_text sql_run tmp query ->
  update_excel_with_query excel_path sheet_name query output_path backup tmp w j
    = (Returned tt, s') ->
  let out := match output_path with
             | Some (c :: p) => c :: p
             | Some [] | None => excel_path
             end in
  exists stored df f,
    Bridge.workbook w excel_path = Some stored /\
    f !! tmp = Some (SqliteFile
                       (Bridge.materialize uni_isalpha uni_isnumeric
                          (Bridge.read_workbook (faults w) stored)
                          (db_tables w tmp)
                          (dict_keys (Bridge.read_workbook (faults w) stored)))) /\
    fst (sql_run tmp f query) = Bridge.Ok df /\
    (out <> tmp ->
       Bridge.workbook (snd (fst s')) out
         = Some (dict_set sheet_name df (Bridge.read_workbook (faults w) stored))) /\
    (backup = true ->
       exists bk,
         default_backup_path excel_path = Some bk /\
         copy_destination excel_path bk <> excel_path /\
         copy_destination excel_path bk <> tmp /\
         (copy_destination excel_path bk <> out ->
            Bridge.workbook (snd (fst s')) (copy_destination excel_path bk)
              = Some stored)) /\
    (forall p, p <> tmp -> p <> out ->
       (backup = true ->
          forall bk, default_backup_path excel_path = Some bk ->
                     p <> copy_destination excel_path bk) ->
       fs (snd (fst s')) !! p = fs w !! p) /\
    (remove_fails (faults w) tmp = false -> fs (snd (fst s')) !! tmp = None).
Proof.
  intros RO H out. revert H.
  unfold update_excel_with_query, new_manager, Bridge.__init__.
  set (m0 := {| Bridge.excel_file_path := excel_path;
                Bridge.original_excel_data := []; Bridge.modified_data := [];
                Bridge.temp_db := true; Bridge.db_path := tmp;
                Bridge.connection := None |}).
  change (Bridge.db_path m0) with tmp.
  set (w0 := add_log INFO (MsgDatabase tmp)
               (add_log INFO (MsgInitialised excel_path) w)).
  intros H.
  apply with_manager_inv in H as [(_ & [=] & _) | (Hreach & rb & s2 & rc & Hb & Hc & Hr)].
  destruct rc as [[]|]; [|discriminate]. subst rb.
  change (Bridge.db_path m0) with tmp in Hb.
  set (m1 := Bridge.set_connection (Some Bridge.ConnOpen) m0) in Hb.
  set (w1 := add_log INFO MsgConnected (touch_db tmp w0)) in Hb.
  assert (Hw1 : BridgeFacts.wkeeps tmp w w1) by exact (BridgeFacts.wkeeps_touch tmp w0).
  assert (Ht1 : db_tables w1 tmp = db_tables w tmp)
    by exact (Bridge.db_tables_touch tmp w0 tmp).
  destruct Hw1 as (F1 & O1 & _ & _).
  (* the backup *)
  unfold bind at 1 in Hb.
  destruct ((if backup then backup_original None else ret tt) ((m1, w1), j))
    as [[[]|e] sa] eqn:Eb; [|discriminate].
  assert (Hbk : exists wa ja,
    sa = ((m1, wa), ja) /\
    faults wa = faults w1 /\
    (if backup
     then exists bk f, default_backup_path excel_path = Some bk /\
            copy_destination excel_path bk <> excel_path /\
            fs w1 !! excel_path = Some f /\
            fs wa = <[copy_destination excel_path bk := f]> (fs w1)
     else fs wa = fs w1)).
  { destruct backup.
    - apply backup_original_returns in Eb as (bk & f & Hd & NE & Ef & ->).
      eexists _, _. split; [reflexivity|]. split; [reflexivity|].
      exists bk, f. repeat split; assumption.
    - injection Eb as <-. exists w1, j. repeat split. }
  destruct Hbk as (wa & ja & -> & Fa & Hfa). clear Eb.
  (* the sheets *)
  unfold bind at 1 in Hb.
  destruct (lift (Bridge.load_sheets_to_sql uni_isalpha uni_isnumeric None)
              ((m1, wa), ja)) as [[u|e] sb] eqn:El; [|discriminate].
  apply lift_inv in El as (r0 & El & _ & Er). cbn [fst] in El.
  destruct r0 as [[]|]; [|discriminate]. clear Er.
  destruct sb as [[mb wb] jb]. cbn [fst] in El.
  pose proof (BridgeFacts.load_sheets_to_sql_keeps _ _ _ _ _ _ El)
    as (_ & Kt & Kd & Kc & Fb & Ob & Xb & _).
  cbn [fst snd] in Kt, Kd, Kc, Fb, Ob, Xb.
  change (Bridge.db_path m1) with tmp in Kd, Ob, Xb.
  apply BridgeFacts.load_sheets_to_sql_returns in El as (sheets & Hm & T).
  cbn [Bridge.original_excel_data m1 m0 Bridge.set_connection fst snd] in Hm, T.
  destruct Hm as [(stored & Hs & Esh) ->]. change (Bridge.db_path m1) with tmp in T.
  change (Bridge.excel_file_path m1) with excel_path in Hs.
  rewrite Fa, F1 in Esh. subst sheets.
  set (sheets := Bridge.read_workbook (faults w) stored) in *.
  (* the query *)
  unfold bind at 1 in Hb.
  match type of Hb with
  | context [lift (Bridge.update_sheet_from_query sql_run sheet_name query) ?s] =>
      destruct (lift (Bridge.update_sheet_from_query sql_run sheet_name query) s)
        as [[u'|e] sc] eqn:Eu; [|discriminate]
  end.
  apply lift_inv in Eu as (r0 & Eu & _ & Er). cbn [fst] in Eu.
  destruct r0 as [[]|]; [|discriminate]. clear Er.
  destruct sc as [[mc wc] jc]. cbn [fst] in Eu.
  apply Bridge.update_sheet_from_query_ok in Eu as (df & Eq & Q & -> & ->).
  pose proof (BridgeFacts.execute_query_ok_db _ _ _ _ _ _ Eq) as Hnx.
  unfold Bridge.answer in Q.
  cbn [Bridge.db_path Bridge.set_loaded] in Q, Hnx.
  change (Bridge.db_path m1) with tmp in Q, Hnx. clear Eq.
  assert (Haq : fs (Bridge.after_query sql_run (Bridge.set_loaded sheets sheets m1) wb query)
                = fs (touch_db tmp wb)).
  { unfold Bridge.after_query. cbn [fs set_fs Bridge.db_path Bridge.set_loaded].
    change (Bridge.db_path m1) with tmp. apply RO. }
  (* the file *)
  apply lift_inv in Hb as (r0 & Hsv & _ & Er). cbn [fst] in Hsv.
  destruct s2 as [[md wd] jd]. cbn [fst] in Hsv.
  destruct r0 as [[]|]; [|discriminate]. clear Er.
  apply Bridge.save_excel_ok in Hsv as [-> ->].
  cbn [Bridge.db_path Bridge.set_loaded Bridge.set_modified_data
       Bridge.modified_data Bridge.original_excel_data] in Hc.
  change (Bridge.save_path_of output_path _) with out in Hc.
  (* the end of the block *)
  match type of Hc with lift Bridge.close ((?m, ?w), _) = _ =>
    pose proof (exit_files m w _ _ s' eq_refl Hc) as (_ & _ & O3 & D3 & R3)
  end.
  cbn [Bridge.db_path Bridge.set_loaded Bridge.set_modified_data
       Bridge.set_connection m1 m0 Bridge.temp_db faults add_log set_fs fs]
    in O3, D3, R3.
  pose proof (proj2 R3 eq_refl) as Hrc. clear R3 Hc.
  rewrite (Bridge.faults_after_query sql_run), Fb, Fa, F1 in D3, Hrc.
  rewrite Haq in O3, D3.
  (* the files, step by step *)
  assert (Hd : forall p, p <> tmp -> p <> out ->
            fs (snd (fst s')) !! p = fs wa !! p).
  { intros p NEt NEo. rewrite O3 by exact NEt.
    rewrite lookup_insert_ne by congruence.
    destruct (BridgeFacts.wkeeps_touch tmp wb) as (_ & Ot & _).
    rewrite Ot by exact NEt. apply Ob, NEt. }
  assert (Hout : out <> tmp ->
            Bridge.workbook (snd (fst s')) out = Some (dict_set sheet_name df sheets)).
  { intros NE. unfold Bridge.workbook. rewrite O3 by exact NE.
    rewrite lookup_insert_eq. reflexivity. }
  assert (Hgone : remove_fails (faults w) tmp = false ->
            fs (snd (fst s')) !! tmp = None).
  { intros Hrm. rewrite D3 by auto. apply lookup_delete_eq. }
  exists stored, df, (fs (touch_db tmp wb)).
  assert (Hf : fs (touch_db tmp wb) !! tmp = Some (SqliteFile (db_tables wb tmp)))
    by exact (fs_touch_db_tables _ _ Hnx).
  destruct backup.
  - destruct Hfa as (bk & f & Hdef & NEx & Ef & Efa).
    set (dst := copy_destination excel_path bk) in *.
    assert (Eex : fs wa !! excel_path = Some f).
    { rewrite Efa, lookup_insert_ne by exact NEx. exact Ef. }
    assert (f = ExcelFile stored) as ->.
    { unfold Bridge.workbook in Hs. rewrite Eex in Hs.
      destruct f; congruence. }
    assert (NEt : dst <> tmp).
    { intros E. apply (Hnx stored), Xb. rewrite Efa, E. apply lookup_insert_eq. }
    split.
    { unfold Bridge.workbook.
      destruct (decide (excel_path = tmp)) as [-> | NE].
      - exfalso. apply (Hnx stored), Xb. exact Eex.
      - rewrite <- O1 by exact NE. rewrite Ef. reflexivity. }
    split.
    { rewrite Hf, T. do 3 f_equal. rewrite <- Ht1. unfold db_tables.
      rewrite Efa, lookup_insert_ne by exact NEt. reflexivity. }
    split; [exact Q|].
    split; [exact Hout|]. split.
    { intros _. exists bk. split; [exact Hdef|]. split; [exact NEx|].
      split; [exact NEt|]. intros NEo. unfold Bridge.workbook.
      rewrite Hd by assumption. rewrite Efa, lookup_insert_eq. reflexivity. }
    split; [|exact Hgone].
    intros p NEp NEo Hp. rewrite Hd by assumption.
    rewrite Efa, lookup_insert_ne.
    + apply O1, NEp.
    + intros E. exact (Hp eq_refl bk Hdef (eq_sym E)).
  - split.
    { unfold Bridge.workbook in Hs |- *. rewrite Hfa in Hs.
      destruct (decide (excel_path = tmp)) as [-> | NE].
      - exfalso. destruct (fs w1 !! tmp) as [[sh | t]|] eqn:E1; try discriminate.
        injection Hs as ->. apply (Hnx stored), Xb. rewrite Hfa. exact E1.
      - rewrite <- O1 by exact NE. exact Hs. }
    split.
    { rewrite Hf, T. do 3 f_equal. rewrite <- Ht1. unfold db_tables.
      rewrite Hfa. reflexivity. }
    split; [exact Q|].
    split; [exact Hout|]. split; [discriminate|].
    split; [|exact Hgone].
    intros p NEp NEo _. rewrite Hd by assumption. rewrite Hfa. apply O1, NEp.
Qed.

End Engine.

(** ** A run of the utility functions *)

(** A toy engine for [execute_update]: [DELETE FROM t] empties the table [t]
    and counts its rows; any other text, and an unknown table, is an
    [OperationalError]. *)
Definition delete_engine (db : pystr) (f : gmap pystr file) (query : pystr)
    : Bridge.result Z * gmap pystr file :=
  match f !! db with
  | Some (SqliteFile t) =>
      match Bridge.strip_prefix (py "DELETE FROM ") query with
      | Some name =>
          match t !! name with
          | Some df =>
              (Bridge.Ok (Z.of_nat (len df)),
               <[db := SqliteFile
                         (<[name := {| columns := columns df; rows := [] |}]> t)]> f)
          | None => (Bridge.Raise OperationalError, f)
          end
      | None => (Bridge.Raise OperationalError, f)
      end
  | _ => (Bridge.Raise DatabaseError, f)
  end.

(** No path is a directory, and no copy fails. *)
Definition no_directory (p : pystr) : bool := false.
Definition never_fails (src dst : pystr) : bool := false.

(** A workbook of two sheets. *)
Definition office_workbook : dict DataFrame :=
  [(py "Sales", Bridge.sales_df); (py "Top", Bridge.top_df)].

Definition office : World :=
  {| fs := <[py "data/book.xlsx" := ExcelFile office_workbook]> ∅;
     faults := Bridge.no_faults; log := [] |}.

Definition office_manager : Bridge.Manager :=
  {| Bridge.excel_file_path := py "data/book.xlsx";
     Bridge.original_excel_data := []; Bridge.modified_data := [];
     Bridge.temp_db := true; Bridge.db_path := py "tmp9.db";
     Bridge.connection := Some Bridge.ConnOpen |}.

(** The toy engine of [Bridge] writes nothing when it is asked for a
    table. *)
Lemma toy_engine_select db name :
  BridgeFacts.read_only_text Bridge.toy_engine db (py "SELECT * FROM " ++ name).
Proof.
  intros f. unfold Bridge.toy_engine.
  assert (E : forall pre s, Bridge.strip_prefix pre (pre ++ s) = Some s).
  { induction pre as [|a pre IH]; intros s0; [reflexivity|]. cbn.
    rewrite decide_True by reflexivity. apply IH. }
  rewrite E.
  destruct (f !! db) as [[sh | t]|]; [reflexivity| |reflexivity].
  destruct (t !! name); reflexivity.
Qed.

Lemma default_backup_path_spec_witness :
  default_backup_path (py "data/book.xlsx") = Some (py "data/book_backup.xlsx") /\
  py "data/book_backup.xlsx" <> py "data/book.xlsx".
Proof.
  assert (H : default_backup_path (py "data/book.xlsx")
              = Some (py "data/book_backup.xlsx")) by (vm_compute; reflexivity).
  split; [exact H|].
  exact (proj2 (proj2 (proj2 (proj2 (default_backup_path_spec _ _ H))))).
Defined.


(** A backup path that is a directory: the copy is written in it, under the
    name of the workbook. *)
Lemma backup_original_into_directory :
  fs (snd (fst (snd (backup_original
                       (fun p => bool_decide (p = py "backups")) never_fails
                       (Some (py "backups")) ((office_manager, office), [])))))
    !! py "backups/book.xlsx" = Some (ExcelFile office_workbook).
Proof. vm_compute. reflexivity. Qed.

(** A session in which the sheets are loaded. *)
Definition loaded_session : Session :=
  (Bridge.demo_state, []).


Lemma quick_excel_query_spec_witness :
  fst (quick_excel_query (fun _ => false) (fun _ => false) Bridge.toy_engine
         (py "data/book.xlsx") (py "SELECT * FROM Sales") None (py "tmp9.db")
         office [])
    = Returned Bridge.sales_df /\
  fs (snd (fst (snd
       (quick_excel_query (fun _ => false) (fun _ => false) Bridge.toy_engine
          (py "data/book.xlsx") (py "SELECT * FROM Sales") None (py "tmp9.db")
          office []))))
    = fs office.
Proof.
  pose (run := quick_excel_query (fun _ => false) (fun _ => false)
                 Bridge.toy_engine (py "data/book.xlsx")
                 (py "SELECT * FROM Sales") None (py "tmp9.db") office []).
  assert (H : quick_excel_query (fun _ => false) (fun _ => false)
                Bridge.toy_engine (py "data/book.xlsx")
                (py "SELECT * FROM Sales") None (py "tmp9.db") office []
              = (fst run, snd run)) by (vm_compute; reflexivity).
  destruct (quick_excel_query_spec _ _ _ _ _ _ _ _ _ _ _
              (toy_engine_select (py "tmp9.db") (py "Sales")) H)
    as (_ & Hfs & _ & Hret).
  split.
  - apply (Hret office_workbook).
    + vm_compute. reflexivity.
    + split; [reflexivity|]. intros sh. vm_compute. discriminate.
    + reflexivity.
    + intros n d _ _. reflexivity.
    + intros f Ef _. unfold Bridge.toy_engine. rewrite Ef. vm_compute. reflexivity.
  - apply Hfs; vm_compute; reflexivity.
Defined.

Lemma update_excel_with_query_spec_witness :
  exists s',
    update_excel_with_query (fun _ => false) (fun _ => false) Bridge.toy_engine
      no_directory never_fails (py "data/book.xlsx") (py "Sales")
      (py "SELECT * FROM Top") None true (py "tmp9.db") office []
      = (Returned tt, s') /\
    Bridge.workbook (snd (fst s')) (py "data/book.xlsx")
      = Some [(py "Sales", Bridge.top_df); (py "Top", Bridge.top_df)] /\
    Bridge.workbook (snd (fst s')) (py "data/book_backup.xlsx")
      = Some office_workbook /\
    fs (snd (fst s')) !! py "tmp9.db" = None.
Proof.
  pose (run := update_excel_with_query (fun _ => false) (fun _ => false)
                 Bridge.toy_engine no_directory never_fails (py "data/book.xlsx")
                 (py "Sales") (py "SELECT * FROM Top") None true
                 (py "tmp9.db") office []).
  assert (H : update_excel_with_query (fun _ => false) (fun _ => false)
                Bridge.toy_engine no_directory never_fails (py "data/book.xlsx")
                (py "Sales") (py "SELECT * FROM Top") None true
                (py "tmp9.db") office []
              = (Returned tt, snd run)) by (vm_compute; reflexivity).
  destruct (update_excel_with_query_spec _ _ _ _ _ _ _ _ _ _ _ _ _ _
              (toy_engine_select (py "tmp9.db") (py "Top")) H)
    as (stored & df & f & Hs & Ef & Q & Hout & Hbk & _ & Hgone).
  assert (stored = office_workbook) as ->
    by (vm_compute in Hs; injection Hs as Hs; rewrite <- Hs; reflexivity).
  assert (df = Bridge.top_df) as ->.
  { unfold Bridge.toy_engine in Q. rewrite Ef in Q. vm_compute in Q.
    injection Q as Q. rewrite <- Q. reflexivity. }
  exists (snd run). split; [exact H|].
  split; [rewrite Hout by discriminate; vm_compute; reflexivity|].
  split; [|apply Hgone; reflexivity].
  destruct (Hbk eq_refl) as (bk & Hd & _ & _ & Hb).
  assert (bk = py "data/book_backup.xlsx") as ->
    by (vm_compute in Hd; injection Hd as Hd; rewrite <- Hd; reflexivity).
  apply Hb. discriminate.
Defined.

End Lifecycle.

(* ===================================================================== *)
(** * [DataCleaningQueries] and the queries that find what they clean *)
(* ===================================================================== *)

Module Cleaning.
Import Quality.

(** The statements are given the meaning they have in SQLite on a table, as
    the queries of the other modules are.  A value that a statement stores
    in a column is converted as the declared type of the column asks: the
    conversion is a parameter of the statements that store. *)

(** ** Missing values *)

(** [c IS NULL] *)
Definition is_null (c : cell) : bool :=
  match c with NULL => true | _ => false end.

(** [c = ''], unknown on NULL; a number is never equal to a text. *)
Definition eq_empty (c : cell) : option bool :=
  match c with
  | NULL => None
  | Int _ => Some false
  | Text s => Some (bool_decide (s = []))
  end.

(** Three-valued [OR]. *)
Definition sql_or (a b : option bool) : option bool :=
  match a, b with
  | Some true, _ | _, Some true => Some true
  | Some false, Some false => Some false
  | _, _ => None
  end.

(** [WHERE col IS NULL OR col = ''] on the cell of the row. *)
Definition where_missing (c : cell) : bool :=
  where_true (sql_or (Some (is_null c)) (eq_empty c)).

(** [SQLQueryBuilder.find_missing_values(table_name, column)]:
    [SELECT * FROM t WHERE col IS NULL OR col = '']; nothing when the table
    has no such column. *)
Definition find_missing_values (df : DataFrame) (column : pystr)
    : option DataFrame :=
  match col_index (columns df) column with
  | Some i =>
      Some {| columns := columns df;
              rows := List.filter (fun row => where_missing (nth i row NULL))
                        (rows df) |}
  | None => None
  end.

(** Every row of the table has one cell per column. *)
Definition rectangular (df : DataFrame) : Prop :=
  Forall (fun row => length row = length (columns df)) (rows df).

(** ** Lemmas *)

Lemma where_missing_filled (c : cell) : where_missing c = negb (where_filled c).
Proof. destruct c as [|z|[|a s]]; reflexivity. Qed.

Lemma col_index_lt cols col i : col_index cols col = Some i -> (i < length cols)%nat.
Proof.
  revert i. induction cols as [|c cols IH]; intros i; cbn; [discriminate|].
  destruct (decide (c = col)); [intros [= <-]; lia|].
  destruct (col_index cols col) as [j|]; cbn; [|discriminate].
  intros [= <-]. specialize (IH j eq_refl). lia.
Qed.

Lemma col_index_ne cols c1 c2 i j :
  c1 <> c2 -> col_index cols c1 = Some i -> col_index cols c2 = Some j -> i <> j.
Proof.
  intros NE. revert i j. induction cols as [|c cols IH]; intros i j; cbn;
    [discriminate|].
  destruct (decide (c = c1)) as [E1 | N1], (decide (c = c2)) as [E2 | N2];
    try congruence.
  - intros [= <-]. destruct (col_index cols c2); cbn; [|discriminate].
    intros [= <-]. lia.
  - destruct (col_index cols c1); cbn; [|discriminate].
    intros [= <-] [= <-]. lia.
  - destruct (col_index cols c1) as [i'|], (col_index cols c2) as [j'|]; cbn;
      try discriminate.
    intros [= <-] [= <-]. specialize (IH i' j' eq_refl eq_refl). lia.
Qed.

Lemma nth_insert_eq (i : nat) (row : list cell) (v : cell) :
  (i < length row)%nat -> nth i (<[i := v]> row) NULL = v.
Proof.
  revert i. induction row as [|c row IH]; intros [|i] H; cbn in *; try lia.
  - reflexivity.
  - apply IH. lia.
Qed.

Lemma nth_insert_ne (i j : nat) (row : list cell) (v : cell) :
  i <> j -> nth j (<[i := v]> row) NULL = nth j row NULL.
Proof.
  revert i j. induction row as [|c row IH]; intros [|i] [|j] H; cbn;
    try reflexivity; try lia.
  apply IH. lia.
Qed.

Lemma length_filter_map {A B} (f : A -> B) (P : B -> bool) (l : list A) :
  length (List.filter (fun a => P (f a)) l) = length (List.filter P (List.map f l)).
Proof.
  induction l as [|a l IH]; [reflexivity|]. cbn.
  destruct (P (f a)); cbn; rewrite IH; reflexivity.
Qed.

(** Missing or counted: each cell is one or the other. *)
Lemma missing_or_counted (cells : list cell) :
  (length (List.filter where_missing cells)
   + length (List.filter is_not_null (List.filter where_filled cells)))%nat
  = length cells.
Proof.
  induction cells as [|c cells IH]; [reflexivity|].
  cbn [List.filter length]. rewrite where_missing_filled.
  destruct (where_filled_cases c) as [[-> ->] | [[-> ->] | (_ & _ & -> & Hn)]];
    cbn [negb List.filter length]; rewrite ?Hn; cbn [length]; lia.
Qed.

Lemma non_null_query_all (cells : list cell) :
  Forall (fun c => where_missing c = false) cells ->
  length (List.filter is_not_null (List.filter where_filled cells)) = length cells.
Proof.
  intros H.
  assert (E : List.filter where_missing cells = []).
  { induction H as [|c cells Hc _ IH]; [reflexivity|]. cbn. rewrite Hc.
    exact IH. }
  pose proof (missing_or_counted cells) as Hsum.
  rewrite E in Hsum. exact Hsum.
Qed.

Lemma missing_rows_count (df : DataFrame) (column : pystr) :
  In column (columns df) ->
  exists i,
    col_index (columns df) column = Some i /\
    Z.of_nat (length (List.filter (fun row => where_missing (nth i row NULL))
                        (rows df)))
    = null_count (column_report df column).
Proof.
  intros Hin. pose proof (length_column_cells df column Hin) as Hlen.
  unfold column_report, stats_of, non_null_query, sql_count, column_cells in *.
  cbn [null_count].
  destruct (col_index (columns df) column) as [i|] eqn:Ei;
    [|destruct (col_index_In _ _ Hin); congruence].
  exists i. split; [reflexivity|].
  rewrite (length_filter_map (fun row => nth i row NULL) where_missing).
  pose proof (missing_or_counted (List.map (fun row => nth i row NULL) (rows df))).
  lia.
Qed.

(** ** Properties *)


(** ** Filling the missing values *)

(** The default value that [update_null_values] is given: a [str], an
    [int], or another Python value, with the text [str()] gives it. *)
Inductive pyvalue :=
| PyStr (s : pystr)
| PyInteger (z : Z)
| PyOther (text : pystr).

(** The value that the text written for the default stands for in the
    statement, when it is a literal:
<<
    if isinstance(default_value, str):
        default_value = f"'{default_value}'"
>>
    A string between quotes is the literal of its text when it has no quote
    and no NUL in it: nothing is escaped, so that a quote in the string ends
    the literal where it stands.  An integer is its own literal when it fits
    in 64 bits. *)
Definition literal (default_value : pyvalue) : option cell :=
  match default_value with
  | PyStr s =>
      if forallb (fun c => negb (c =? 39)%N && negb (c =? 0)%N) s
      then Some (Text s) else None
  | PyInteger z =>
      if ((- 2 ^ 63 <=? z) && (z <? 2 ^ 63))%Z then Some (Int z) else None
  | PyOther _ => None
  end.

Section Fill.

(** What the column [column] stores when it is given a value: the value
    itself, or the value converted as the declared type of the column asks
    (a column of integers keeps the integer 5 of the text ['5']). *)
Variable affinity : pystr -> cell -> cell.

(** What the statement does when the text written for the default is not a
    literal: the engine rejects it, or runs what it reads. *)
Variable other_update : DataFrame -> pystr -> pyvalue -> option (DataFrame * Z).

(** [DataCleaningQueries.update_null_values(table_name, column, default_value)]:
    [UPDATE t SET col = default WHERE col IS NULL OR col = '']; the table
    after the statement and the number of rows changed, nothing when the
    engine rejects the statement. *)
Definition update_null_values (df : DataFrame) (column : pystr)
    (default_value : pyvalue) : option (DataFrame * Z) :=
  match literal default_value with
  | Some v =>
      match col_index (columns df) column with
      | Some i =>
          Some ({| columns := columns df;
                   rows := List.map
                             (fun row => if where_missing (nth i row NULL)
                                         then <[i := affinity column v]> row
                                         else row)
                             (rows df) |},
                Z.of_nat (length (List.filter
                                    (fun row => where_missing (nth i row NULL))
                                    (rows df))))
      | None => None
      end
  | None => other_update df column default_value
  end.


End Fill.

(** A column declared as text stores a number as its decimal text, and a
    text as it is. *)
Definition text_affinity (column : pystr) (c : cell) : cell :=
  match c with
  | Int z => Text (QueryBuilder.str_of_int z)
  | _ => c
  end.

(** A column declared as integer stores the text of a whole number as the
    number ([digits] reads it), and any other value as it is. *)
Definition integer_affinity (digits : pystr -> option Z) (column : pystr)
    (c : cell) : cell :=
  match c with
  | Text s => match digits s with Some z => Int z | None => c end
  | _ => c
  end.

(** A statement that is not read as the builder meant it is rejected. *)
Definition rejected (df : DataFrame) (column : pystr) (default_value : pyvalue)
    : option (DataFrame * Z) := None.



(** The text of a string with a quote in it is not a literal: the statement
    is left to the engine (['O'Brien'] is a syntax error). *)
Lemma update_null_values_quote :
  literal (PyStr (py "O'Brien")) = None /\
  update_null_values text_affinity rejected clients_df (py "Ville")
    (PyStr (py "O'Brien")) = None.
Proof. split; vm_compute; reflexivity. Qed.

(** ** Duplicates *)

#[local] Instance cell_eq_decision : EqDecision cell := cell_eq_dec.

(** The cells of the columns at [idx] in a row: what [GROUP BY] compares
    (two NULLs are in one group). *)
Definition key_of (idx : list nat) (row : list cell) : list cell :=
  List.map (fun i => nth i row NULL) idx.

(** The positions of the columns; nothing when one of them is not a column
    of the table. *)
Fixpoint col_indexes (cols names : list pystr) : option (list nat) :=
  match names with
  | [] => Some []
  | n :: names' =>
      match col_index cols n, col_indexes cols names' with
      | Some i, Some l => Some (i :: l)
      | _, _ => None
      end
  end.

(** The table as it is scanned: every row with its rowid, rowids going up. *)
Definition scan (df : DataFrame) : list (nat * list cell) :=
  combine (seq 1 (length (rows df))) (rows df).

(** [MIN(rowid)] over a group. *)
Definition sql_min (rowids : list nat) : option nat :=
  match rowids with
  | [] => None
  | a :: l => Some (fold_right Nat.min a l)
  end.

(** [SELECT MIN(rowid) FROM t GROUP BY cols] *)
Definition min_rowids (idx : list nat) (t : list (nat * list cell)) : list nat :=
  omap (fun k =>
          sql_min (List.map fst
                     (List.filter (fun r => bool_decide (key_of idx (snd r) = k)) t)))
       (List.nodup (List.list_eq_dec cell_eq_dec) (List.map (fun r => key_of idx (snd r)) t)).

(** [DataCleaningQueries.remove_duplicates(table_name, unique_columns)]:
<<
    DELETE FROM t
    WHERE rowid NOT IN (SELECT MIN(rowid) FROM t GROUP BY cols)
>>
    the table after the statement and the number of rows deleted; nothing
    when the list of columns is empty (the text is not a statement) or names
    a column that the table does not have. *)
Definition remove_duplicates (df : DataFrame) (unique_columns : list pystr)
    : option (DataFrame * Z) :=
  match unique_columns with
  | [] => None
  | _ :: _ =>
      match col_indexes (columns df) unique_columns with
      | None => None
      | Some idx =>
          let t := scan df in
          let kept :=
            List.filter (fun r => bool_decide (fst r ∈ min_rowids idx t)) t in
          Some ({| columns := columns df; rows := List.map snd kept |},
                (Z.of_nat (length t) - Z.of_nat (length kept))%Z)
      end
  end.

(** [SQLQueryBuilder.find_duplicates(table_name, columns)]:
<<
    SELECT cols, COUNT( * ) as duplicate_count FROM t
    GROUP BY cols HAVING COUNT( * ) > 1 ORDER BY duplicate_count DESC
>>
    one pair of a key and its count per group.  SQL leaves the order between
    groups of the same size open; they are taken in the order in which their
    first rows come. *)
Definition find_duplicates (df : DataFrame) (columns_ : list pystr)
    : option (list (list cell * Z)) :=
  match columns_ with
  | [] => None
  | _ :: _ =>
      match col_indexes (columns df) columns_ with
      | None => None
      | Some idx =>
          let keys := List.map (key_of idx) (rows df) in
          let groups :=
            List.map (fun k => (k, Z.of_nat (count_occ (List.list_eq_dec cell_eq_dec) keys k)))
              (List.nodup (List.list_eq_dec cell_eq_dec) keys) in
          Some (OrderBy.order_by (fun a b => (snd b <=? snd a)%Z)
                  (List.filter (fun g => (snd g >? 1)%Z) groups))
      end
  end.

(** Keeping the first occurrence, as the documentation of
    [remove_duplicates] says it: a row stays when no row before it has the
    same key. *)
Fixpoint first_occurrences (idx : list nat) (seen : list (list cell))
    (rows_ : list (list cell)) : list (list cell) :=
  match rows_ with
  | [] => []
  | row :: rest =>
      if bool_decide (key_of idx row ∈ seen)
      then first_occurrences idx seen rest
      else row :: first_occurrences idx (key_of idx row :: seen) rest
  end.

(** ** The rows that stay *)

Lemma sql_min_spec (l : list nat) (m : nat) :
  sql_min l = Some m -> In m l /\ forall x, In x l -> (m <= x)%nat.
Proof.
  destruct l as [|a l]; [discriminate|]. cbn. intros [= <-].
  induction l as [|b l [IHin IHle]]; cbn.
  - split; [left; reflexivity|]. intros x [<- | []]. lia.
  - split.
    + destruct (Nat.min_spec b (fold_right Nat.min a l)) as [[_ ->] | [_ ->]].
      * right. left. reflexivity.
      * destruct IHin as [E | Hin]; [left; exact E | right; right; exact Hin].
    + intros x [<- | [<- | Hx]].
      * specialize (IHle a (or_introl eq_refl)). lia.
      * lia.
      * specialize (IHle x (or_intror Hx)). lia.
Qed.

Section Kept.

Variable idx : list nat.
Variable t : list (nat * list cell).
Hypothesis t_sorted : StronglySorted lt (List.map fst t).

Lemma rowid_inj r r' : In r t -> In r' t -> fst r = fst r' -> r = r'.
Proof using t_sorted.
  revert t_sorted. induction t as [|a l IH]; intros Hs Hr Hr'; [destruct Hr|].
  cbn in Hs. inversion Hs as [|? ? Hs' Hall]; subst.
  rewrite List.Forall_forall in Hall. intros E.
  destruct Hr as [<- | Hr], Hr' as [<- | Hr'].
  - reflexivity.
  - specialize (Hall (fst r') (List.in_map fst _ _ Hr')). lia.
  - specialize (Hall (fst r) (List.in_map fst _ _ Hr)). lia.
  - exact (IH Hs' Hr Hr' E).
Qed.

(** A row stays exactly when its rowid is the least of its group. *)
Lemma kept_iff r :
  In r t ->
  fst r ∈ min_rowids idx t <->
  (forall r', In r' t -> key_of idx (snd r') = key_of idx (snd r) ->
     (fst r <= fst r')%nat).
Proof using t_sorted.
  intros Hr. unfold min_rowids. rewrite list_elem_of_omap. split.
  - intros (k & _ & Hmin). apply sql_min_spec in Hmin as [Hin Hle].
    apply List.in_map_iff in Hin as (r0 & E0 & Hr0).
    apply List.filter_In in Hr0 as [Hr0 Hk]. apply bool_decide_eq_true in Hk.
    assert (r0 = r) as -> by (apply rowid_inj; assumption).
    intros r' Hr' Ek. apply Hle. apply List.in_map.
    apply List.filter_In. split; [exact Hr'|].
    apply bool_decide_eq_true. congruence.
  - intros Hleast. exists (key_of idx (snd r)). split.
    + apply list_elem_of_In, List.nodup_In.
      apply (List.in_map (fun r => key_of idx (snd r))), Hr.
    + set (g := List.filter
                  (fun r0 => bool_decide (key_of idx (snd r0) = key_of idx (snd r))) t).
      assert (Hg : In r g).
      { apply List.filter_In. split; [exact Hr|].
        apply bool_decide_eq_true. reflexivity. }
      destruct (sql_min (List.map fst g)) as [m|] eqn:Em.
      * pose proof (sql_min_spec _ _ Em) as [Hin Hle].
        apply List.in_map_iff in Hin as (r0 & E0 & Hr0).
        apply List.filter_In in Hr0 as [Hr0 Hk]. apply bool_decide_eq_true in Hk.
        specialize (Hleast r0 Hr0 Hk).
        specialize (Hle (fst r) (List.in_map fst _ _ Hg)).
        f_equal. lia.
      * destruct g; [destruct Hg | discriminate].
Qed.

End Kept.

Lemma sorted_app_inv (l1 l2 : list nat) :
  StronglySorted lt (l1 ++ l2) ->
  StronglySorted lt l2 /\ forall a b, In a l1 -> In b l2 -> (a < b)%nat.
Proof.
  induction l1 as [|x l1 IH]; cbn; intros Hs; [split; [exact Hs | intros a b []]|].
  inversion Hs as [|? ? Hs' Hall]; subst. destruct (IH Hs') as [H2 Hlt].
  split; [exact H2|]. intros a b [<- | Ha] Hb.
  - rewrite List.Forall_forall in Hall. apply Hall, in_or_app. right. exact Hb.
  - apply Hlt; assumption.
Qed.

Lemma first_come_first_kept idx t : forall t1 t2 seen,
  StronglySorted lt (List.map fst t) ->
  t = t1 ++ t2 ->
  (forall k, In k seen <-> In k (List.map (fun r => key_of idx (snd r)) t1)) ->
  List.map snd (List.filter (fun r => bool_decide (fst r ∈ min_rowids idx t)) t2)
  = first_occurrences idx seen (List.map snd t2).
Proof.
  intros t1 t2. revert t1. induction t2 as [|r t2 IH]; intros t1 seen Hs Et Hseen;
    [reflexivity|].
  assert (Hr : In r t) by (rewrite Et; apply in_or_app; right; left; reflexivity).
  assert (Hsplit := Hs). rewrite Et, List.map_app in Hsplit. cbn in Hsplit.
  apply sorted_app_inv in Hsplit as [Hs2 Hlt].
  assert (Hlt1 : forall r', In r' t1 -> (fst r' < fst r)%nat).
  { intros r' Hr'. apply Hlt; [apply List.in_map, Hr' | left; reflexivity]. }
  assert (Hlt2 : forall r', In r' t2 -> (fst r < fst r')%nat).
  { intros r' Hr'. inversion Hs2 as [|? ? _ Hall]; subst.
    rewrite List.Forall_forall in Hall. apply Hall, List.in_map, Hr'. }
  cbn [List.filter List.map first_occurrences].
  assert (Hdec : fst r ∈ min_rowids idx t <-> ~ key_of idx (snd r) ∈ seen).
  { rewrite (kept_iff idx t Hs r Hr). rewrite list_elem_of_In, Hseen. split.
    - intros Hleast Hin. apply List.in_map_iff in Hin as (r0 & Ek & Hr0).
      specialize (Hleast r0 ltac:(rewrite Et; apply in_or_app; left; exact Hr0) Ek).
      specialize (Hlt1 r0 Hr0). lia.
    - intros Hnew r' Hr' Ek. rewrite Et in Hr'.
      apply in_app_or in Hr' as [Hr' | [<- | Hr']].
      + exfalso. apply Hnew. apply List.in_map_iff. exists r'. split; assumption.
      + lia.
      + specialize (Hlt2 r' Hr'). lia. }
  destruct (decide (key_of idx (snd r) ∈ seen)) as [Hin | Hnin].
  - rewrite (bool_decide_eq_false_2 (fst r ∈ min_rowids idx t)) by tauto.
    rewrite (bool_decide_eq_true_2 _ Hin).
    apply (IH (t1 ++ [r])); [exact Hs | rewrite <- app_assoc; exact Et |].
    intros k. rewrite List.map_app, in_app_iff, <- Hseen. cbn.
    rewrite list_elem_of_In in Hin. split; [tauto|].
    intros [H | [<- | []]]; assumption.
  - rewrite (bool_decide_eq_true_2 (fst r ∈ min_rowids idx t)) by tauto.
    rewrite (bool_decide_eq_false_2 _ Hnin). cbn [List.map]. f_equal.
    apply (IH (t1 ++ [r])); [exact Hs | rewrite <- app_assoc; exact Et |].
    intros k. rewrite List.map_app, in_app_iff, <- Hseen. cbn. tauto.
Qed.

Lemma scan_sorted df : StronglySorted lt (List.map fst (scan df)).
Proof.
  unfold scan. generalize 1%nat. induction (rows df) as [|row l IH]; intros n;
    cbn; [constructor|].
  constructor; [apply IH|].
  apply List.Forall_forall. intros x Hx.
  apply List.in_map_iff in Hx as ([i r] & <- & Hin).
  apply in_combine_l, in_seq in Hin. cbn. lia.
Qed.

Lemma scan_rows df : List.map snd (scan df) = rows df.
Proof.
  unfold scan. generalize 1%nat. induction (rows df) as [|row l IH]; intros n;
    cbn; [reflexivity|]. rewrite IH. reflexivity.
Qed.

Lemma length_scan df : length (scan df) = length (rows df).
Proof.
  unfold scan. rewrite length_combine, length_seq. apply Nat.min_id.
Qed.

(** ** What stays when the first occurrences are kept *)

Lemma first_occurrences_sublist idx rows_ : forall seen,
  sublist (first_occurrences idx seen rows_) rows_.
Proof.
  induction rows_ as [|row rest IH]; intros seen; cbn; [constructor|].
  destruct (bool_decide (key_of idx row ∈ seen)).
  - apply sublist_cons, IH.
  - apply sublist_skip, IH.
Qed.

Lemma first_occurrences_keys idx rows_ : forall seen k,
  In k (List.map (key_of idx) (first_occurrences idx seen rows_)) <->
  In k (List.map (key_of idx) rows_) /\ ~ In k seen.
Proof.
  induction rows_ as [|row rest IH]; intros seen k; cbn; [tauto|].
  destruct (decide (key_of idx row ∈ seen)) as [Hin | Hnin].
  - rewrite (bool_decide_eq_true_2 _ Hin), IH. rewrite list_elem_of_In in Hin.
    split; [tauto|]. intros [[<- | H] Hn]; tauto.
  - rewrite (bool_decide_eq_false_2 _ Hnin). cbn. rewrite IH. cbn.
    rewrite list_elem_of_In in Hnin.
    destruct (decide (key_of idx row = k)) as [<- | NE]; tauto.
Qed.

Lemma first_occurrences_NoDup idx rows_ : forall seen,
  List.NoDup (List.map (key_of idx) (first_occurrences idx seen rows_)).
Proof.
  induction rows_ as [|row rest IH]; intros seen; cbn; [constructor|].
  destruct (bool_decide (key_of idx row ∈ seen)); [apply IH|].
  cbn. constructor; [|apply IH].
  rewrite first_occurrences_keys. cbn. tauto.
Qed.

Lemma first_occurrences_fixed idx rows_ : forall seen,
  List.NoDup (List.map (key_of idx) rows_) ->
  (forall k, In k (List.map (key_of idx) rows_) -> ~ In k seen) ->
  first_occurrences idx seen rows_ = rows_.
Proof.
  induction rows_ as [|row rest IH]; intros seen Hnd Hnew; cbn; [reflexivity|].
  cbn in Hnd. inversion Hnd as [|? ? Hhead Hnd']; subst.
  rewrite bool_decide_eq_false_2.
  - f_equal. apply IH; [exact Hnd'|]. intros k Hk [<- | Hs]; [tauto|].
    apply (Hnew k); [right; exact Hk | exact Hs].
  - rewrite list_elem_of_In. apply Hnew. left. reflexivity.
Qed.

Lemma count_occ_NoDup_le (keys : list (list cell)) k :
  List.NoDup keys -> (count_occ (List.list_eq_dec cell_eq_dec) keys k <= 1)%nat.
Proof. intros H. apply (proj1 (List.NoDup_count_occ _ keys) H). Qed.

Lemma remove_duplicates_eq df unique_columns idx :
  unique_columns <> [] ->
  col_indexes (columns df) unique_columns = Some idx ->
  remove_duplicates df unique_columns =
  Some ({| columns := columns df;
           rows := first_occurrences idx [] (rows df) |},
        (Z.of_nat (length (rows df))
         - Z.of_nat (length (first_occurrences idx [] (rows df))))%Z).
Proof.
  intros Hne Hidx. unfold remove_duplicates.
  destruct unique_columns as [|c cs]; [congruence|]. rewrite Hidx. cbv zeta.
  pose proof (first_come_first_kept idx (scan df) [] (scan df) []
                (scan_sorted df) eq_refl ltac:(intros k; cbn; tauto)) as E.
  rewrite (scan_rows df) in E.
  rewrite <- E at 2. rewrite length_map, length_scan, E. reflexivity.
Qed.


(** Two rows for Ana. *)
Definition twice_df : DataFrame :=
  {| columns := [py "Nom"; py "Ville"];
     rows := [[Text (py "Ana"); Text (py "Nice")];
              [Text (py "Luc"); Text (py "Lyon")];
              [Text (py "Ana"); Text (py "Paris")]] |}.


(** ** The text functions of SQLite *)

Definition space : N := 32%N.

(** [UPPER] and [LOWER] change the letters of ASCII only. *)
Definition ascii_upper (c : N) : N :=
  if (97 <=? c)%N && (c <=? 122)%N then (c - 32)%N else c.

Definition ascii_lower (c : N) : N :=
  if (65 <=? c)%N && (c <=? 90)%N then (c + 32)%N else c.

Definition sql_upper (s : pystr) : pystr := List.map ascii_upper s.
Definition sql_lower (s : pystr) : pystr := List.map ascii_lower s.

(** [TRIM(X)] removes the spaces at both ends. *)
Fixpoint ltrim (s : pystr) : pystr :=
  match s with
  | [] => []
  | c :: s' => if (c =? space)%N then ltrim s' else s
  end.

Definition sql_trim (s : pystr) : pystr := rev (ltrim (rev (ltrim s))).

(** [SUBSTR(X, start)] and [SUBSTR(X, start, len)] for a start of 1 or
    more: characters are counted from 1. *)
Definition sql_substr (s : pystr) (start : positive) (len : option nat) : pystr :=
  let rest := skipn (Pos.to_nat start - 1) s in
  match len with
  | Some n => firstn n rest
  | None => rest
  end.

Fixpoint is_prefix (pat s : pystr) : bool :=
  match pat, s with
  | [], _ => true
  | a :: pat', b :: s' => (a =? b)%N && is_prefix pat' s'
  | _ :: _, [] => false
  end.

(** [REPLACE(X, Y, Z)]: every occurrence of [Y] in [X], from the left and
    without overlap, gives way to [Z]; an empty [Y] changes nothing.
    [skip] counts the characters of an occurrence still to pass. *)
Fixpoint replace_from (pat rep : pystr) (skip : nat) (s : pystr) : pystr :=
  match s with
  | [] => []
  | c :: s' =>
      match skip with
      | S k => replace_from pat rep k s'
      | O =>
          if is_prefix pat s
          then rep ++ replace_from pat rep (length pat - 1) s'
          else c :: replace_from pat rep 0 s'
      end
  end.

Definition sql_replace (s pat rep : pystr) : pystr :=
  match pat with
  | [] => s
  | _ :: _ => replace_from pat rep 0 s
  end.

(** The expressions that the statements set a column to. *)
Inductive expr :=
| Column
| UPPER (e : expr)
| LOWER (e : expr)
| TRIM (e : expr)
| SUBSTR (e : expr) (start : positive) (len : option nat)
| Concat (e1 e2 : expr)
| REPLACE (e : expr) (pat rep : pystr).

(** A value as a text: a number is written in decimal, NULL stays NULL. *)
Definition text_of (c : cell) : option pystr :=
  match c with
  | NULL => None
  | Int z => Some (QueryBuilder.str_of_int z)
  | Text s => Some s
  end.

Definition on_text (f : pystr -> pystr) (c : cell) : cell :=
  match text_of c with
  | Some s => Text (f s)
  | None => NULL
  end.

(** The value of an expression in a row whose cell of the column is [c]. *)
Fixpoint eval (e : expr) (c : cell) : cell :=
  match e with
  | Column => c
  | UPPER e1 => on_text sql_upper (eval e1 c)
  | LOWER e1 => on_text sql_lower (eval e1 c)
  | TRIM e1 => on_text sql_trim (eval e1 c)
  | SUBSTR e1 start len => on_text (fun s => sql_substr s start len) (eval e1 c)
  | Concat e1 e2 =>
      match text_of (eval e1 c), text_of (eval e2 c) with
      | Some s1, Some s2 => Text (s1 ++ s2)
      | _, _ => NULL
      end
  | REPLACE e1 pat rep => on_text (fun s => sql_replace s pat rep) (eval e1 c)
  end.

(** [SET col = e WHERE col IS NOT NULL] on one row, the column at
    position [i]; [stored] is what the column makes of the value it is
    given. *)
Definition set_where_not_null (stored : cell -> cell) (e : expr) (i : nat)
    (row : list cell) : list cell :=
  if is_not_null (nth i row NULL)
  then <[i := stored (eval e (nth i row NULL))]> row
  else row.

Section Stored.

(** What a column stores when it is given a value, as in
    [update_null_values]. *)
Variable affinity : pystr -> cell -> cell.

(** [UPDATE t SET col = e WHERE col IS NOT NULL]: the table after the
    statement and the number of rows changed. *)
Definition update_not_null (df : DataFrame) (column : pystr) (e : expr)
    : option (DataFrame * Z) :=
  match col_index (columns df) column with
  | Some i =>
      Some ({| columns := columns df;
               rows := List.map (set_where_not_null (affinity column) e i) (rows df) |},
            Z.of_nat (length (List.filter
                                (fun row => is_not_null (nth i row NULL))
                                (rows df))))
  | None => None
  end.

(** [operation_map] of [standardize_text] *)
Definition operation_map : dict expr :=
  [(py "upper", UPPER (TRIM Column));
   (py "lower", LOWER (TRIM Column));
   (py "trim", TRIM Column);
   (py "title", Concat (UPPER (SUBSTR (TRIM Column) 1 (Some 1%nat)))
                       (LOWER (SUBSTR (TRIM Column) 2 None)))].

(** What a call of a cleaning function that may refuse its argument gives:
    [ValueError], or the outcome of its statement on the table. *)
Inductive cleaned :=
| RaisesValueError
| Runs (after : option (DataFrame * Z)).

(** [DataCleaningQueries.standardize_text(table_name, column, operation)]:
<<
    if operation not in operation_map:
        raise ValueError(...)
    return f"UPDATE {table_name} SET {column} = {operation_map[operation]}
             WHERE {column} IS NOT NULL"
>> *)
Definition standardize_text (df : DataFrame) (column operation : pystr) : cleaned :=
  match dict_get operation operation_map with
  | None => RaisesValueError
  | Some e => Runs (update_not_null df column e)
  end.

(** The five [REPLACE] of [remove_special_characters], innermost first. *)
Definition special_characters : list N := [33; 64; 35; 36; 37]%N.

Definition without_special_characters : expr :=
  REPLACE (REPLACE (REPLACE (REPLACE (REPLACE Column (py "!") []) (py "@") [])
                      (py "#") []) (py "$") []) (py "%") [].

(** [DataCleaningQueries.remove_special_characters(table_name, column)] *)
Definition remove_special_characters (df : DataFrame) (column : pystr)
    : option (DataFrame * Z) :=
  update_not_null df column without_special_characters.

(** ** Letters and spaces *)

Lemma ascii_upper_idem c : ascii_upper (ascii_upper c) = ascii_upper c.
Proof.
  unfold ascii_upper.
  destruct ((97 <=? c)%N && (c <=? 122)%N) eqn:E; [|rewrite E; reflexivity].
  apply andb_true_iff in E as [E1 E2].
  apply N.leb_le in E1. apply N.leb_le in E2.
  destruct (N.leb_spec 97 (c - 32)); [lia | reflexivity].
Qed.

Lemma ascii_lower_idem c : ascii_lower (ascii_lower c) = ascii_lower c.
Proof.
  unfold ascii_lower.
  destruct ((65 <=? c)%N && (c <=? 90)%N) eqn:E; [|rewrite E; reflexivity].
  apply andb_true_iff in E as [E1 E2].
  apply N.leb_le in E1. apply N.leb_le in E2.
  destruct (N.leb_spec (c + 32) 90); [lia|]. rewrite andb_false_r. reflexivity.
Qed.

(** A map on characters that sends spaces, and only spaces, to spaces. *)
Definition keeps_spaces (g : N -> N) : Prop :=
  forall c, (g c =? space)%N = (c =? space)%N.

Lemma ascii_upper_spaces : keeps_spaces ascii_upper.
Proof.
  intros c. unfold ascii_upper, space.
  destruct ((97 <=? c)%N && (c <=? 122)%N) eqn:E; [|reflexivity].
  apply andb_true_iff in E as [E1 E2].
  apply N.leb_le in E1. apply N.leb_le in E2.
  destruct (N.eqb_spec (c - 32) 32), (N.eqb_spec c 32); try reflexivity; lia.
Qed.

Lemma ascii_lower_spaces : keeps_spaces ascii_lower.
Proof.
  intros c. unfold ascii_lower, space.
  destruct ((65 <=? c)%N && (c <=? 90)%N) eqn:E; [|reflexivity].
  apply andb_true_iff in E as [E1 E2].
  apply N.leb_le in E1. apply N.leb_le in E2.
  destruct (N.eqb_spec (c + 32) 32), (N.eqb_spec c 32); try reflexivity; lia.
Qed.

(** No space in front. *)
Definition no_lead (s : pystr) : Prop :=
  match s with
  | [] => True
  | c :: _ => (c =? space)%N = false
  end.

(** No space at either end. *)
Definition trimmed (s : pystr) : Prop := no_lead s /\ no_lead (rev s).

Lemma ltrim_no_lead s : no_lead (ltrim s).
Proof.
  induction s as [|c s IH]; cbn; [exact I|].
  destruct (c =? space)%N eqn:E; [exact IH | exact E].
Qed.

Lemma ltrim_fixed s : no_lead s -> ltrim s = s.
Proof. destruct s as [|c s]; cbn; [reflexivity|]. intros ->. reflexivity. Qed.

Lemma ltrim_suffix s : exists pre, s = pre ++ ltrim s.
Proof.
  induction s as [|c s [pre IH]]; [exists []; reflexivity|]. cbn.
  destruct (c =? space)%N.
  - exists (c :: pre). cbn. rewrite <- IH. reflexivity.
  - exists []. reflexivity.
Qed.

Lemma no_lead_prefix p q : no_lead (p ++ q) -> p <> [] -> no_lead p.
Proof. destruct p as [|c p]; [congruence|]. cbn. auto. Qed.

Lemma ltrim_map g s : keeps_spaces g -> ltrim (List.map g s) = List.map g (ltrim s).
Proof.
  intros Hg. induction s as [|c s IH]; [reflexivity|]. cbn.
  rewrite Hg. destruct (c =? space)%N; [exact IH | reflexivity].
Qed.

Lemma sql_trim_map g s :
  keeps_spaces g -> sql_trim (List.map g s) = List.map g (sql_trim s).
Proof.
  intros Hg. unfold sql_trim.
  rewrite (ltrim_map g _ Hg), <- List.map_rev, (ltrim_map g _ Hg), List.map_rev.
  reflexivity.
Qed.

Lemma sql_trim_trimmed s : trimmed (sql_trim s).
Proof.
  unfold trimmed, sql_trim. rewrite rev_involutive.
  split; [|apply ltrim_no_lead].
  destruct (ltrim_suffix (rev (ltrim s))) as [pre Hpre].
  apply (f_equal (@rev N)) in Hpre. rewrite rev_involutive, rev_app_distr in Hpre.
  destruct (rev (ltrim (rev (ltrim s)))) as [|c r] eqn:E; [exact I|].
  apply (no_lead_prefix (c :: r) (rev pre)); [|discriminate].
  rewrite <- Hpre. apply ltrim_no_lead.
Qed.

Lemma sql_trim_fixed s : trimmed s -> sql_trim s = s.
Proof.
  intros [H1 H2]. unfold sql_trim.
  rewrite (ltrim_fixed s H1), (ltrim_fixed (rev s) H2). apply rev_involutive.
Qed.

Lemma sql_trim_idem s : sql_trim (sql_trim s) = sql_trim s.
Proof. apply sql_trim_fixed, sql_trim_trimmed. Qed.

(** The text [title] makes of a trimmed text. *)
Definition capitalized (t : pystr) : pystr :=
  sql_upper (sql_substr t 1 (Some 1%nat)) ++ sql_lower (sql_substr t 2 None).

Lemma capitalized_cons c r :
  capitalized (c :: r) = ascii_upper c :: sql_lower r.
Proof. reflexivity. Qed.

Lemma capitalized_idem t : capitalized (capitalized t) = capitalized t.
Proof.
  destruct t as [|c r]; [reflexivity|].
  rewrite !capitalized_cons, ascii_upper_idem. f_equal.
  unfold sql_lower. rewrite List.map_map. apply List.map_ext, ascii_lower_idem.
Qed.

Lemma capitalized_trimmed t : trimmed t -> trimmed (capitalized t).
Proof.
  destruct t as [|c r]; [intros _; split; exact I|].
  intros [H1 H2]. rewrite capitalized_cons. split.
  - cbn. rewrite ascii_upper_spaces. exact H1.
  - cbn in H2 |- *. unfold sql_lower. rewrite <- List.map_rev.
    destruct (rev r) as [|d r']; cbn in *.
    + rewrite ascii_upper_spaces. exact H2.
    + rewrite ascii_lower_spaces. exact H2.
Qed.

(** Replacing one character by nothing removes it. *)
Lemma sql_replace_char s ch :
  sql_replace s [ch] [] = List.filter (fun c => negb (c =? ch)%N) s.
Proof.
  cbn [sql_replace].
  induction s as [|c s IH]; [reflexivity|].
  cbn [replace_from is_prefix length List.filter app Nat.sub].
  rewrite andb_true_r, (N.eqb_sym ch c).
  destruct (c =? ch)%N; cbn [negb]; rewrite IH; reflexivity.
Qed.

(** ** What the expressions do to a cell *)

Definition standardized (operation : pystr) (s : pystr) : option pystr :=
  if decide (operation = py "upper") then Some (sql_upper (sql_trim s))
  else if decide (operation = py "lower") then Some (sql_lower (sql_trim s))
  else if decide (operation = py "trim") then Some (sql_trim s)
  else if decide (operation = py "title") then Some (capitalized (sql_trim s))
  else None.

Lemma operation_map_eval operation e :
  dict_get operation operation_map = Some e ->
  exists f,
    (forall s, standardized operation s = Some (f s)) /\
    (forall c, eval e c = on_text f c) /\
    (forall s, f (f s) = f s) /\
    (forall s, trimmed (f s)).
Proof.
  unfold operation_map, standardized. cbn [dict_get].
  destruct (decide (operation = py "upper")) as [-> | N1].
  { intros [= <-]. exists (fun s => sql_upper (sql_trim s)).
    split; [reflexivity|]. split; [intros [|z|s]; reflexivity|]. split.
    - intros s. unfold sql_upper.
      rewrite (sql_trim_map _ _ ascii_upper_spaces), sql_trim_idem, List.map_map.
      apply List.map_ext, ascii_upper_idem.
    - intros s. unfold sql_upper.
      rewrite <- (sql_trim_map _ _ ascii_upper_spaces). apply sql_trim_trimmed. }
  destruct (decide (operation = py "lower")) as [-> | N2].
  { intros [= <-]. exists (fun s => sql_lower (sql_trim s)).
    split; [reflexivity|]. split; [intros [|z|s]; reflexivity|]. split.
    - intros s. unfold sql_lower.
      rewrite (sql_trim_map _ _ ascii_lower_spaces), sql_trim_idem, List.map_map.
      apply List.map_ext, ascii_lower_idem.
    - intros s. unfold sql_lower.
      rewrite <- (sql_trim_map _ _ ascii_lower_spaces). apply sql_trim_trimmed. }
  destruct (decide (operation = py "trim")) as [-> | N3].
  { intros [= <-]. exists sql_trim.
    split; [reflexivity|]. split; [intros [|z|s]; reflexivity|].
    split; [apply sql_trim_idem | apply sql_trim_trimmed]. }
  destruct (decide (operation = py "title")) as [-> | N4]; [|discriminate].
  intros [= <-]. exists (fun s => capitalized (sql_trim s)).
  split; [reflexivity|]. split; [intros [|z|s]; reflexivity|]. split.
  - intros s.
    rewrite (sql_trim_fixed (capitalized (sql_trim s)))
      by apply capitalized_trimmed, sql_trim_trimmed.
    apply capitalized_idem.
  - intros s. apply capitalized_trimmed, sql_trim_trimmed.
Qed.

Lemma on_text_idem f c : (forall s, f (f s) = f s) -> on_text f (on_text f c) = on_text f c.
Proof.
  intros Hf. unfold on_text. destruct (text_of c); cbn; [|reflexivity].
  rewrite Hf. reflexivity.
Qed.

(** ** What the statement does to a table *)

Section Update.

Variable e : expr.
Variable column : pystr.

(** The column keeps a text as it is, and the expression makes a text of
    every value that is not NULL, the same text when it is applied again. *)
Variable f : pystr -> pystr.
Hypothesis keeps_text : forall s, affinity column (Text s) = Text s.
Hypothesis e_text : forall c, eval e c = on_text f c.
Hypothesis f_idem : forall s, f (f s) = f s.

Lemma set_where_not_null_cell i row :
  (i < length row)%nat ->
  nth i (set_where_not_null (affinity column) e i row) NULL
  = on_text f (nth i row NULL).
Proof using keeps_text e_text.
  intros Hi. unfold set_where_not_null.
  destruct (nth i row NULL) eqn:E; cbn [is_not_null].
  - rewrite E. reflexivity.
  - rewrite nth_insert_eq by exact Hi. rewrite e_text. apply keeps_text.
  - rewrite nth_insert_eq by exact Hi. rewrite e_text. apply keeps_text.
Qed.

Lemma set_where_not_null_other i j row :
  i <> j ->
  nth j (set_where_not_null (affinity column) e i row) NULL = nth j row NULL.
Proof.
  intros NE. unfold set_where_not_null.
  destruct (is_not_null (nth i row NULL)); [|reflexivity].
  apply nth_insert_ne, NE.
Qed.

Lemma set_where_not_null_idem i row :
  (i < length row)%nat ->
  set_where_not_null (affinity column) e i
    (set_where_not_null (affinity column) e i row)
  = set_where_not_null (affinity column) e i row.
Proof using keeps_text e_text f_idem.
  intros Hi. unfold set_where_not_null at 1.
  rewrite (set_where_not_null_cell i row Hi).
  destruct (is_not_null (on_text f (nth i row NULL))) eqn:En; [|reflexivity].
  rewrite e_text, (on_text_idem f _ f_idem).
  unfold set_where_not_null.
  destruct (nth i row NULL) eqn:E0; cbn [is_not_null].
  - discriminate.
  - rewrite e_text. cbn [on_text text_of]. rewrite !keeps_text.
    apply list_insert_insert_eq.
  - rewrite e_text. cbn [on_text text_of]. rewrite !keeps_text.
    apply list_insert_insert_eq.
Qed.

Lemma update_not_null_cells df :
  In column (columns df) ->
  rectangular df ->
  exists df' n,
    update_not_null df column e = Some (df', n) /\
    columns df' = columns df /\
    row_count df' = row_count df /\
    n = sql_count (column_cells df column) /\
    column_cells df' column = List.map (on_text f) (column_cells df column) /\
    (forall c, c <> column -> column_cells df' c = column_cells df c) /\
    (exists n', update_not_null df' column e = Some (df', n')).
Proof using keeps_text e_text f_idem.
  intros Hin Hrect. unfold update_not_null.
  destruct (col_index (columns df) column) as [i|] eqn:Ei;
    [|destruct (col_index_In _ _ Hin); congruence].
  pose proof (col_index_lt _ _ _ Ei) as Hi.
  assert (Hlen : forall row, In row (rows df) -> (i < length row)%nat).
  { intros row Hrow. unfold rectangular in Hrect.
    rewrite List.Forall_forall in Hrect. rewrite (Hrect row Hrow). exact Hi. }
  eexists _, _. split; [reflexivity|]. cbn [columns rows].
  split; [reflexivity|].
  split; [unfold row_count; cbn [rows]; rewrite length_map; reflexivity|].
  split.
  { unfold sql_count, column_cells. rewrite Ei.
    rewrite (length_filter_map (fun row => nth i row NULL) is_not_null).
    reflexivity. }
  split.
  { unfold column_cells. cbn [columns rows]. rewrite Ei, !List.map_map.
    apply List.map_ext_in. intros row Hrow.
    apply set_where_not_null_cell, Hlen, Hrow. }
  split.
  { intros c NE. unfold column_cells. cbn [columns rows].
    destruct (col_index (columns df) c) as [j|] eqn:Ej; [|reflexivity].
    rewrite List.map_map. apply List.map_ext. intros row.
    apply set_where_not_null_other. apply not_eq_sym.
    exact (col_index_ne _ _ _ _ _ NE Ej Ei). }
  rewrite Ei. eexists. f_equal. f_equal. f_equal.
  rewrite List.map_map. apply List.map_ext_in. intros row Hrow.
  apply set_where_not_null_idem, Hlen, Hrow.
Qed.

End Update.

(** ** Properties *)

(** The operations of [standardize_text]. *)
Definition operations : list pystr :=
  [py "upper"; py "lower"; py "trim"; py "title"].

Lemma operation_map_keys operation :
  dict_get operation operation_map = None <-> ~ In operation operations.
Proof.
  unfold operation_map, operations. cbn [dict_get In].
  destruct (decide (operation = py "upper")) as [-> | N1]; [split; [discriminate | tauto]|].
  destruct (decide (operation = py "lower")) as [-> | N2]; [split; [discriminate | tauto]|].
  destruct (decide (operation = py "trim")) as [-> | N3]; [split; [discriminate | tauto]|].
  destruct (decide (operation = py "title")) as [-> | N4]; [split; [discriminate | tauto]|].
  split; [|reflexivity]. intros _ [E | [E | [E | [E | []]]]]; congruence.
Qed.


(** The text without [!], [@], [#], [$] and [%]. *)
Definition stripped (s : pystr) : pystr :=
  List.filter (fun c => negb (existsb (N.eqb c) special_characters)) s.

Lemma stripped_replace (s : pystr) :
  sql_replace
    (sql_replace
       (sql_replace (sql_replace (sql_replace s (py "!") []) (py "@") [])
          (py "#") [])
       (py "$") [])
    (py "%") []
  = stripped s.
Proof.
  change (py "!") with [33%N]. change (py "@") with [64%N].
  change (py "#") with [35%N]. change (py "$") with [36%N].
  change (py "%") with [37%N].
  rewrite !sql_replace_char. unfold stripped, special_characters.
  induction s as [|ch s IH]; [reflexivity|]. cbn [List.filter existsb].
  destruct (ch =? 33)%N eqn:E1; cbn [negb orb]; [exact IH|].
  cbn [List.filter]. destruct (ch =? 64)%N eqn:E2; cbn [negb orb]; [exact IH|].
  cbn [List.filter]. destruct (ch =? 35)%N eqn:E3; cbn [negb orb]; [exact IH|].
  cbn [List.filter]. destruct (ch =? 36)%N eqn:E4; cbn [negb orb]; [exact IH|].
  cbn [List.filter]. destruct (ch =? 37)%N eqn:E5; cbn [negb orb]; [exact IH|].
  cbn [List.filter]. f_equal. exact IH.
Qed.

Lemma without_special_characters_eval c :
  eval without_special_characters c = on_text stripped c.
Proof.
  unfold without_special_characters. cbn [eval]. unfold on_text.
  destruct c as [|z|s]; cbn [text_of]; [reflexivity|..];
    rewrite stripped_replace; reflexivity.
Qed.

Lemma stripped_idem s : stripped (stripped s) = stripped s.
Proof.
  unfold stripped. induction s as [|c s IH]; [reflexivity|]. cbn [List.filter].
  destruct (negb (existsb (N.eqb c) special_characters)) eqn:E; cbn [List.filter];
    [rewrite E, IH; reflexivity | exact IH].
Qed.


End Stored.

(** A column of names as they were typed. *)
Definition typed_df : DataFrame :=
  {| columns := [py "Nom"];
     rows := [[Text (py "  ana MARIA ")]; [NULL]; [Text (py "l#u%c!")]] |}.



(** A column declared as integer gives the number back: the statement
    leaves the cell as it was. *)
Lemma remove_special_characters_integer_column :
  remove_special_characters
    (integer_affinity (fun s => if decide (s = py "42") then Some 42%Z else None))
    {| columns := [py "Age"]; rows := [[Int 42]] |} (py "Age")
  = Some ({| columns := [py "Age"]; rows := [[Int 42]] |}, 1%Z).
Proof. vm_compute. reflexivity. Qed.

End Cleaning.

(* ===================================================================== *)
(** * More about the quality report *)
(* ===================================================================== *)

Module QualityFacts.
Import Quality.

Lemma length_filter_le {A} (P : A -> bool) (l : list A) :
  (length (List.filter P l) <= length l)%nat.
Proof.
  induction l as [|a l IH]; [reflexivity|]. cbn.
  destruct (P a); cbn; lia.
Qed.

(** A value that is not NULL is the empty text or is counted as filled. *)
Lemma not_null_cases (cells : list cell) (c : cell) :
  In c (List.filter is_not_null cells) ->
  In c (Text [] :: List.filter is_not_null (List.filter where_filled cells)).
Proof.
  intros Hc. apply List.filter_In in Hc as [Hin Hn].
  destruct (where_filled_cases c) as [[-> _] | [[-> _] | (_ & _ & Hf & _)]].
  - discriminate.
  - left. reflexivity.
  - right. apply List.filter_In. split; [|exact Hn].
    apply List.filter_In. split; assumption.
Qed.

(** The counts of the report stay within their bounds, for every column of
    every table whose name and headers stand for themselves in the text of a
    query: the count called non-null and the null count lie between 0 and
    the number of rows and add up to it; the number of distinct values is at
    most the number of rows and at most one more than the non-null count
    (the empty text is a value, but is not counted as non-null); and the
    completeness is the integer 0 exactly when the table has no row. *)
Theorem quality_report_bounds reserved other_counts other_table
    tables table_name df col :
  names_it reserved table_name = true ->
  tables !! table_name = Some df ->
  Forall (fun c => names_it reserved c = true) (columns df) ->
  In col (columns df) ->
  exists r st,
    generate_data_quality_report reserved other_counts other_table tables table_name
      = Some r /\
    dict_get col (columns_stats r) = Some st /\
    (0 <= non_null_count st <= row_count df)%Z /\
    (0 <= null_count st <= row_count df)%Z /\
    (non_null_count st + null_count st = row_count df)%Z /\
    (0 <= unique_count st <= row_count df)%Z /\
    (unique_count st <= non_null_count st + 1)%Z /\
    (completeness st = PyInt 0 <-> row_count df = 0%Z).
Proof.
  intros Hn Ht Hc Hin.
  rewrite (generate_data_quality_report_named _ _ _ _ _ _ Hn Ht Hc).
  eexists _, (column_report df col). split; [reflexivity|].
  cbn [columns_stats]. split; [apply dict_get_fold_set, Hin|].
  unfold column_report, stats_of.
  cbn [non_null_count null_count unique_count completeness].
  pose proof (length_column_cells df col Hin) as Hlen.
  set (cells := column_cells df col) in *.
  unfold non_null_query, unique_query, sql_count, sql_count_distinct. fold cells.
  set (filled := List.filter is_not_null (List.filter where_filled cells)).
  assert (Hfilled : (length filled <= length cells)%nat).
  { unfold filled. etransitivity; apply length_filter_le. }
  assert (Huniq : (length (List.nodup cell_eq_dec (List.filter is_not_null cells))
                   <= length cells)%nat).
  { etransitivity; [|apply (length_filter_le is_not_null)].
    apply List.NoDup_incl_length; [apply List.NoDup_nodup|].
    intros c Hc'. apply List.nodup_In in Hc'. exact Hc'. }
  assert (Huniq1 : (length (List.nodup cell_eq_dec (List.filter is_not_null cells))
                    <= S (length filled))%nat).
  { change (S (length filled)) with (length (Text [] :: filled)).
    apply List.NoDup_incl_length; [apply List.NoDup_nodup|].
    intros c Hc'. apply List.nodup_In in Hc'. apply not_null_cases, Hc'. }
  split; [lia|]. split; [lia|]. split; [lia|]. split; [lia|]. split; [lia|].
  destruct (Z.gtb_spec (row_count df) 0) as [Hpos | Hle].
  - split; [discriminate | lia].
  - split; [lia | reflexivity].
Qed.

Lemma quality_report_bounds_witness :
  exists r st,
    generate_data_quality_report no_keyword raises no_table
      clients_tables (py "Clients") = Some r /\
    dict_get (py "Ville") (columns_stats r) = Some st /\
    unique_count st = 2%Z /\ non_null_count st = 1%Z /\
    (unique_count st <= non_null_count st + 1)%Z.
Proof.
  destruct (quality_report_bounds no_keyword raises no_table
              clients_tables (py "Clients") clients_df (py "Ville"))
    as (r & st & R & G & _ & _ & _ & _ & U & _).
  - vm_compute. reflexivity.
  - vm_compute. reflexivity.
  - repeat constructor.
  - right. left. reflexivity.
  - exists r, st. split; [exact R|]. split; [exact G|].
    vm_compute in R. injection R as <-. vm_compute in G. injection G as <-.
    split; [reflexivity|]. split; [reflexivity | exact U].
Defined.

(** A header that is not an identifier leaves the report to what the engine
    makes of the text: here the query raises, and so does the report. *)
Lemma quality_report_two_word_header :
  generate_data_quality_report no_keyword raises no_table
    (<[py "Tarifs" := {| columns := [py "Prix Unitaire"]; rows := [[Int 3]] |}]> ∅)
    (py "Tarifs") = None.
Proof. vm_compute. reflexivity. Qed.

End QualityFacts.
(* ===================================================================== *)
(** * More about [pareto_analysis] *)
(* ===================================================================== *)

Module ParetoFacts.
Import Pareto.

Lemma filter_all {A} (P : A -> bool) (l : list A) :
  (forall a, In a l -> P a = true) -> List.filter P l = l.
Proof.
  induction l as [|a l IH]; intros H; [reflexivity|]. cbn.
  rewrite (H a (or_introl eq_refl)). f_equal. apply IH.
  intros b Hb. apply H. right. exact Hb.
Qed.

Section Engine.

Variable real : Type.
Variable pct_of : Z -> Z -> real.
Variable at_most_80 : real -> bool.
Variable reply : Type.
Variable elsewhere : list row -> reply.

Local Abbreviation pareto_rows := (Pareto.pareto_rows real pct_of at_most_80).
Local Abbreviation cumulative_data := (Pareto.cumulative_data real pct_of at_most_80).
Local Abbreviation before := (Pareto.before real).

Lemma sorted_last (l : list (out_row real)) (r : out_row real) :
  StronglySorted before (l ++ [r]) -> Forall (fun a => before a r) l.
Proof.
  induction l as [|a l IH]; cbn; intros Hs; [constructor|].
  inversion Hs as [|? ? Hs' Hall]; subst. constructor.
  - rewrite List.Forall_forall in Hall. apply Hall, in_or_app.
    right. left. reflexivity.
  - exact (IH Hs').
Qed.

Lemma pareto_rows_nonempty t : t <> [] -> pareto_rows t <> [].
Proof.
  intros Hne E.
  pose proof (Permutation_length (pareto_rows_perm real pct_of at_most_80 t)) as Hlen.
  rewrite E in Hlen. cbn in Hlen.
  unfold Pareto.cumulative_data, ranked_data, categories in Hlen.
  rewrite !length_map in Hlen.
  destruct t as [|r t]; [congruence|].
  assert (Hin : In (fst r) (List.nodup cell_eq_dec (List.map fst (r :: t))))
    by (apply List.nodup_In; left; reflexivity).
  destruct (List.nodup cell_eq_dec (List.map fst (r :: t))); [destruct Hin | discriminate].
Qed.

(** The category that comes last is never in the "Top 80%": for every table
    of integers in range that has a row, the last row of the result has the
    grand total as its cumulative value, hence the percentage of the grand
    total in itself when it is not zero, and it is labelled "Bottom 20%"
    when the grand total is positive (a table with one category has no "Top
    80%" row at all).  When the grand total is zero or NULL, no percentage
    can be computed: every row has a NULL percentage and the label "Bottom
    20%". *)
Theorem pareto_last_is_bottom (t : list row) (t' : list (cell * option Z)) :
  pct_whole real pct_of at_most_80 ->
  integers t = Some t' -> in_range t' = true ->
  t <> [] ->
  exists out,
    pareto_analysis real pct_of at_most_80 reply elsewhere t = Rows out /\
    (exists l r,
       out = l ++ [r] /\
       cumulative_value r = grand_total t' /\
       (forall g, grand_total t' = Some g -> g <> 0%Z ->
          cumulative_percentage r = Some (pct_of g g)) /\
       (forall g, grand_total t' = Some g -> (0 < g)%Z ->
          pareto_category r = Bottom20)) /\
    ((grand_total t' = None \/ grand_total t' = Some 0%Z) ->
     forall r, In r out ->
       cumulative_percentage r = None /\ pareto_category r = Bottom20).
Proof.
  intros Hwhole Hint Hrange Hne0.
  assert (Hne : t' <> []).
  { intros ->. destruct t as [|[c v] t]; [congruence|]. cbn in Hint.
    destruct v; try discriminate; destruct (integers t); discriminate. }
  exists (pareto_rows t').
  split; [unfold pareto_analysis; rewrite Hint, Hrange; reflexivity|].
  assert (Hzero : (grand_total t' = None \/ grand_total t' = Some 0%Z) ->
            forall r, In r (pareto_rows t') ->
              cumulative_percentage r = None /\ pareto_category r = Bottom20).
  { intros Hg r Hr.
    apply (Permutation_in _ (Permutation_sym (pareto_rows_perm _ _ _ t'))) in Hr.
    destruct (cumulative_data_row _ _ _ t' r Hr) as (_ & _ & _ & Hp & Hl).
    assert (Hnone : cumulative_percentage r = None).
    { rewrite Hp. unfold percentage.
      destruct (cumulative_value r); [|reflexivity].
      destruct Hg as [-> | ->]; reflexivity. }
    split; [exact Hnone|]. rewrite Hl, Hnone. reflexivity. }
  split; [|exact Hzero].
  destruct (exists_last (pareto_rows_nonempty t' Hne)) as (l & r & E).
  exists l, r. split; [exact E|].
  assert (Hr : In r (pareto_rows t'))
    by (rewrite E; apply in_or_app; right; left; reflexivity).
  pose proof (order_by_total_desc_sorted real (cumulative_data t')) as Hs.
  fold (pareto_rows t') in Hs. rewrite E in Hs.
  apply sorted_last in Hs. rewrite List.Forall_forall in Hs.
  apply (Permutation_in _ (Permutation_sym (pareto_rows_perm _ _ _ t'))) in Hr as Hr0.
  destruct (cumulative_data_row _ _ _ t' r Hr0) as (_ & _ & Hc & Hp & Hl).
  assert (Hframe : frame (List.map snd (ranked_data t')) (total_value r)
                   = List.map snd (ranked_data t')).
  { unfold frame. apply filter_all. intros k Hk.
    rewrite <- (map_total_value_cumulative_data real pct_of at_most_80) in Hk.
    apply List.in_map_iff in Hk as (a & <- & Ha).
    apply (Permutation_in _ (pareto_rows_perm _ _ _ t')) in Ha.
    rewrite E in Ha. apply in_app_or in Ha as [Ha | [<- | []]].
    - exact (Hs a Ha).
    - apply desc_refl. }
  assert (Hcum : cumulative_value r = grand_total t').
  { rewrite Hc, Hframe. reflexivity. }
  split; [exact Hcum|].
  assert (Hpct : forall g, grand_total t' = Some g -> g <> 0%Z ->
            cumulative_percentage r = Some (pct_of g g)).
  { intros g Hg Hg0. rewrite Hp, Hcum, Hg. unfold percentage.
    destruct (Z.eqb_spec g 0%Z) as [E0 | _]; [contradiction | reflexivity]. }
  split; [exact Hpct|].
  intros g Hg Hpos. rewrite Hl, (Hpct g Hg) by lia. cbn.
  rewrite (Hwhole g g Hpos (Z.le_refl g)). reflexivity.
Qed.

End Engine.

(** One category only, and a table whose amounts cancel out. *)
Definition single : list row := [(Text (py "A"), VInt 100); (Text (py "A"), VInt 50)].

Definition cancelled : list row :=
  [(Text (py "A"), VInt 100); (Text (py "B"), VInt (-100))].

Lemma pareto_last_is_bottom_witness :
  (exists out,
     pareto_analysis Q exact_pct exact_at_most_80 unit unanswered single = Rows out /\
     List.map pareto_category out = [Bottom20] /\
     List.map cumulative_percentage out = [Some (10000 # 100)%Q]) /\
  (exists out,
     pareto_analysis Q exact_pct exact_at_most_80 unit unanswered cancelled = Rows out /\
     forall r, In r out -> pareto_category r = Bottom20).
Proof.
  destruct (pareto_last_is_bottom Q exact_pct exact_at_most_80 unit unanswered single
              [(Text (py "A"), Some 100%Z); (Text (py "A"), Some 50%Z)]
              exact_pct_whole eq_refl eq_refl)
    as (out & E & (l & r & El & _ & Hp & Hb) & _); [discriminate|].
  destruct (pareto_last_is_bottom Q exact_pct exact_at_most_80 unit unanswered cancelled
              [(Text (py "A"), Some 100%Z); (Text (py "B"), Some (-100)%Z)]
              exact_pct_whole eq_refl eq_refl)
    as (out2 & E2 & _ & Hz); [discriminate|].
  split.
  - exists out. split; [exact E|].
    assert (Hlen : length out = 1%nat).
    { vm_compute in E. injection E as <-. reflexivity. }
    rewrite El in Hlen |- *. rewrite length_app in Hlen. cbn in Hlen.
    destruct l as [|a l]; [|cbn in Hlen; lia]. cbn.
    split; [rewrite (Hb 150%Z); [reflexivity | vm_compute; reflexivity | lia]|].
    rewrite (Hp 150%Z); [vm_compute; reflexivity | vm_compute; reflexivity | discriminate].
  - exists out2. split; [exact E2|].
    intros r' Hr'. apply Hz; [right; vm_compute; reflexivity | exact Hr'].
Defined.

End ParetoFacts.
